(** * Response validation against an OpenAPI schema subset

    A shallow embedding of [lib/validators.py] (class [ResponseValidator]):
    the path matcher [get_schema_for_endpoint] and the recursive validator
    [_validate_property], over the values that [json.load] produces; and
    of the URL builders of [lib/api_client.py] and [config/settings.py].

    Conventions of the embedding.
    - A Python [str] is a [string]; one [ascii] is one character, so the
      alphabet of the model is the 256 characters of Latin-1.
    - A Python [dict] is an association list in insertion order; the keys
      of a dictionary are pairwise distinct.
    - A Python exception is the [Raise] outcome of the [result] monad.
    - [repr] (the text Python prints for a float, a list or a dictionary)
      and [re_match] ([re.match] on the pattern of a template that holds
      a character special to [re] which the model does not read) are
      parameters of the sections that use them.
    - The validator is given twice: as a function on values, and as a
      program on a store of objects, in which the arguments are references
      and every list of errors is an object that the call creates. *)

From Stdlib Require Import ZArith List String Ascii Bool Lia.
From Stdlib Require Import SpecFloat DecimalString.
Import ListNotations.

Local Open Scope string_scope.
Local Open Scope Z_scope.

Set Implicit Arguments.

(** ** JSON values, as [json.load] builds them *)

#[local] Unset Elimination Schemes.

Inductive json : Type :=
| JNull                                   (* None *)
| JBool  (b : bool)                       (* bool, a subclass of int *)
| JInt   (n : Z)                          (* int *)
| JFloat (f : spec_float)                 (* float *)
| JStr   (s : string)                     (* str *)
| JList  (l : list json)                  (* list *)
| JDict  (d : list (string * json)).      (* dict with str keys *)

#[local] Set Elimination Schemes.

(** ** Exceptions *)

Inductive exn : Type :=
  TypeError | KeyError | AttributeError | ReError | RecursionError.

Inductive result (A : Type) : Type :=
| Ok (a : A)
| Raise (e : exn).

Arguments Ok {A} a.
Arguments Raise {A} e.

Definition bind {A B : Type} (m : result A) (k : A -> result B) : result B :=
  match m with
  | Ok a => k a
  | Raise e => Raise e
  end.

Notation "x <- m ;; k" := (bind m (fun x => k))
  (at level 61, m at next level, right associativity).

(** [mapM f l] runs [f] on the elements of [l] from left to right and
    stops at the first exception. *)
Fixpoint mapM {A B : Type} (f : A -> result B) (l : list A) : result (list B) :=
  match l with
  | [] => Ok []
  | a :: l' => b <- f a ;; bs <- mapM f l' ;; Ok (b :: bs)
  end.

(** [sequence l] runs the computations of [l] from left to right. *)
Definition sequence {A : Type} (l : list (result A)) : result (list A) :=
  mapM (fun m => m) l.

(** ** Python primitives on JSON values *)

Module Py.

(** *** Numbers: exact values of int, bool and float *)

Inductive num : Type :=
| NaN
| Inf (neg : bool)
| Fin (m e : Z).                           (* m * 2^e *)

Definition of_float (f : spec_float) : num :=
  match f with
  | S754_zero _ => Fin 0 0
  | S754_infinity s => Inf s
  | S754_nan => NaN
  | S754_finite s m e => Fin (if s then Z.neg m else Z.pos m) e
  end.

Definition num_value (v : json) : option num :=
  match v with
  | JBool b => Some (Fin (Z.b2z b) 0)
  | JInt n => Some (Fin n 0)
  | JFloat f => Some (of_float f)
  | _ => None
  end.

(** Comparison of the exact values; every comparison with NaN is false. *)
Definition scale (m e e0 : Z) : Z := m * 2 ^ (e - e0).

Definition num_ltb (x y : num) : bool :=
  match x, y with
  | NaN, _ | _, NaN => false
  | Inf true, Inf true => false
  | Inf true, _ => true
  | _, Inf true => false
  | Inf false, _ => false
  | _, Inf false => true
  | Fin m1 e1, Fin m2 e2 =>
      let e0 := Z.min e1 e2 in scale m1 e1 e0 <? scale m2 e2 e0
  end.

Definition num_eqb (x y : num) : bool :=
  match x, y with
  | NaN, _ | _, NaN => false
  | Inf s, Inf t => Bool.eqb s t
  | Fin m1 e1, Fin m2 e2 =>
      let e0 := Z.min e1 e2 in scale m1 e1 e0 =? scale m2 e2 e0
  | _, _ => false
  end.

(** *** Dictionaries *)

Definition dict : Type := list (string * json).

Fixpoint dict_lookup (k : string) (d : dict) : option json :=
  match d with
  | [] => None
  | (k', v) :: d' => if String.eqb k' k then Some v else dict_lookup k d'
  end.

(** [k in d] *)
Definition dict_mem (k : string) (d : dict) : bool :=
  match dict_lookup k d with Some _ => true | None => false end.

(** [d.get(k, default)] *)
Definition dict_get (d : dict) (k : string) (default : json) : json :=
  match dict_lookup k d with Some v => v | None => default end.

(** [dict_find k f d] is [f d[k]] when [k in d]; the function is applied
    where the entry is found, which lets a recursive validator descend into
    the entry. *)
Definition dict_find {B : Type} (k : string) (f : json -> B) : dict -> option B :=
  fix go (d : dict) : option B :=
    match d with
    | [] => None
    | (k', v) :: d' => if String.eqb k' k then Some (f v) else go d'
    end.

(** *** Truth value, equality, containment, subscription *)

(** [bool(v)] *)
Definition truthy (v : json) : bool :=
  match v with
  | JNull => false
  | JBool b => b
  | JStr s => negb (String.eqb s "")
  | JList l => match l with [] => false | _ => true end
  | JDict d => match d with [] => false | _ => true end
  | JInt _ | JFloat _ =>
      match num_value v with
      | Some x => negb (num_eqb x (Fin 0 0))
      | None => true
      end
  end.

(** [v == 'literal'] *)
Definition eq_str (v : json) (s : string) : bool :=
  match v with
  | JStr t => String.eqb t s
  | _ => false
  end.

(** [a == b]: numbers compare by value across bool, int and float, lists
    element by element, dictionaries key by key whatever their order. *)
Fixpoint eq (a b : json) {struct a} : bool :=
  match a, b with
  | JNull, JNull => true
  | JStr s, JStr t => String.eqb s t
  | JList l, JList l' =>
      (fix go (l l' : list json) : bool :=
         match l, l' with
         | [], [] => true
         | x :: l, y :: l' => eq x y && go l l'
         | _, _ => false
         end) l l'
  | JDict d, JDict d' =>
      Nat.eqb (List.length d) (List.length d') &&
      (fix go (d : dict) : bool :=
         match d with
         | [] => true
         | (k, v) :: d =>
             match dict_lookup k d' with
             | Some v' => eq v v'
             | None => false
             end && go d
         end) d
  | _, _ =>
      match num_value a, num_value b with
      | Some x, Some y => num_eqb x y
      | _, _ => false
      end
  end.

(** [t in s] on strings: [t] occurs in [s]. *)
Fixpoint substringb (t s : string) : bool :=
  String.prefix t s ||
  match s with
  | EmptyString => false
  | String _ s' => substringb t s'
  end.

(** [x in c] *)
Definition contains (x c : json) : result bool :=
  match c with
  | JDict d =>
      match x with
      | JList _ | JDict _ => Raise TypeError           (* unhashable *)
      | JStr k => Ok (dict_mem k d)
      | _ => Ok false
      end
  | JList l => Ok (existsb (eq x) l)
  | JStr s =>
      match x with
      | JStr t => Ok (substringb t s)
      | _ => Raise TypeError
      end
  | _ => Raise TypeError                                (* not iterable *)
  end.

(** [c[k]] for a string [k] *)
Definition getitem (c : json) (k : string) : result json :=
  match c with
  | JDict d =>
      match dict_lookup k d with
      | Some v => Ok v
      | None => Raise KeyError
      end
  | _ => Raise TypeError
  end.

(** [c.get(k, default)] *)
Definition get (c : json) (k : string) (default : json) : result json :=
  match c with
  | JDict d => Ok (dict_get d k default)
  | _ => Raise AttributeError
  end.

(** [c.items()] *)
Definition items (c : json) : result dict :=
  match c with
  | JDict d => Ok d
  | _ => Raise AttributeError
  end.

(** The characters of a string, each as a string of length one. *)
Fixpoint chars (s : string) : list string :=
  match s with
  | EmptyString => []
  | String c s' => String c EmptyString :: chars s'
  end.

(** [for x in c]: the elements of a list, the keys of a dictionary, the
    characters of a string. *)
Definition iter (c : json) : result (list json) :=
  match c with
  | JList l => Ok l
  | JDict d => Ok (map (fun kv => JStr (fst kv)) d)
  | JStr s => Ok (map JStr (chars s))
  | _ => Raise TypeError
  end.

(** [x < b] and [x > b] for a number [x]: an exception unless [b] is a
    number too. *)
Definition lt (x : num) (b : json) : result bool :=
  match num_value b with
  | Some y => Ok (num_ltb x y)
  | None => Raise TypeError
  end.

Definition gt (x : num) (b : json) : result bool :=
  match num_value b with
  | Some y => Ok (num_ltb y x)
  | None => Raise TypeError
  end.

(** *** Text *)

Definition str_of_Z (n : Z) : string := NilZero.string_of_int (Z.to_int n).
Definition str_of_nat (n : nat) : string := str_of_Z (Z.of_nat n).

End Py.

(** ** Regular expressions

    The patterns of the source are fixed, so each is transcribed as a term
    of [regex] and matched by derivatives.  A character class is a
    predicate on characters. *)

Module Re.

Inductive regex : Type :=
| Void
| Eps
| Class (p : ascii -> bool)
| Cat (r s : regex)
| Alt (r s : regex)
| Star (r : regex).

Fixpoint nullable (r : regex) : bool :=
  match r with
  | Void => false
  | Eps => true
  | Class _ => false
  | Cat r s => nullable r && nullable s
  | Alt r s => nullable r || nullable s
  | Star _ => true
  end.

Fixpoint deriv (c : ascii) (r : regex) : regex :=
  match r with
  | Void => Void
  | Eps => Void
  | Class p => if p c then Eps else Void
  | Cat r s =>
      if nullable r then Alt (Cat (deriv c r) s) (deriv c s)
      else Cat (deriv c r) s
  | Alt r s => Alt (deriv c r) (deriv c s)
  | Star r => Cat (deriv c r) (Star r)
  end.

(** [matches r s]: the whole of [s] is a word of [r]. *)
Fixpoint matches (r : regex) (s : string) : bool :=
  match s with
  | EmptyString => nullable r
  | String c s' => matches (deriv c r) s'
  end.

Definition Lit (c : ascii) : regex := Class (Ascii.eqb c).
Definition Plus (r : regex) : regex := Cat r (Star r).
Definition Opt (r : regex) : regex := Alt r Eps.

Fixpoint Rep (n : nat) (r : regex) : regex :=
  match n with
  | O => Eps
  | S n' => Cat r (Rep n' r)
  end.

Fixpoint Seq (rs : list regex) : regex :=
  match rs with
  | [] => Eps
  | r :: rs' => Cat r (Seq rs')
  end.

Fixpoint Text (s : string) : regex :=
  match s with
  | EmptyString => Eps
  | String c s' => Cat (Lit c) (Text s')
  end.

Definition newline : ascii := ascii_of_nat 10.
Definition any : ascii -> bool := fun _ => true.

(** [re.match("^" + p, s)]: some prefix of [s] is a word of [p]. *)
Definition match_prefix (p : regex) (s : string) : bool :=
  matches (Cat p (Star (Class any))) s.

(** [re.match("^" + p + "$", s)]: [$] holds at the end of [s] and also
    just before a newline that ends [s]. *)
Definition match_anchored (p : regex) (s : string) : bool :=
  matches (Cat p (Opt (Lit newline))) s.

(** The words of a regular expression. *)
Inductive lang : regex -> string -> Prop :=
| lang_eps : lang Eps ""
| lang_class p c : p c = true -> lang (Class p) (String c "")
| lang_cat r s u v : lang r u -> lang s v -> lang (Cat r s) (u ++ v)
| lang_alt_l r s u : lang r u -> lang (Alt r s) u
| lang_alt_r r s u : lang s u -> lang (Alt r s) u
| lang_star_nil r : lang (Star r) ""
| lang_star_cons r u v : lang r u -> lang (Star r) v -> lang (Star r) (u ++ v).

(** *** Character classes *)

Definition between (lo hi c : ascii) : bool :=
  (nat_of_ascii lo <=? nat_of_ascii c)%nat && (nat_of_ascii c <=? nat_of_ascii hi)%nat.

Definition code_in (codes : list nat) (c : ascii) : bool :=
  existsb (Nat.eqb (nat_of_ascii c)) codes.

Definition one_of (cs : string) (c : ascii) : bool :=
  existsb (Ascii.eqb c) (list_ascii_of_string cs).

(** [\d]: a decimal digit. *)
Definition digit (c : ascii) : bool := between "0" "9" c.

(** [\s]: white space; in Latin-1 these are the codes 9 to 13, 28 to 32,
    133 and 160. *)
Definition space (c : ascii) : bool :=
  between (ascii_of_nat 9) (ascii_of_nat 13) c ||
  between (ascii_of_nat 28) (ascii_of_nat 32) c ||
  code_in [133; 160]%nat c.

Definition lowercase (c : ascii) : bool := between "a" "z" c.
Definition uppercase (c : ascii) : bool := between "A" "Z" c.
Definition letter (c : ascii) : bool := lowercase c || uppercase c.

End Re.

(** ** String formats: [_validate_string_format] *)

Module Format.
Import Re.

(** [\d{4}-\d{2}-\d{2}T\d{2}:\d{2}:\d{2}] *)
Definition date_time : regex :=
  Seq [Rep 4 (Class digit); Lit "-"; Rep 2 (Class digit); Lit "-";
       Rep 2 (Class digit); Lit "T"; Rep 2 (Class digit); Lit ":";
       Rep 2 (Class digit); Lit ":"; Rep 2 (Class digit)].

(** [[a-zA-Z0-9._%+-]+@[a-zA-Z0-9.-]+\.[a-zA-Z]{2,}] *)
Definition email : regex :=
  Seq [Plus (Class (fun c => letter c || digit c || one_of "._%+-" c));
       Lit "@";
       Plus (Class (fun c => letter c || digit c || one_of ".-" c));
       Lit ".";
       Rep 2 (Class letter); Star (Class letter)].

(** [[0-9a-f]] under [re.I] *)
Definition hex (c : ascii) : bool :=
  digit c || between "a" "f" c || between "A" "F" c.

(** [[0-9a-f]{8}-[0-9a-f]{4}-[0-9a-f]{4}-[0-9a-f]{4}-[0-9a-f]{12}] *)
Definition uuid : regex :=
  Seq [Rep 8 (Class hex); Lit "-"; Rep 4 (Class hex); Lit "-";
       Rep 4 (Class hex); Lit "-"; Rep 4 (Class hex); Lit "-";
       Rep 12 (Class hex)].

(** [https?://[^\s/$.?#].[^\s]*] *)
Definition url : regex :=
  Seq [Text "http"; Opt (Lit "s"); Text "://";
       Class (fun c => negb (space c || one_of "/$.?#" c));
       Class (fun c => negb (Ascii.eqb c newline));
       Star (Class (fun c => negb (space c)))].

End Format.

Definition _validate_string_format (name value : string) (format_type : json)
  : list string :=
  if Py.eq_str format_type "date-time" then
    if negb (Re.match_prefix Format.date_time value)
    then ["Property " ++ name ++ " should be in ISO date-time format"]
    else []
  else if Py.eq_str format_type "email" then
    if negb (Re.match_anchored Format.email value)
    then ["Property " ++ name ++ " should be a valid email address"]
    else []
  else if Py.eq_str format_type "uuid" then
    if negb (Re.match_anchored Format.uuid value)
    then ["Property " ++ name ++ " should be a valid UUID"]
    else []
  else if Py.eq_str format_type "uri" || Py.eq_str format_type "url" then
    if negb (Re.match_anchored Format.url value)
    then ["Property " ++ name ++ " should be a valid URL"]
    else []
  else [].

(** ** The validator *)

Section Validator.

(** [repr v] stands for Python's [repr] of a float, a list or a dictionary,
    the only values on which the model calls it.  The digits that Python
    prints for a float are not modelled, and no property below depends on
    them. *)
Variable repr : json -> string.

(** [str(v)], as an f-string interpolates [v]. *)
Definition str (v : json) : string :=
  match v with
  | JNull => "None"
  | JBool true => "True"
  | JBool false => "False"
  | JInt n => Py.str_of_Z n
  | JStr s => s
  | JFloat _ | JList _ | JDict _ => repr v
  end.

(** A validator is [_validate_property] with its schema fixed. *)
Definition validator : Type := string -> json -> result (list string).

(** The [value is None] branch. *)
Definition null_check (name : string) (schema : json) : result (list string) :=
  has <- Py.contains (JStr "nullable") schema ;;
  nullable <- (if has : bool then n <- Py.getitem schema "nullable" ;; Ok (Py.truthy n)
               else Ok false) ;;
  if nullable : bool then Ok []
  else Ok ["Property " ++ name ++ " cannot be null"].

(** [if key in schema and violates(schema[key]): errors.append(message)] *)
Definition check_bound (d : Py.dict) (key : string)
    (violates : json -> result bool) (message : json -> string)
  : result (list string) :=
  match Py.dict_lookup key d with
  | Some bound => b <- violates bound ;; Ok (if b : bool then [message bound] else [])
  | None => Ok []
  end.

Definition len_str (s : string) : Py.num := Py.Fin (Z.of_nat (String.length s)) 0.
Definition len_list (l : list json) : Py.num := Py.Fin (Z.of_nat (List.length l)) 0.

(** [schema_type == 'string'] *)
Definition check_string (name : string) (value : json) (d : Py.dict)
  : result (list string) :=
  match value with
  | JStr s =>
      let format_errors :=
        match Py.dict_lookup "format" d with
        | Some format_type => _validate_string_format name s format_type
        | None => []
        end in
      min_errors <- check_bound d "minLength" (Py.lt (len_str s))
        (fun b => "Property " ++ name ++ " is too short (min: " ++ str b ++ ")") ;;
      max_errors <- check_bound d "maxLength" (Py.gt (len_str s))
        (fun b => "Property " ++ name ++ " is too long (max: " ++ str b ++ ")") ;;
      Ok (format_errors ++ min_errors ++ max_errors)%list
  | _ => Ok ["Property " ++ name ++ " should be a string"]
  end.

(** [isinstance(value, int)] *)
Definition is_int (value : json) : bool :=
  match value with
  | JBool _ | JInt _ => true
  | _ => false
  end.

(** [schema_type == 'number' or schema_type == 'integer'];
    [Py.num_value value] is defined exactly when
    [isinstance(value, (int, float))]. *)
Definition check_number (schema_type : json) (name : string) (value : json)
    (d : Py.dict) : result (list string) :=
  match Py.num_value value with
  | Some x =>
      let integer_errors :=
        if Py.eq_str schema_type "integer" && negb (is_int value)
        then ["Property " ++ name ++ " should be an integer"]
        else [] in
      min_errors <- check_bound d "minimum" (Py.lt x)
        (fun b => "Property " ++ name ++ " is too small (min: " ++ str b ++ ")") ;;
      max_errors <- check_bound d "maximum" (Py.gt x)
        (fun b => "Property " ++ name ++ " is too large (max: " ++ str b ++ ")") ;;
      Ok (integer_errors ++ min_errors ++ max_errors)%list
  | None => Ok ["Property " ++ name ++ " should be a number"]
  end.

(** [schema_type == 'boolean'] *)
Definition check_boolean (name : string) (value : json) : result (list string) :=
  match value with
  | JBool _ => Ok []
  | _ => Ok ["Property " ++ name ++ " should be a boolean"]
  end.

(** [enumerate(l)] *)
Definition enumerate {A : Type} (l : list A) : list (nat * A) :=
  combine (seq 0 (List.length l)) l.

(** The loop over the elements of an array. *)
Definition check_items (validate_item : validator) (name : string)
    (l : list json) : result (list string) :=
  item_errors <- mapM (fun '(i, item) =>
                   validate_item (name ++ "[" ++ Py.str_of_nat i ++ "]") item)
                   (enumerate l) ;;
  Ok (List.concat item_errors).

(** The [minItems] and [maxItems] checks. *)
Definition check_items_length (name : string) (l : list json) (d : Py.dict)
  : result (list string) :=
  min_errors <- check_bound d "minItems" (Py.lt (len_list l))
    (fun b => "Property " ++ name ++ " has too few items (min: " ++ str b ++ ")") ;;
  max_errors <- check_bound d "maxItems" (Py.gt (len_list l))
    (fun b => "Property " ++ name ++ " has too many items (max: " ++ str b ++ ")") ;;
  Ok (min_errors ++ max_errors)%list.

(** The loop over the declared properties of an object; [props] pairs each
    declared name with the validator of its sub-schema. *)
Definition check_properties (props : list (string * validator)) (name : string)
    (o : Py.dict) : result (list string) :=
  prop_errors <- mapM (fun '(prop_name, validate_prop) =>
                   match Py.dict_lookup prop_name o with
                   | Some v => validate_prop (name ++ "." ++ prop_name) v
                   | None => Ok []
                   end) props ;;
  Ok (List.concat prop_errors).

(** The loop over [schema['required']] of an object. *)
Definition check_required (name : string) (o : Py.dict) (d : Py.dict)
  : result (list string) :=
  match Py.dict_lookup "required" d with
  | Some required =>
      props <- Py.iter required ;;
      missing <- mapM (fun required_prop =>
                   present <- Py.contains required_prop (JDict o) ;;
                   Ok (if present : bool then []
                       else ["Missing required property " ++ name ++ "."
                               ++ str required_prop])) props ;;
      Ok (List.concat missing)
  | None => Ok []
  end.

(** The [anyOf] loop: the alternatives are tried in order; the result is
    the pair [(any_valid, any_errors)] at the end of the loop. *)
Fixpoint any_of_loop (alternatives : list validator) (name : string)
    (value : json) (any_errors : list string) : result (bool * list string) :=
  match alternatives with
  | [] => Ok (false, any_errors)
  | validate_sub :: rest =>
      sub_errors <- validate_sub name value ;;
      match sub_errors with
      | [] => Ok (true, any_errors)                      (* break *)
      | _ => any_of_loop rest name value (any_errors ++ sub_errors)%list
      end
  end.

Definition check_any_of (alternatives : list validator) (name : string)
    (value : json) : result (list string) :=
  outcome <- any_of_loop alternatives name value [] ;;
  let '(any_valid, any_errors) := outcome in
  Ok (if any_valid : bool then []
      else ("Property " ++ name ++ " does not match any allowed schemas")
             :: map (fun err => "  - " ++ err) any_errors).

(** A schema that is not a dictionary: only the null check can succeed,
    [schema.get] raises. *)
Definition validate_leaf (schema : json) : validator :=
  fun name value =>
    match value with
    | JNull => null_check name schema
    | _ => Raise AttributeError
    end.

Fixpoint _validate_property (schema : json) (name : string) (value : json)
    {struct schema} : result (list string) :=
  match value with
  | JNull => null_check name schema
  | _ =>
    match schema with
    | JDict d =>
        let schema_type := Py.dict_get d "type" JNull in
        errors <-
          (if negb (Py.truthy schema_type) then Ok []
           else if Py.eq_str schema_type "string" then
             check_string name value d
           else if Py.eq_str schema_type "number"
                   || Py.eq_str schema_type "integer" then
             check_number schema_type name value d
           else if Py.eq_str schema_type "boolean" then
             check_boolean name value
           else if Py.eq_str schema_type "array" then
             match value with
             | JList l =>
                 item_errors <-
                   match Py.dict_find "items" _validate_property d with
                   | Some validate_item => check_items validate_item name l
                   | None => Ok []
                   end ;;
                 length_errors <- check_items_length name l d ;;
                 Ok (item_errors ++ length_errors)%list
             | _ => Ok ["Property " ++ name ++ " should be an array"]
             end
           else if Py.eq_str schema_type "object" then
             match value with
             | JDict o =>
                 prop_errors <-
                   match Py.dict_find "properties"
                           (fun properties =>
                              match properties with
                              | JDict ps =>
                                  Ok (map (fun '(prop_name, prop_spec) =>
                                             (prop_name, _validate_property prop_spec)) ps)
                              | _ => Raise AttributeError
                              end) d with
                   | Some props => props <- props ;; check_properties props name o
                   | None => Ok []
                   end ;;
                 required_errors <- check_required name o d ;;
                 Ok (prop_errors ++ required_errors)%list
             | _ => Ok ["Property " ++ name ++ " should be an object"]
             end
           else Ok []) ;;
        any_errors <-
          match Py.dict_find "anyOf"
                  (fun any_of =>
                     match any_of with
                     | JList subs => Ok (map _validate_property subs)
                     | _ => subs <- Py.iter any_of ;; Ok (map validate_leaf subs)
                     end) d with
          | Some alternatives =>
              alternatives <- alternatives ;; check_any_of alternatives name value
          | None => Ok []
          end ;;
        Ok (errors ++ any_errors)%list
    | _ => Raise AttributeError
    end
  end.

Definition validate_response (response schema : json) : result (list string) :=
  required <- Py.get schema "required" (JList []) ;;
  props <- Py.iter required ;;
  missing <- mapM (fun prop =>
               present <- Py.contains prop response ;;
               Ok (if present : bool then []
                   else ["Missing required property: " ++ str prop])) props ;;
  properties <- Py.get schema "properties" (JDict []) ;;
  entries <- Py.items properties ;;
  prop_errors <- mapM (fun '(prop_name, prop_spec) =>
                   present <- Py.contains (JStr prop_name) response ;;
                   if present : bool then
                     v <- Py.getitem response prop_name ;;
                     _validate_property prop_spec prop_name v
                   else Ok []) entries ;;
  Ok (List.concat missing ++ List.concat prop_errors)%list.

(** *** The two halves of [_validate_property] on a dictionary schema

    [type_dispatch] is the block under [if schema_type:] and [any_of_part]
    the block under [if 'anyOf' in schema:], with the sub-schemas reached
    by plain lookups; [_validate_property_eq] below shows that the
    validator is their sequence. *)

(** [self._validate_property(_, _, schema['items'])] *)
Definition items_validator (d : Py.dict) : option validator :=
  option_map _validate_property (Py.dict_lookup "items" d).

(** The validators of [schema['properties'].items()]. *)
Definition property_validators (d : Py.dict)
  : option (result (list (string * validator))) :=
  option_map (fun properties =>
                entries <- Py.items properties ;;
                Ok (map (fun '(prop_name, prop_spec) =>
                           (prop_name, _validate_property prop_spec)) entries))
             (Py.dict_lookup "properties" d).

(** The validators of the alternatives of [schema['anyOf']]. *)
Definition alternatives (d : Py.dict) : option (result (list validator)) :=
  option_map (fun any_of =>
                subs <- Py.iter any_of ;; Ok (map _validate_property subs))
             (Py.dict_lookup "anyOf" d).

Definition check_array (d : Py.dict) (name : string) (value : json)
  : result (list string) :=
  match value with
  | JList l =>
      item_errors <-
        match items_validator d with
        | Some validate_item => check_items validate_item name l
        | None => Ok []
        end ;;
      length_errors <- check_items_length name l d ;;
      Ok (item_errors ++ length_errors)%list
  | _ => Ok ["Property " ++ name ++ " should be an array"]
  end.

Definition check_object (d : Py.dict) (name : string) (value : json)
  : result (list string) :=
  match value with
  | JDict o =>
      prop_errors <-
        match property_validators d with
        | Some props => props <- props ;; check_properties props name o
        | None => Ok []
        end ;;
      required_errors <- check_required name o d ;;
      Ok (prop_errors ++ required_errors)%list
  | _ => Ok ["Property " ++ name ++ " should be an object"]
  end.

Definition type_dispatch (d : Py.dict) (name : string) (value : json)
  : result (list string) :=
  let schema_type := Py.dict_get d "type" JNull in
  if negb (Py.truthy schema_type) then Ok []
  else if Py.eq_str schema_type "string" then check_string name value d
  else if Py.eq_str schema_type "number" || Py.eq_str schema_type "integer" then
    check_number schema_type name value d
  else if Py.eq_str schema_type "boolean" then check_boolean name value
  else if Py.eq_str schema_type "array" then check_array d name value
  else if Py.eq_str schema_type "object" then check_object d name value
  else Ok [].

Definition any_of_part (d : Py.dict) (name : string) (value : json)
  : result (list string) :=
  match alternatives d with
  | Some alternatives =>
      alternatives <- alternatives ;; check_any_of alternatives name value
  | None => Ok []
  end.

End Validator.

(** ** The path matcher *)

Module Path.

(** [s.rstrip('/')] *)
Fixpoint rstrip_slash (s : string) : string :=
  match s with
  | EmptyString => EmptyString
  | String c s' =>
      match rstrip_slash s' with
      | EmptyString => if Ascii.eqb c "/" then EmptyString else String c EmptyString
      | r => String c r
      end
  end.

(** [s.startswith('/')] *)
Definition starts_with_slash (s : string) : bool :=
  match s with
  | String c _ => Ascii.eqb c "/"
  | EmptyString => false
  end.

(** [c.lower()] on one character of Latin-1: the letters A to Z, and the
    letters at codes 192 to 222 except the sign at 215. *)
Definition lower_char (c : ascii) : ascii :=
  let n := nat_of_ascii c in
  if Re.uppercase c || ((192 <=? n)%nat && (n <=? 222)%nat && negb (n =? 215)%nat)
  then ascii_of_nat (n + 32)
  else c.

(** [s.lower()] *)
Fixpoint lower (s : string) : string :=
  match s with
  | EmptyString => EmptyString
  | String c s' => String (lower_char c) (lower s')
  end.

(** The normalisation of the concrete path. *)
Definition normalize (path : string) : string :=
  let path := rstrip_slash path in
  if starts_with_slash path then path else "/" ++ path.

(** *** Templates

    [re.sub(r'\{([^}]+)\}', r'([^/]+)', schema_path)] cuts the template
    into its characters and its placeholders: a placeholder is an opening
    brace, at least one character other than a closing brace, and a
    closing brace. *)

Inductive token : Type :=
| Chr (c : ascii)
| Param.

(** The position of the first closing brace of [s]. *)
Fixpoint closing_brace (s : string) : option nat :=
  match s with
  | EmptyString => None
  | String c s' =>
      if Ascii.eqb c "}" then Some O
      else option_map S (closing_brace s')
  end.

(** [scan s skip]: the tokens of [s] after its first [skip] characters,
    which belong to a placeholder already recognised. *)
Fixpoint scan (s : string) (skip : nat) : list token :=
  match s with
  | EmptyString => []
  | String c s' =>
      match skip with
      | S k => scan s' k
      | O =>
          if Ascii.eqb c "{" then
            match closing_brace s' with
            | Some (S j) => Param :: scan s' (S (S j))
            | _ => Chr c :: scan s' O
            end
          else Chr c :: scan s' O
      end
  end.

Definition tokens (schema_path : string) : list token := scan schema_path O.

(** The text of the pattern after the substitution. *)
Fixpoint pattern_text (ts : list token) : string :=
  match ts with
  | [] => ""
  | Chr c :: ts' => String c (pattern_text ts')
  | Param :: ts' => "([^/]+)" ++ pattern_text ts'
  end.

(** The characters that the pattern language gives a meaning to.  A brace
    left by the substitution stands for itself: it is followed by a closing
    brace or by no closing brace at all, and so opens no repetition. *)
Definition special (c : ascii) : bool := Re.one_of ".^$*+?[]|()\" c.

(** [[^/]] *)
Definition not_slash (c : ascii) : bool := negb (Ascii.eqb c "/").

(** The pattern of a template whose characters all stand for themselves. *)
Fixpoint compile (ts : list token) : option Re.regex :=
  match ts with
  | [] => Some Re.Eps
  | Chr c :: ts' =>
      if special c then None
      else option_map (Re.Cat (Re.Lit c)) (compile ts')
  | Param :: ts' =>
      option_map (Re.Cat (Re.Plus (Re.Class not_slash))) (compile ts')
  end.

(** *** Templates that are not plain

    The template is not escaped before it is compiled, so a character that
    the pattern language gives a meaning to keeps it.  Two such characters
    are read here: a dot stands for any character but a newline, and an
    opening parenthesis, in a pattern whose only other special characters
    are dots, opens a group that nothing closes, which [re] refuses.  The
    patterns with another special character are left to [re_match]. *)

(** [.] *)
Definition not_newline (c : ascii) : bool := negb (Ascii.eqb c Re.newline).

Inductive reading : Type :=
| Pattern (p : Re.regex)                  (* the pattern that [re] compiles *)
| Invalid                                 (* [re.error] *)
| Other.                                  (* left to [re_match] *)

Definition extend (r : Re.regex) (rest : reading) : reading :=
  match rest with
  | Pattern p => Pattern (Re.Cat r p)
  | Invalid => Invalid
  | Other => Other
  end.

Fixpoint translate (ts : list token) : reading :=
  match ts with
  | [] => Pattern Re.Eps
  | Param :: ts' => extend (Re.Plus (Re.Class not_slash)) (translate ts')
  | Chr c :: ts' =>
      if Ascii.eqb c "." then extend (Re.Class not_newline) (translate ts')
      else if Ascii.eqb c "(" then
        match translate ts' with
        | Other => Other
        | _ => Invalid
        end
      else if special c then Other
      else extend (Re.Lit c) (translate ts')
  end.

(** A template is readable when its pattern is one that [re] compiles and
    that is read here. *)
Definition readable (schema_path : string) : bool :=
  match translate (tokens schema_path) with
  | Pattern _ => true
  | _ => false
  end.

(** *** What a template stands for

    A path is an instance of a template when it is the template with each
    placeholder replaced by a segment that is not empty and has no slash. *)

Fixpoint slash_free (s : string) : bool :=
  match s with
  | EmptyString => true
  | String c s' => negb (Ascii.eqb c "/") && slash_free s'
  end.

Inductive instance : list token -> string -> Prop :=
| instance_nil : instance [] ""
| instance_chr c ts s :
    instance ts s -> instance (Chr c :: ts) (String c s)
| instance_param seg ts s :
    seg <> "" -> slash_free seg = true -> instance ts s ->
    instance (Param :: ts) (seg ++ s).

(** [slashes n] is [n] slashes; [ends_with_slash s] tells whether the last
    character of [s] is a slash. *)
Fixpoint slashes (n : nat) : string :=
  match n with
  | O => ""
  | S n' => String "/" (slashes n')
  end.

Fixpoint ends_with_slash (s : string) : bool :=
  match s with
  | EmptyString => false
  | String c EmptyString => Ascii.eqb c "/"
  | String _ s' => ends_with_slash s'
  end.

(** A template is plain when none of its characters outside the
    placeholders is special. *)
Definition plain (schema_path : string) : bool :=
  match compile (tokens schema_path) with
  | Some _ => true
  | None => false
  end.

(** The anchored pattern of a template matches a path that is an instance
    of the template, and a path that is an instance followed by one
    newline, since [$] also holds before a final newline. *)
Definition template_matches (schema_path path : string) : Prop :=
  instance (tokens schema_path) path \/
  exists path', path = path' ++ String Re.newline "" /\
                instance (tokens schema_path) path'.

(** *** What a readable template stands for

    The same as for a plain template, with a dot outside the placeholders
    standing for any character but a newline. *)



End Path.

Section PathMatcher.

(** [re_match pattern s] stands for Python's [re.match] on the patterns
    that the model does not interpret: those of templates that contain,
    outside their placeholders, a special character other than a dot or an
    opening parenthesis that nothing can close.  It may raise. *)
Variable re_match : string -> string -> result bool.

Definition _match_path_pattern (actual_path schema_path : string) : result bool :=
  let ts := Path.tokens schema_path in
  match Path.translate ts with
  | Path.Pattern pattern => Ok (Re.match_anchored pattern actual_path)
  | Path.Invalid => Raise ReError
  | Path.Other => re_match ("^" ++ Path.pattern_text ts ++ "$") actual_path
  end.

(** The loop over the status codes in [_extract_response_schema]. *)
Fixpoint extract_loop (codes : list string) (responses : json) : result json :=
  match codes with
  | [] => Ok JNull
  | status_code :: rest =>
      has_code <- Py.contains (JStr status_code) responses ;;
      if has_code : bool then
        response_spec <- Py.getitem responses status_code ;;
        has_content <- Py.contains (JStr "content") response_spec ;;
        if has_content : bool then
          content <- Py.getitem response_spec "content" ;;
          has_json <- Py.contains (JStr "application/json") content ;;
          if has_json : bool then
            media <- Py.getitem content "application/json" ;;
            Py.get media "schema" JNull
          else extract_loop rest responses
        else extract_loop rest responses
      else extract_loop rest responses
  end.

Definition _extract_response_schema (method_spec : json) : result json :=
  responses <- Py.get method_spec "responses" (JDict []) ;;
  extract_loop ["200"; "201"] responses.

(** The loop over [paths.items()] in [get_schema_for_endpoint]. *)
Fixpoint scan_paths (entries : Py.dict) (method path : string) : result json :=
  match entries with
  | [] => Ok JNull
  | (schema_path, path_spec) :: rest =>
      matched <- _match_path_pattern path schema_path ;;
      if matched : bool then
        has_method <- Py.contains (JStr (Path.lower method)) path_spec ;;
        if has_method : bool then
          method_spec <- Py.getitem path_spec (Path.lower method) ;;
          _extract_response_schema method_spec
        else scan_paths rest method path
      else scan_paths rest method path
  end.

(** The exact match: the operation registered for the path itself, when
    there is one for the method. *)
Definition exact_match (self_schema : json) (method path : string)
  : result (option json) :=
  paths <- Py.get self_schema "paths" (JDict []) ;;
  has_path <- Py.contains (JStr path) paths ;;
  if has_path : bool then
    paths <- Py.getitem self_schema "paths" ;;
    endpoint_spec <- Py.getitem paths path ;;
    has_method <- Py.contains (JStr (Path.lower method)) endpoint_spec ;;
    if has_method : bool then
      method_spec <- Py.getitem endpoint_spec (Path.lower method) ;;
      Ok (Some method_spec)
    else Ok None
  else Ok None.

(** [self_schema] is [self.schema]: [JNull] when no schema was loaded. *)
Definition get_schema_for_endpoint (self_schema : json) (method path : string)
  : result json :=
  if negb (Py.truthy self_schema) then Ok JNull
  else
    let path := Path.normalize path in
    exact <- exact_match self_schema method path ;;
    match exact with
    | Some method_spec => _extract_response_schema method_spec
    | None =>
        paths <- Py.get self_schema "paths" (JDict []) ;;
        entries <- Py.items paths ;;
        scan_paths entries method path
    end.

End PathMatcher.

(** ** URL builders: [lib/api_client.py] and [config/settings.py] *)

(** [s.lstrip('/')] *)
Fixpoint lstrip_slash (s : string) : string :=
  match s with
  | EmptyString => EmptyString
  | String c s' => if Ascii.eqb c "/" then lstrip_slash s' else s
  end.

(** [APIClient._build_url]; [base_url] is [self.base_url]. *)
Definition _build_url (base_url endpoint : string) : string :=
  Path.rstrip_slash base_url ++ "/" ++ lstrip_slash endpoint.

(** [Config.get_api_url]; [API_BASE_URL] is the setting of the module. *)
Definition get_api_url (API_BASE_URL endpoint : string) : string :=
  let base := Path.rstrip_slash API_BASE_URL in
  let endpoint := lstrip_slash endpoint in
  if negb (String.eqb endpoint "") then base ++ "/" ++ endpoint else base.

(** The summary of a union that no alternative accepts, and the prefix of
    the errors that follow it. *)
Definition no_match (name : string) : string :=
  "Property " ++ name ++ " does not match any allowed schemas".

Definition indent (err : string) : string := "  - " ++ err.

(** ** The validator on the object store

    The functions above give the result of a validation.  To say what a
    validation does to the objects it is given, the same code is embedded
    once more with the objects in a store: a Python variable holds a
    reference, the lists [errors] and [any_errors] are objects that
    [append] and [extend] update in place, and a sub-schema or an element
    is passed to the recursive call by reference.

    An object is a JSON tree; a reference names a root of the store and a
    path into it, so that a write through any reference into a tree is
    seen through all of them.  The arguments are read when the call is
    entered; the tests on them reuse the functions above. *)

Module Store.

Inductive step : Type :=
| Key (k : string)                         (* d[k] *)
| Entry (i : nat)                          (* the value of the i-th item of d *)
| Idx (i : nat).                           (* l[i] *)

Record ref : Type := Ref { root : nat; path : list step }.

Definition store : Type := list json.

Definition sub (v : json) (s : step) : option json :=
  match s, v with
  | Key k, JDict d => Py.dict_lookup k d
  | Entry i, JDict d => option_map snd (nth_error d i)
  | Idx i, JList l => nth_error l i
  | _, _ => None
  end.

Fixpoint follow (v : json) (p : list step) : option json :=
  match p with
  | [] => Some v
  | s :: p' =>
      match sub v s with
      | Some v' => follow v' p'
      | None => None
      end
  end.

Definition deref (st : store) (r : ref) : option json :=
  match nth_error st (root r) with
  | Some v => follow v (path r)
  | None => None
  end.

Definition child (r : ref) (s : step) : ref :=
  Ref (root r) (path r ++ [s])%list.

(** [update i f l] applies [f] to the element of [l] at position [i]. *)
Fixpoint update {A : Type} (i : nat) (f : A -> A) (l : list A) : list A :=
  match l, i with
  | [], _ => []
  | x :: l', O => f x :: l'
  | x :: l', S i' => x :: update i' f l'
  end.

Fixpoint update_key (k : string) (f : json -> json) (d : Py.dict) : Py.dict :=
  match d with
  | [] => []
  | (k', v) :: d' =>
      if String.eqb k' k then (k', f v) :: d' else (k', v) :: update_key k f d'
  end.

(** [replace v p new] is [v] with [new] in place of its part at [p]. *)
Fixpoint replace (v : json) (p : list step) (new : json) : json :=
  match p with
  | [] => new
  | s :: p' =>
      match s, v with
      | Key k, JDict d => JDict (update_key k (fun v' => replace v' p' new) d)
      | Entry i, JDict d =>
          JDict (update i (fun kv => (fst kv, replace (snd kv) p' new)) d)
      | Idx i, JList l => JList (update i (fun v' => replace v' p' new) l)
      | _, _ => v
      end
  end.

Definition write (st : store) (r : ref) (new : json) : store :=
  update (root r) (fun v => replace v (path r) new) st.

(** *** Computations on the store *)

Definition M (A : Type) : Type := store -> result A * store.

Definition ret {A : Type} (a : A) : M A := fun st => (Ok a, st).

Definition raise {A : Type} (e : exn) : M A := fun st => (Raise e, st).

Definition lift {A : Type} (r : result A) : M A := fun st => (r, st).

Definition mbind {A B : Type} (m : M A) (k : A -> M B) : M B :=
  fun st =>
    match m st with
    | (Ok a, st') => k a st'
    | (Raise e, st') => (Raise e, st')
    end.

(** The value behind a reference. *)
Definition read (r : ref) : M json :=
  fun st =>
    match deref st r with
    | Some v => (Ok v, st)
    | None => (Raise KeyError, st)
    end.

(** A new object. *)
Definition alloc (v : json) : M ref :=
  fun st => (Ok (Ref (List.length st) []), (st ++ [v])%list).

(** [target.extend(source)] *)
Definition extend (target source : ref) : M unit :=
  fun st =>
    match deref st target, deref st source with
    | Some (JList l), Some (JList l') =>
        (Ok tt, write st target (JList (l ++ l')))
    | _, _ => (Raise AttributeError, st)
    end.

(** [target.append(x)] *)
Definition append (target : ref) (x : json) : M unit :=
  fun st =>
    match deref st target with
    | Some (JList l) => (Ok tt, write st target (JList (l ++ [x])))
    | _ => (Raise AttributeError, st)
    end.

End Store.

Notation "x <~ m ;; k" := (Store.mbind m (fun x => k))
  (at level 61, m at next level, right associativity).
Notation "m ;;; k" := (Store.mbind m (fun _ => k))
  (at level 61, right associativity).

Section StoreValidator.
Import Store.

Variable repr : json -> string.

(** [errors.append(message)] for each of the messages of a test. *)
Fixpoint append_all (errors : ref) (messages : list string) : M unit :=
  match messages with
  | [] => ret tt
  | message :: rest =>
      append errors (JStr message) ;;; append_all errors rest
  end.

(** [for x in l: body(x)] *)
Fixpoint for_each {A : Type} (l : list A) (body : A -> M unit) : M unit :=
  match l with
  | [] => ret tt
  | x :: l' => body x ;;; for_each l' body
  end.

(** New objects for the values of [subs]. *)
Fixpoint alloc_all (subs : list json) : M (list ref) :=
  match subs with
  | [] => ret []
  | sub :: rest => r <~ alloc sub ;; rs <~ alloc_all rest ;; ret (r :: rs)
  end.

(** The objects that [for sub_schema in schema['anyOf']] goes through:
    the elements of a list; the keys of a dictionary and the characters of
    a string are string objects of their own. *)
Definition alternatives_at (any_of_ref : ref) (any_of : json) : M (list ref) :=
  match any_of with
  | JList subs =>
      ret (map (fun ix => child any_of_ref (Idx (fst ix))) (enumerate subs))
  | _ => subs <~ lift (Py.iter any_of) ;; alloc_all subs
  end.

(** The [anyOf] loop; its result is [any_valid]. *)
Fixpoint any_of_loop_at (validate_sub : ref -> M ref) (subs : list ref)
    (any_errors : ref) : M bool :=
  match subs with
  | [] => ret false
  | sub_schema :: rest =>
      sub_errors <~ validate_sub sub_schema ;;
      found <~ read sub_errors ;;
      if negb (Py.truthy found) then ret true                   (* break *)
      else extend any_errors sub_errors ;;;
           any_of_loop_at validate_sub rest any_errors
  end.

(** The blocks of [_validate_property]; [recur] is the recursive call and
    [errors] the list of the current call. *)
Section Blocks.

Variable recur : string -> ref -> ref -> M ref.
Variables (name : string) (value schema errors : ref).

(** [schema_type == 'array'] *)
Definition array_at (v : json) (d : Py.dict) : M unit :=
  match v with
  | JList l =>
      (if Py.dict_mem "items" d then
         for_each (enumerate l)
           (fun ix =>
              item_errors <~
                recur (name ++ "[" ++ Py.str_of_nat (fst ix) ++ "]")
                      (child value (Idx (fst ix)))
                      (child schema (Key "items")) ;;
              extend errors item_errors)
       else ret tt) ;;;
      messages <~ lift (check_items_length repr name l d) ;;
      append_all errors messages
  | _ => append errors (JStr ("Property " ++ name ++ " should be an array"))
  end.

(** [schema_type == 'object'] *)
Definition object_at (v : json) (d : Py.dict) : M unit :=
  match v with
  | JDict o =>
      match Py.dict_lookup "properties" d with
      | Some properties =>
          entries <~ lift (Py.items properties) ;;
          for_each (enumerate entries)
            (fun ientry =>
               let prop_name := fst (snd ientry) in
               if Py.dict_mem prop_name o then
                 prop_errors <~
                   recur (name ++ "." ++ prop_name)
                         (child value (Key prop_name))
                         (child (child schema (Key "properties"))
                                (Entry (fst ientry))) ;;
                 extend errors prop_errors
               else ret tt)
      | None => ret tt
      end ;;;
      messages <~ lift (check_required repr name o d) ;;
      append_all errors messages
  | _ => append errors (JStr ("Property " ++ name ++ " should be an object"))
  end.

(** The block under [if schema_type:]. *)
Definition dispatch_at (v : json) (d : Py.dict) : M unit :=
  let schema_type := Py.dict_get d "type" JNull in
  if negb (Py.truthy schema_type) then ret tt
  else if Py.eq_str schema_type "string" then
    messages <~ lift (check_string repr name v d) ;;
    append_all errors messages
  else if Py.eq_str schema_type "number" || Py.eq_str schema_type "integer" then
    messages <~ lift (check_number repr schema_type name v d) ;;
    append_all errors messages
  else if Py.eq_str schema_type "boolean" then
    messages <~ lift (check_boolean name v) ;;
    append_all errors messages
  else if Py.eq_str schema_type "array" then array_at v d
  else if Py.eq_str schema_type "object" then object_at v d
  else ret tt.

(** The block under [if 'anyOf' in schema:]. *)
Definition any_of_at (d : Py.dict) : M unit :=
  match Py.dict_lookup "anyOf" d with
  | Some any_of =>
      any_errors <~ alloc (JList []) ;;
      subs <~ alternatives_at (child schema (Key "anyOf")) any_of ;;
      any_valid <~ any_of_loop_at (recur name value) subs any_errors ;;
      if any_valid : bool then ret tt
      else
        append errors (JStr (no_match name)) ;;;
        collected <~ read any_errors ;;
        errs <~ lift (Py.iter collected) ;;
        prefixed <~
          alloc (JList (map (fun err => JStr (indent (str repr err))) errs)) ;;
        extend errors prefixed
  | None => ret tt
  end.

End Blocks.

(** [fuel] bounds the depth of the recursion. *)
Fixpoint validate_at (fuel : nat) (name : string) (value schema : ref)
    {struct fuel} : M ref :=
  match fuel with
  | O => raise RecursionError
  | S fuel' =>
    v <~ read value ;;
    s <~ read schema ;;
    errors <~ alloc (JList []) ;;
    match v with
    | JNull =>
        messages <~ lift (null_check name s) ;;
        alloc (JList (map JStr messages))
    | _ =>
      match s with
      | JDict d =>
          dispatch_at (validate_at fuel') name value schema errors v d ;;;
          any_of_at (validate_at fuel') name value schema errors d ;;;
          ret errors
      | _ => raise AttributeError
      end
    end
  end.

(** The body of [validate_response]: the statements between
    [errors = []] and [return errors].  The defaults [[]] and [{}] of the
    two [get] calls are objects of their own, made once the attribute
    [get] has been found on the schema. *)
Definition response_checks (fuel : nat) (response schema errors : ref)
    (resp s : json) : M unit :=
  required <~ lift (Py.get s "required" (JList [])) ;;
  default_required <~ alloc (JList []) ;;
  props <~ lift (Py.iter required) ;;
  missing <~ lift (mapM (fun prop =>
                     present <- Py.contains prop resp ;;
                     Ok (if present : bool then []
                         else ["Missing required property: " ++ str repr prop]))
                   props) ;;
  append_all errors (List.concat missing) ;;;
  properties <~ lift (Py.get s "properties" (JDict [])) ;;
  default_properties <~ alloc (JDict []) ;;
  entries <~ lift (Py.items properties) ;;
  for_each (enumerate entries)
    (fun ientry =>
       let prop_name := fst (snd ientry) in
       present <~ lift (Py.contains (JStr prop_name) resp) ;;
       if present : bool then
         v <~ lift (Py.getitem resp prop_name) ;;
         prop_errors <~
           validate_at fuel prop_name (child response (Key prop_name))
             (child (child schema (Key "properties")) (Entry (fst ientry))) ;;
         extend errors prop_errors
       else ret tt).

(** [validate_response] on the store. *)
Definition validate_response_at (fuel : nat) (response schema : ref) : M ref :=
  resp <~ read response ;;
  s <~ read schema ;;
  errors <~ alloc (JList []) ;;
  response_checks fuel response schema errors resp s ;;;
  ret errors.

End StoreValidator.

(** *** Vocabulary of the store properties *)

(** The nesting depth of a value bounds the recursion on a schema. *)
Fixpoint depth (v : json) : nat :=
  match v with
  | JList l => S (fold_right (fun x n => Nat.max (depth x) n) O l)
  | JDict d => S (fold_right (fun kv n => Nat.max (depth (snd kv)) n) O d)
  | _ => O
  end.

(** [stable e st st']: the store has not shrunk and its objects other
    than [e] are what they were. *)
Definition stable (e : nat) (st st' : Store.store) : Prop :=
  (List.length st <= List.length st')%nat /\
  forall i, i <> e -> (i < List.length st)%nat -> nth_error st' i = nth_error st i.

(** [strings_at st l errs]: the object [l] is the list of the strings
    [errs]. *)
Definition strings_at (st : Store.store) (l : nat) (errs : list string) : Prop :=
  nth_error st l = Some (JList (map JStr errs)).

(** A block of statements appends to the list [e], and to nothing else
    that exists, the errors that [pure] computes. *)
Definition appends (base : Store.store) (e : nat) (m : Store.M unit)
    (pure : result (list string)) : Prop :=
  forall st acc,
    stable e base st -> strings_at st e acc ->
    exists r st',
      m st = (r, st') /\ stable e st st' /\
      match pure with
      | Ok errs => r = Ok tt /\ strings_at st' e (acc ++ errs)
      | Raise x => r = Raise x
      end.

(** What a call returns, next to the result of the validator above: a
    new list of the same errors, or the same exception. *)
Definition returned (st st' : Store.store) (r : result Store.ref)
    (pure : result (list string)) : Prop :=
  match pure with
  | Ok errs =>
      exists l, r = Ok (Store.Ref l []) /\
                (List.length st <= l)%nat /\ strings_at st' l errs
  | Raise x => r = Raise x
  end.

(** What a caller sees of a call: the list behind the reference that is
    returned, or the exception. *)
Definition observed (st : Store.store) (r : result Store.ref)
  : option (result json) :=
  match r with
  | Ok l => option_map Ok (Store.deref st l)
  | Raise x => Some (Raise x)
  end.

(** The same, for the validator above. *)
Definition expected (pure : result (list string)) : option (result json) :=
  match pure with
  | Ok errs => Some (Ok (JList (map JStr errs)))
  | Raise x => Some (Raise x)
  end.

Section StoreVocabulary.

Variable repr : json -> string.

(** A call with enough fuel creates objects, leaves those that exist as
    they are, and returns what the validator above computes from the
    values of its arguments. *)
Definition refines (fuel : nat) : Prop :=
  forall name value schema st s v,
    Store.deref st schema = Some s ->
    Store.deref st value = Some v ->
    (depth s < fuel)%nat ->
    exists r ext,
      validate_at repr fuel name value schema st = (r, (st ++ ext)%list) /\
      returned st (st ++ ext)%list r (_validate_property repr s name v).

End StoreVocabulary.


(** ** The supported schema subset

    A fragment is a dictionary in which every keyword that is present has
    the shape that the data model gives it: a bound is a number, [items]
    is a fragment, [properties] maps names to fragments, [required] is a
    list of names and [anyOf] a list of fragments.  Other keys, [type] and
    [nullable] among them, are free. *)

Definition is_number (v : json) : bool :=
  match v with
  | JInt _ | JFloat _ => true
  | _ => false
  end.

Definition is_string (v : json) : bool :=
  match v with
  | JStr _ => true
  | _ => false
  end.

Definition is_bound (k : string) : bool :=
  existsb (String.eqb k)
    ["minLength"; "maxLength"; "minimum"; "maximum"; "minItems"; "maxItems"].

Definition entry_ok (wf : json -> bool) (k : string) (v : json) : bool :=
  if String.eqb k "items" then wf v
  else if String.eqb k "properties" then
    match v with
    | JDict ps => forallb (fun kv => wf (snd kv)) ps
    | _ => false
    end
  else if String.eqb k "anyOf" then
    match v with
    | JList subs => forallb wf subs
    | _ => false
    end
  else if String.eqb k "required" then
    match v with
    | JList names => forallb is_string names
    | _ => false
    end
  else if is_bound k then is_number v
  else true.

Fixpoint wf_fragment (schema : json) : bool :=
  match schema with
  | JDict d => forallb (fun kv => entry_ok wf_fragment (fst kv) (snd kv)) d
  | _ => false
  end.

(** ** Induction on JSON values *)

Section JsonInduction.

Variable P : json -> Prop.
Hypothesis P_null : P JNull.
Hypothesis P_bool : forall b, P (JBool b).
Hypothesis P_int : forall n, P (JInt n).
Hypothesis P_float : forall f, P (JFloat f).
Hypothesis P_str : forall s, P (JStr s).
Hypothesis P_list : forall l, Forall P l -> P (JList l).
Hypothesis P_dict : forall d, Forall (fun kv => P (snd kv)) d -> P (JDict d).

Fixpoint json_ind (v : json) : P v :=
  match v with
  | JNull => P_null
  | JBool b => P_bool b
  | JInt n => P_int n
  | JFloat f => P_float f
  | JStr s => P_str s
  | JList l =>
      P_list ((fix all (l : list json) : Forall P l :=
                 match l with
                 | [] => Forall_nil P
                 | x :: l' => Forall_cons x (json_ind x) (all l')
                 end) l)
  | JDict d =>
      P_dict ((fix all (d : Py.dict) : Forall (fun kv => P (snd kv)) d :=
                 match d with
                 | [] => Forall_nil _
                 | kv :: d' => Forall_cons kv (json_ind (snd kv)) (all d')
                 end) d)
  end.

End JsonInduction.

(** ** Vocabulary of the properties *)

(** An alternative of a union fails on [v] with the errors [es]. *)
Definition failed_with (name : string) (v : json)
    (sub : validator) (es : list string) : Prop :=
  sub name v = Ok es /\ es <> [].

(** The names of [schema['required']] and the entries of
    [schema['properties']], for a schema of the supported subset. *)
Definition required_names (schema : json) : list string :=
  match schema with
  | JDict d =>
      match Py.dict_lookup "required" d with
      | Some (JList names) =>
          flat_map (fun n => match n with JStr k => [k] | _ => [] end) names
      | _ => []
      end
  | _ => []
  end.

Definition declared_properties (schema : json) : Py.dict :=
  match schema with
  | JDict d =>
      match Py.dict_lookup "properties" d with
      | Some (JDict ps) => ps
      | _ => []
      end
  | _ => []
  end.

(** The registered templates of a document: each maps to a dictionary of
    operations. *)
Definition is_dict (v : json) : bool :=
  match v with
  | JDict _ => true
  | _ => false
  end.












(** A computation returns: it ends with a value, not with an exception. *)
Definition returns {A : Type} (m : result A) : Prop := exists a, m = Ok a.

(** ** Vocabulary of the string formats *)

(** [every p s]: all the characters of [s] are in the class [p]. *)
Fixpoint every (p : ascii -> bool) (s : string) : bool :=
  match s with
  | EmptyString => true
  | String c s' => p c && every p s'
  end.

(** [group p n s]: [s] is [n] characters of the class [p]. *)
Definition group (p : ascii -> bool) (n : nat) (s : string) : bool :=
  (String.length s =? n)%nat && every p s.

(** The newline as a string, and the strings that end with it. *)
Definition line_end : string := String Re.newline "".

Fixpoint ends_with_newline (s : string) : bool :=
  match s with
  | EmptyString => false
  | String c EmptyString => Ascii.eqb c Re.newline
  | String _ s' => ends_with_newline s'
  end.

(** [up_to_newline s w]: [s] is [w], or [w] followed by one newline. *)
Definition up_to_newline (s w : string) : Prop :=
  s = w \/ s = w ++ line_end.

(** The classes of the email pattern, before and after the at sign, and
    those of the URL pattern after the scheme. *)
Definition local_char (c : ascii) : bool :=
  Re.letter c || Re.digit c || Re.one_of "._%+-" c.

Definition domain_char (c : ascii) : bool :=
  Re.letter c || Re.digit c || Re.one_of ".-" c.

Definition host_start (c : ascii) : bool :=
  negb (Re.space c || Re.one_of "/$.?#" c).

Definition not_space (c : ascii) : bool := negb (Re.space c).

(** ** Vocabulary of the type dispatch *)

(** The names that the dispatch on [schema['type']] knows. *)
Definition type_names : list string :=
  ["string"; "number"; "integer"; "boolean"; "array"; "object"].

(** [has_type t v]: the [isinstance] test of the branch of [t]. *)
Definition has_type (t : string) (v : json) : bool :=
  if String.eqb t "string" then is_string v
  else if String.eqb t "number" || String.eqb t "integer" then
    match Py.num_value v with Some _ => true | None => false end
  else if String.eqb t "boolean" then
    match v with JBool _ => true | _ => false end
  else if String.eqb t "array" then
    match v with JList _ => true | _ => false end
  else if String.eqb t "object" then is_dict v
  else true.

(** The words of the type error of the branch of [t]. *)
Definition type_words (t : string) : string :=
  if String.eqb t "string" then "a string"
  else if String.eqb t "number" || String.eqb t "integer" then "a number"
  else if String.eqb t "boolean" then "a boolean"
  else if String.eqb t "array" then "an array"
  else "an object".

(** The keys of a fragment that the validator looks up. *)
Definition keywords : list string :=
  ["type"; "nullable"; "format"; "minLength"; "maxLength"; "minimum";
   "maximum"; "items"; "minItems"; "maxItems"; "properties"; "required";
   "anyOf"].

(** The error of an integer bound that is present and violated. *)
Definition bound_errors (bound : option Z) (violated : Z -> bool)
    (message : Z -> string) : list string :=
  match bound with
  | Some b => if violated b then [message b] else []
  | None => []
  end.

(** [within lo hi x]: [x] respects the bounds that are present. *)
Definition within (lo hi : option Z) (x : Z) : Prop :=
  (forall b, lo = Some b -> b <= x) /\ (forall b, hi = Some b -> x <= b).

(** [mentions name e]: the text [name] occurs in the message [e]. *)
Definition mentions (name e : string) : Prop :=
  exists before after, e = before ++ name ++ after.

(** The values that are neither a string nor a container. *)
Definition scalar (v : json) : bool :=
  match v with
  | JNull | JBool _ | JInt _ | JFloat _ => true
  | _ => false
  end.

(** ** Vocabulary of the path matcher *)

(** The number of slashes of a path, and of a template outside its
    placeholders. *)
Fixpoint count_slashes (s : string) : nat :=
  match s with
  | EmptyString => O
  | String c s' => ((if Ascii.eqb c "/" then 1 else 0) + count_slashes s')%nat
  end.

Fixpoint template_slashes (ts : list Path.token) : nat :=
  match ts with
  | [] => O
  | Path.Chr c :: ts' =>
      ((if Ascii.eqb c "/" then 1 else 0) + template_slashes ts')%nat
  | Path.Param :: ts' => template_slashes ts'
  end.

(** The characters other than the opening brace, and other than the
    closing one. *)
Definition not_brace (c : ascii) : bool := negb (Ascii.eqb c "{").


(** ** Vocabulary of the verdicts *)

(** Two results are alike when they raise the same exception or hold as
    many errors. *)
Definition alike (r r' : result (list string)) : Prop :=
  match r, r' with
  | Ok es, Ok es' => List.length es = List.length es'
  | Raise e, Raise e' => e = e'
  | _, _ => False
  end.

(** [named_by schema k]: the schema requires or declares the property
    [k]. *)
Definition named_by (schema : json) (k : string) : Prop :=
  In k (required_names schema) \/
  Py.dict_mem k (declared_properties schema) = true.

(** ** Instances for the closed examples

    The examples print no float, list or dictionary and register only
    templates whose pattern the model reads, so what stands for [repr] and
    for [re_match] in them is never called. *)

Definition example_repr (v : json) : string := "".

Definition example_re_match (pattern s : string) : result bool := Raise ReError.


(** The schemas and documents of the examples. *)
Definition typed (t : string) : json := JDict [("type", JStr t)].

Definition string_or_integer : json :=
  JDict [("anyOf", JList [typed "string"; typed "integer"])].

Definition operation_with (schema : json) : json :=
  JDict [("responses",
          JDict [("200",
                  JDict [("content",
                          JDict [("application/json",
                                  JDict [("schema", schema)])])])])].


Definition agents_document : json :=
  JDict [("paths",
          JDict [("/api/agents/search",
                  JDict [("post", operation_with (typed "array"))]);
                 ("/api/agents/{id}",
                  JDict [("get", operation_with (typed "object"))])])].


(** A store with a schema at 0 and a value at 1. *)
Definition integers : json :=
  JDict [("type", JStr "array"); ("items", typed "integer")].

Definition example_store : Store.store :=
  [integers; JList [JStr "a"; JInt 1; JStr "b"]].

(** * Properties *)


(** ** Dictionaries *)

Lemma dict_find_lookup {B : Type} (k : string) (f : json -> B) (d : Py.dict) :
  Py.dict_find k f d = option_map f (Py.dict_lookup k d).
Proof.
  induction d as [|[k' v] d IH]; simpl; [reflexivity|].
  destruct (String.eqb k' k); [reflexivity | exact IH].
Qed.

Lemma json_is_null (v : json) : v = JNull \/ v <> JNull.
Proof. destruct v; [now left | right; discriminate ..]. Qed.

Lemma dict_lookup_In (k : string) (d : Py.dict) (v : json) :
  Py.dict_lookup k d = Some v -> In (k, v) d.
Proof.
  induction d as [|[k' v'] d IH]; simpl; [discriminate|].
  destruct (String.eqb_spec k' k) as [->|_].
  - intros [= ->]. now left.
  - intros H. right. auto.
Qed.

(** ** Regular expressions: the matcher decides the language *)

Module ReTheory.
Import Re.

Lemma append_nil_r (s : string) : s ++ "" = s.
Proof. induction s as [|c s IH]; simpl; [reflexivity | now rewrite IH]. Qed.

Lemma append_assoc (a b c : string) : (a ++ b) ++ c = a ++ (b ++ c).
Proof. induction a as [|x a IH]; simpl; [reflexivity | now rewrite IH]. Qed.

Lemma append_eq_nil (a b : string) : a ++ b = "" -> a = "" /\ b = "".
Proof. destruct a; simpl; [auto | discriminate]. Qed.

(** A word [a ++ b] that starts with [c]: either [a] is empty, or [a]
    starts with [c]. *)
Lemma append_eq_cons (a b : string) (c : ascii) (s : string) :
  a ++ b = String c s ->
  (a = "" /\ b = String c s) \/ (exists a', a = String c a' /\ s = a' ++ b).
Proof.
  destruct a as [|x a]; simpl; [auto|].
  intros [= -> <-]. right. now exists a.
Qed.

Lemma nullable_lang (r : regex) : nullable r = true <-> lang r "".
Proof.
  induction r as [| |p|r IHr s IHs|r IHr s IHs|r IHr]; simpl.
  - split; [discriminate | inversion 1].
  - split; [constructor | reflexivity].
  - split; [discriminate | inversion 1].
  - rewrite andb_true_iff, IHr, IHs. split.
    + intros [Hr Hs]. exact (lang_cat Hr Hs).
    + inversion 1 as [| |r' s' u v Hu Hv Heq| | | |]; subst.
      match goal with H : _ ++ _ = "" |- _ =>
        apply append_eq_nil in H; destruct H; subst end. auto.
  - rewrite orb_true_iff, IHr, IHs. split.
    + intros [H|H]; [now apply lang_alt_l | now apply lang_alt_r].
    + inversion 1; subst; auto.
  - split; [constructor | reflexivity].
Qed.

Lemma star_cons_inv (r : regex) (c : ascii) (s : string) :
  lang (Star r) (String c s) ->
  exists u v, s = u ++ v /\ lang r (String c u) /\ lang (Star r) v.
Proof.
  intros H. remember (Star r) as R eqn:HR. remember (String c s) as w eqn:Hw.
  revert s Hw.
  induction H as [| | | | | |r' u v Hu _ Hv IHv]; try discriminate.
  injection HR as ->. intros s Hw.
  destruct (append_eq_cons _ _ Hw) as [[-> ->]|[u' [-> ->]]].
  - apply IHv; reflexivity.
  - now exists u', v.
Qed.

Lemma deriv_lang (c : ascii) (r : regex) (s : string) :
  lang (deriv c r) s <-> lang r (String c s).
Proof.
  revert s.
  induction r as [| |p|r IHr t IHt|r IHr t IHt|r IHr]; intros s; simpl.
  - split; inversion 1.
  - split; inversion 1.
  - destruct (p c) eqn:Hp.
    + split.
      * inversion 1; subst. now constructor.
      * inversion 1; subst. constructor.
    + split; [inversion 1|]. inversion 1; subst. congruence.
  - assert (Hleft : lang (Cat (deriv c r) t) s -> lang (Cat r t) (String c s)).
    { inversion 1 as [| |r' s' u v Hu Hv| | | |]; subst.
      apply IHr in Hu. exact (lang_cat Hu Hv). }
    assert (Hinv : lang (Cat r t) (String c s) ->
              lang (Cat (deriv c r) t) s \/
              (nullable r = true /\ lang (deriv c t) s)).
    { inversion 1 as [| |r' s' u v Hu Hv Heq| | | |]; subst.
      match goal with H : _ ++ _ = String _ _ |- _ =>
        destruct (append_eq_cons _ _ H) as [[-> ->]|[u' [-> ->]]] end.
      - right. split; [now apply nullable_lang | now apply IHt].
      - left. apply lang_cat; [now apply IHr | assumption]. }
    destruct (nullable r) eqn:Hnull.
    + split.
      * inversion 1; subst; [auto|].
        apply (@lang_cat r t "" (String c s)); [now apply nullable_lang|].
        now apply IHt.
      * intros H. destruct (Hinv H) as [H'|[_ H']];
          [now apply lang_alt_l | now apply lang_alt_r].
    + split; [exact Hleft|].
      intros H. destruct (Hinv H) as [H'|[H' _]]; [exact H' | discriminate].
  - split.
    + inversion 1; subst;
        [apply lang_alt_l; now apply IHr | apply lang_alt_r; now apply IHt].
    + inversion 1; subst;
        [apply lang_alt_l; now apply IHr | apply lang_alt_r; now apply IHt].
  - split.
    + inversion 1 as [| |r' s' u v Hu Hv| | | |]; subst.
      apply IHr in Hu. exact (lang_star_cons Hu Hv).
    + intros H. destruct (star_cons_inv H) as [u [v [-> [Hu Hv]]]].
      apply lang_cat; [now apply IHr | assumption].
Qed.

Lemma matches_lang (r : regex) (s : string) :
  matches r s = true <-> lang r s.
Proof.
  revert r. induction s as [|c s IH]; intros r; simpl.
  - apply nullable_lang.
  - rewrite IH. apply deriv_lang.
Qed.

End ReTheory.

Section ValidatorTheory.

Variable repr : json -> string.

Local Abbreviation validate := (_validate_property repr).

(** ** The validator as the sequence of its two halves *)

Lemma alternatives_find (d : Py.dict) :
  Py.dict_find "anyOf"
    (fun any_of =>
       match any_of with
       | JList subs => Ok (map validate subs)
       | _ => subs <- Py.iter any_of ;; Ok (map validate_leaf subs)
       end) d
  = alternatives repr d.
Proof.
  rewrite dict_find_lookup. unfold alternatives.
  destruct (Py.dict_lookup "anyOf" d) as [any_of|]; [|reflexivity].
  simpl. f_equal.
  destruct any_of as [| | | |s|l|ps]; try reflexivity.
  - simpl. f_equal. induction (Py.chars s); simpl; [reflexivity|]. now f_equal.
  - simpl. f_equal. induction ps; simpl; [reflexivity|]. now f_equal.
Qed.

Lemma properties_find (d : Py.dict) :
  Py.dict_find "properties"
    (fun properties =>
       match properties with
       | JDict ps =>
           Ok (map (fun '(prop_name, prop_spec) => (prop_name, validate prop_spec)) ps)
       | _ => Raise AttributeError
       end) d
  = property_validators repr d.
Proof.
  rewrite dict_find_lookup. unfold property_validators.
  destruct (Py.dict_lookup "properties" d) as [[| | | | | |ps]|]; reflexivity.
Qed.

Lemma _validate_property_eq (schema : json) (name : string) (value : json) :
  validate schema name value =
  match value with
  | JNull => null_check name schema
  | _ =>
      match schema with
      | JDict d =>
          errors <- type_dispatch repr d name value ;;
          any_errors <- any_of_part repr d name value ;;
          Ok (errors ++ any_errors)%list
      | _ => Raise AttributeError
      end
  end.
Proof.
  destruct schema as [| | | | | |d]; try (destruct value; reflexivity).
  destruct value; try reflexivity.
  all: unfold validate at 1; fold validate; cbv beta iota.
  all: rewrite alternatives_find; try reflexivity.
  - rewrite dict_find_lookup. reflexivity.
  - rewrite properties_find. reflexivity.
Qed.

(** ** Null handling *)

(** C3. For every fragment and every path, a null value is accepted when
    the fragment is marked nullable with a truthy mark and is otherwise
    answered by the single error "Property <path> cannot be null"; the
    result depends on nothing else in the fragment, so no type, format,
    length, range, object, array or anyOf check runs. *)
Theorem null_handling (d : Py.dict) (name : string) :
  validate (JDict d) name JNull =
  Ok (if Py.truthy (Py.dict_get d "nullable" JNull) then []
      else ["Property " ++ name ++ " cannot be null"]).
Proof.
  rewrite _validate_property_eq. unfold null_check. simpl.
  unfold Py.dict_mem, Py.dict_get.
  destruct (Py.dict_lookup "nullable" d) as [n|]; simpl; [|reflexivity].
  destruct (Py.truthy n); reflexivity.
Qed.

(** ** The permissive default *)

Lemma type_dispatch_no_type (d : Py.dict) (name : string) (v : json) :
  Py.dict_mem "type" d = false -> type_dispatch repr d name v = Ok [].
Proof.
  unfold Py.dict_mem, type_dispatch, Py.dict_get.
  destruct (Py.dict_lookup "type" d); [discriminate | reflexivity].
Qed.

Lemma any_of_part_no_anyOf (d : Py.dict) (name : string) (v : json) :
  Py.dict_mem "anyOf" d = false -> any_of_part repr d name v = Ok [].
Proof.
  unfold Py.dict_mem, any_of_part, alternatives.
  destruct (Py.dict_lookup "anyOf" d); [discriminate | reflexivity].
Qed.

(** C2, amended. For every fragment that declares neither a type key nor
    an anyOf key, and every value that is not null or is null while the
    fragment is marked nullable, validation returns the empty list. *)
Theorem permissive_default (d : Py.dict) (name : string) (v : json) :
  Py.dict_mem "type" d = false ->
  Py.dict_mem "anyOf" d = false ->
  v <> JNull \/ Py.truthy (Py.dict_get d "nullable" JNull) = true ->
  validate (JDict d) name v = Ok [].
Proof.
  intros Htype Hany Hnull.
  destruct v; try (rewrite _validate_property_eq, type_dispatch_no_type,
                     any_of_part_no_anyOf by assumption; reflexivity).
  rewrite null_handling.
  destruct Hnull as [Hnull | ->]; [now elim Hnull | reflexivity].
Qed.

(** ** Union alternatives *)

Lemma any_of_loop_all_fail (name : string) (v : json)
    (alts : list validator) (ess : list (list string)) :
  Forall2 (failed_with name v) alts ess ->
  forall acc,
    any_of_loop alts name v acc = Ok (false, (acc ++ List.concat ess)%list).
Proof.
  induction 1 as [|sub es alts ess [Hsub Hne] _ IH]; intros acc; simpl.
  - now rewrite app_nil_r.
  - rewrite Hsub. simpl. destruct es as [|e es]; [now elim Hne|].
    rewrite IH. now rewrite app_assoc.
Qed.

Lemma any_of_loop_first_success (name : string) (v : json)
    (pre : list validator) (ess : list (list string))
    (sub : validator) (post : list validator) :
  Forall2 (failed_with name v) pre ess ->
  sub name v = Ok [] ->
  forall acc,
    any_of_loop (pre ++ sub :: post) name v acc
    = Ok (true, (acc ++ List.concat ess)%list).
Proof.
  intros Hpre Hsub.
  induction Hpre as [|sub' es pre ess [Hsub' Hne] _ IH]; intros acc; simpl.
  - rewrite Hsub. simpl. now rewrite app_nil_r.
  - rewrite Hsub'. simpl. destruct es as [|e es]; [now elim Hne|].
    rewrite IH. now rewrite app_assoc.
Qed.

Lemma Forall2_map_l {A B C : Type} (f : A -> B) (R : B -> C -> Prop)
    (l : list A) (l' : list C) :
  Forall2 (fun a c => R (f a) c) l l' -> Forall2 R (map f l) l'.
Proof. induction 1; simpl; constructor; auto. Qed.

Lemma validate_dict_not_null (d : Py.dict) (name : string) (v : json) :
  v <> JNull ->
  validate (JDict d) name v =
  (errors <- type_dispatch repr d name v ;;
   any_errors <- any_of_part repr d name v ;;
   Ok (errors ++ any_errors)%list).
Proof.
  intros Hv. rewrite _validate_property_eq.
  destruct v; [now elim Hv | reflexivity ..].
Qed.

(** C1, amended. For every value that is not null and every fragment that
    carries an anyOf list, the alternatives are tried in declared order: as
    soon as one yields no error the union contributes nothing, whatever the
    earlier alternatives reported; when every alternative fails, the union
    contributes the summary "Property <path> does not match any allowed
    schemas" followed by all the errors of all the alternatives, each
    prefixed by "  - ".  The value true against string-or-integer is
    accepted, since the integer alternative accepts a boolean; an array
    against the same union gets the summary and both type errors. *)
Theorem anyOf_union :
  (forall (d : Py.dict) (name : string) (v : json) (subs : list json)
          (errors : list string),
      v <> JNull ->
      Py.dict_lookup "anyOf" d = Some (JList subs) ->
      type_dispatch repr d name v = Ok errors ->
      (forall pre sub post ess,
          subs = (pre ++ sub :: post)%list ->
          Forall2 (fun s es => failed_with name v (validate s) es) pre ess ->
          validate sub name v = Ok [] ->
          validate (JDict d) name v = Ok errors) /\
      (forall ess,
          Forall2 (fun s es => failed_with name v (validate s) es) subs ess ->
          validate (JDict d) name v =
          Ok (errors ++ no_match name :: map indent (List.concat ess))%list)) /\
  validate (JDict [("anyOf", JList [JDict [("type", JStr "string")];
                                    JDict [("type", JStr "integer")]])])
           "x" (JBool true) = Ok [] /\
  validate (JDict [("anyOf", JList [JDict [("type", JStr "string")];
                                    JDict [("type", JStr "integer")]])])
           "x" (JList [])
  = Ok ["Property x does not match any allowed schemas";
        "  - Property x should be a string";
        "  - Property x should be a number"].
Proof.
  split; [|split; reflexivity].
  intros d name v subs errors Hv Hany Hdispatch.
  rewrite (validate_dict_not_null d name Hv), Hdispatch.
  unfold any_of_part, alternatives. rewrite Hany. simpl.
  unfold check_any_of. split.
  - intros pre sub post ess -> Hpre Hsub.
    rewrite map_app. simpl map.
    rewrite (any_of_loop_first_success (ess := ess)).
    + simpl. now rewrite app_nil_r.
    + exact (Forall2_map_l _ (failed_with name v) Hpre).
    + exact Hsub.
  - intros ess Hall.
    rewrite (any_of_loop_all_fail (ess := ess))
      by exact (Forall2_map_l _ (failed_with name v) Hall).
    reflexivity.
Qed.

(** ** Totality on the supported subset *)

Lemma returns_Ok {A : Type} (a : A) : returns (Ok a).
Proof. now exists a. Qed.

Lemma bind_Ok {A B : Type} (a : A) (k : A -> result B) : bind (Ok a) k = k a.
Proof. reflexivity. Qed.

Lemma returns_bind {A B : Type} (m : result A) (k : A -> result B) :
  returns m -> (forall a, m = Ok a -> returns (k a)) -> returns (bind m k).
Proof. intros [a ->] Hk. simpl. now apply Hk. Qed.

Lemma mapM_returns {A B : Type} (f : A -> result B) (l : list A) :
  (forall a, In a l -> returns (f a)) -> returns (mapM f l).
Proof.
  induction l as [|a l IH]; intros Hf; simpl.
  - apply returns_Ok.
  - apply returns_bind; [apply Hf; now left|]. intros b _.
    apply returns_bind; [apply IH; intros; apply Hf; now right|].
    intros bs _. apply returns_Ok.
Qed.

Lemma mapM_Forall2 {A B : Type} (f : A -> result B) (l : list A) (bs : list B) :
  Forall2 (fun a b => f a = Ok b) l bs -> mapM f l = Ok bs.
Proof.
  induction 1 as [|a b l bs Ha _ IH]; simpl; [reflexivity|].
  now rewrite Ha, IH.
Qed.

Lemma wf_entry (d : Py.dict) (k : string) (v : json) :
  wf_fragment (JDict d) = true ->
  Py.dict_lookup k d = Some v ->
  entry_ok wf_fragment k v = true.
Proof.
  simpl. rewrite forallb_forall. intros Hwf Hk.
  exact (Hwf _ (dict_lookup_In _ _ Hk)).
Qed.

Lemma lt_returns (x : Py.num) (b : json) :
  is_number b = true -> returns (Py.lt x b).
Proof. destruct b; try discriminate; intros _; apply returns_Ok. Qed.

Lemma gt_returns (x : Py.num) (b : json) :
  is_number b = true -> returns (Py.gt x b).
Proof. destruct b; try discriminate; intros _; apply returns_Ok. Qed.

Lemma check_bound_returns (d : Py.dict) (key : string)
    (violates : json -> result bool) (message : json -> string) :
  wf_fragment (JDict d) = true ->
  (forall v, entry_ok wf_fragment key v = is_number v) ->
  (forall b, is_number b = true -> returns (violates b)) ->
  returns (check_bound d key violates message).
Proof.
  intros Hwf Hkey Hviol. unfold check_bound.
  destruct (Py.dict_lookup key d) as [b|] eqn:Hb; [|apply returns_Ok].
  apply returns_bind; [|intros; apply returns_Ok].
  apply Hviol. rewrite <- Hkey. exact (wf_entry _ _ Hwf Hb).
Qed.

Ltac bound_returns Hwf :=
  apply check_bound_returns;
  [exact Hwf | intros ?; reflexivity
  | first [apply lt_returns | apply gt_returns]].

Lemma check_string_returns (d : Py.dict) (name : string) (v : json) :
  wf_fragment (JDict d) = true -> returns (check_string repr name v d).
Proof.
  intros Hwf. destruct v; try apply returns_Ok. unfold check_string.
  apply returns_bind; [bound_returns Hwf|]. intros mins _.
  apply returns_bind; [bound_returns Hwf|]. intros maxs _.
  apply returns_Ok.
Qed.

Lemma check_number_returns (t : json) (d : Py.dict) (name : string) (v : json) :
  wf_fragment (JDict d) = true -> returns (check_number repr t name v d).
Proof.
  intros Hwf. unfold check_number.
  destruct (Py.num_value v); [|apply returns_Ok].
  apply returns_bind; [bound_returns Hwf|]. intros mins _.
  apply returns_bind; [bound_returns Hwf|]. intros maxs _.
  apply returns_Ok.
Qed.

Lemma check_items_length_returns (d : Py.dict) (name : string) (l : list json) :
  wf_fragment (JDict d) = true -> returns (check_items_length repr name l d).
Proof.
  intros Hwf. unfold check_items_length.
  apply returns_bind; [bound_returns Hwf|]. intros mins _.
  apply returns_bind; [bound_returns Hwf|]. intros maxs _.
  apply returns_Ok.
Qed.

Lemma check_required_returns (d o : Py.dict) (name : string) :
  wf_fragment (JDict d) = true -> returns (check_required repr name o d).
Proof.
  intros Hwf. unfold check_required.
  destruct (Py.dict_lookup "required" d) as [required|] eqn:Hreq;
    [|apply returns_Ok].
  pose proof (wf_entry _ _ Hwf Hreq) as Hok. unfold entry_ok in Hok.
  destruct required as [| | | | |names|]; try discriminate.
  simpl in Hok |- *. rewrite forallb_forall in Hok.
  apply returns_bind; [|intros; apply returns_Ok].
  apply mapM_returns. intros p Hp. specialize (Hok p Hp).
  destruct p; try discriminate. apply returns_Ok.
Qed.

Lemma any_of_loop_returns (alts : list validator) (name : string) (v : json) :
  Forall (fun sub : validator => returns (sub name v)) alts ->
  forall acc, returns (any_of_loop alts name v acc).
Proof.
  induction 1 as [|sub alts [es Hsub] _ IH]; intros acc; simpl.
  - apply returns_Ok.
  - rewrite Hsub. simpl. destruct es; [apply returns_Ok | apply IH].
Qed.

Lemma check_any_of_returns (alts : list validator) (name : string) (v : json) :
  Forall (fun sub : validator => returns (sub name v)) alts ->
  returns (check_any_of alts name v).
Proof.
  intros Halts. unfold check_any_of.
  apply returns_bind; [now apply any_of_loop_returns|].
  intros [any_valid any_errors] _. apply returns_Ok.
Qed.

Lemma check_items_returns (validate_item : validator) (name : string)
    (l : list json) :
  (forall n x, returns (validate_item n x)) ->
  returns (check_items validate_item name l).
Proof.
  intros Hit. unfold check_items.
  apply returns_bind; [|intros; apply returns_Ok].
  apply mapM_returns. intros [i item] _. apply Hit.
Qed.

Lemma check_properties_returns (props : list (string * validator))
    (name : string) (o : Py.dict) :
  Forall (fun p : string * validator => forall n x, returns (snd p n x)) props ->
  returns (check_properties props name o).
Proof.
  intros Hprops. unfold check_properties.
  apply returns_bind; [|intros; apply returns_Ok].
  apply mapM_returns. intros [prop_name validate_prop] Hin.
  rewrite Forall_forall in Hprops. specialize (Hprops _ Hin). simpl in Hprops.
  destruct (Py.dict_lookup prop_name o); [apply Hprops | apply returns_Ok].
Qed.

(** Every validation against a fragment of the supported subset returns;
    the second half of the statement carries the induction through the
    dictionaries of [properties] and the lists of [anyOf]. *)
Lemma validate_returns_deep (schema : json) :
  (wf_fragment schema = true ->
   forall name v, returns (validate schema name v)) /\
  match schema with
  | JDict ps =>
      Forall (fun kv => wf_fragment (snd kv) = true ->
                        forall name v, returns (validate (snd kv) name v)) ps
  | JList l =>
      Forall (fun s => wf_fragment s = true ->
                       forall name v, returns (validate s name v)) l
  | _ => True
  end.
Proof.
  induction schema as [| | | | |l IH|d IH] using json_ind;
    try (split; [discriminate | exact I]).
  - split; [discriminate|].
    eapply Forall_impl; [|exact IH]. intros s Hs. exact (proj1 Hs).
  - assert (Hentries : Forall (fun kv => wf_fragment (snd kv) = true ->
                forall name v, returns (validate (snd kv) name v)) d).
    { eapply Forall_impl; [|exact IH]. intros kv Hkv. exact (proj1 Hkv). }
    split; [|exact Hentries].
    intros Hwf name v.
    destruct (json_is_null v) as [->|Hv].
    { rewrite null_handling. apply returns_Ok. }
    rewrite (validate_dict_not_null d name Hv).
    rewrite Forall_forall in IH.
    apply returns_bind; [|intros errors _; apply returns_bind;
                           [|intros; apply returns_Ok]].
    + (* the type dispatch *)
      unfold type_dispatch.
      destruct (negb _); [apply returns_Ok|].
      destruct (Py.eq_str _ "string"); [now apply check_string_returns|].
      destruct (_ || _); [now apply check_number_returns|].
      destruct (Py.eq_str _ "boolean");
        [destruct v; apply returns_Ok|].
      destruct (Py.eq_str _ "array").
      * unfold check_array. destruct v; try apply returns_Ok.
        apply returns_bind;
          [|intros; apply returns_bind;
              [now apply check_items_length_returns | intros; apply returns_Ok]].
        unfold items_validator.
        destruct (Py.dict_lookup "items" d) as [it|] eqn:Hit;
          [|apply returns_Ok].
        simpl. apply check_items_returns.
        apply (proj1 (IH _ (dict_lookup_In _ _ Hit))).
        exact (wf_entry _ _ Hwf Hit).
      * destruct (Py.eq_str _ "object"); [|apply returns_Ok].
        unfold check_object. destruct v; try apply returns_Ok.
        apply returns_bind;
          [|intros; apply returns_bind;
              [now apply check_required_returns | intros; apply returns_Ok]].
        unfold property_validators.
        destruct (Py.dict_lookup "properties" d) as [ps|] eqn:Hps;
          [|apply returns_Ok].
        pose proof (wf_entry _ _ Hwf Hps) as Hok. unfold entry_ok in Hok.
        destruct ps as [| | | | | |ps]; try discriminate.
        simpl in Hok |- *. apply check_properties_returns.
        pose proof (proj2 (IH _ (dict_lookup_In _ _ Hps))) as Hdeep.
        simpl in Hdeep. rewrite forallb_forall in Hok.
        rewrite Forall_forall in Hdeep |- *.
        intros [pn pv] Hin. rewrite in_map_iff in Hin.
        destruct Hin as [[pn' spec] [[= <- <-] Hin]]. simpl.
        apply (Hdeep _ Hin). exact (Hok _ Hin).
    + (* the union *)
      unfold any_of_part, alternatives.
      destruct (Py.dict_lookup "anyOf" d) as [any_of|] eqn:Hany;
        [|apply returns_Ok].
      pose proof (wf_entry _ _ Hwf Hany) as Hok. unfold entry_ok in Hok.
      destruct any_of as [| | | | |subs|]; try discriminate.
      simpl in Hok |- *. apply check_any_of_returns.
      pose proof (proj2 (IH _ (dict_lookup_In _ _ Hany))) as Hdeep.
      simpl in Hdeep. rewrite forallb_forall in Hok.
      rewrite Forall_forall in Hdeep |- *.
      intros sub Hin. rewrite in_map_iff in Hin.
      destruct Hin as [s [<- Hin]].
      apply (Hdeep _ Hin). exact (Hok _ Hin).
Qed.

Lemma validate_returns (schema : json) (name : string) (v : json) :
  wf_fragment schema = true -> returns (validate schema name v).
Proof. intros Hwf. now apply (proj1 (validate_returns_deep schema)). Qed.

(** ** Error messages *)

Lemma append_inv_head (a b c : string) : a ++ b = a ++ c -> b = c.
Proof. induction a as [|x a IH]; simpl; [auto|]. intros [= H]. auto. Qed.

Lemma check_bound_errors (d : Py.dict) (key : string)
    (violates : json -> result bool) (message : json -> string)
    (errors : list string) :
  check_bound d key violates message = Ok errors ->
  errors = [] \/ exists b, errors = [message b].
Proof.
  unfold check_bound. destruct (Py.dict_lookup key d) as [b|].
  - destruct (violates b) as [[|]|]; simpl; intros [= <-]; eauto.
  - intros [= <-]. now left.
Qed.

Lemma any_of_part_errors (d : Py.dict) (name : string) (v : json)
    (errors : list string) :
  any_of_part repr d name v = Ok errors ->
  forall e, In e errors -> e = no_match name \/ exists e', e = indent e'.
Proof.
  unfold any_of_part. destruct (alternatives repr d) as [[alts|]|].
  - simpl. unfold check_any_of.
    destruct (any_of_loop alts name v []) as [[[|] any_errors]|]; simpl;
      intros [= <-] err He; [destruct He|].
    destruct He as [<-|He]; [now left|]. right.
    apply in_map_iff in He. destruct He as [e' [<- _]]. now exists e'.
  - discriminate.
  - intros [= <-] err [].
Qed.

Lemma number_dispatch (d : Py.dict) (name t : string) (v : json) :
  Py.dict_lookup "type" d = Some (JStr t) ->
  t = "integer" \/ t = "number" ->
  type_dispatch repr d name v = check_number repr (JStr t) name v d.
Proof.
  intros Htype Ht. unfold type_dispatch, Py.dict_get. rewrite Htype.
  destruct Ht as [-> | ->]; reflexivity.
Qed.

(** On a value of type int the number branch reports range errors only. *)
Lemma check_number_int_errors (t : json) (d : Py.dict) (name : string)
    (v : json) (errors : list string) :
  is_int v = true ->
  check_number repr t name v d = Ok errors ->
  forall e, In e errors ->
    exists b, e = "Property " ++ name ++ " is too small (min: " ++ str repr b ++ ")"
           \/ e = "Property " ++ name ++ " is too large (max: " ++ str repr b ++ ")".
Proof.
  intros Hint. unfold check_number.
  destruct v; try discriminate Hint.
  all: simpl Py.num_value; simpl is_int; cbv iota; rewrite andb_false_r.
  all: destruct (check_bound d "minimum" _ _) as [mins|] eqn:Hmin;
    [|discriminate].
  all: destruct (check_bound d "maximum" _ _) as [maxs|] eqn:Hmax;
    [|discriminate].
  all: simpl; intros [= <-] e He; apply in_app_or in He.
  all: apply check_bound_errors in Hmin, Hmax.
  all: destruct He as [He|He];
    [ destruct Hmin as [->|[bound ->]]; [destruct He|];
      destruct He as [<-|[]]; exists bound; now left
    | destruct Hmax as [->|[bound ->]]; [destruct He|];
      destruct He as [<-|[]]; exists bound; now right ].
Qed.

(** No error that a value of type int can get against a numeric fragment
    is one of the two type errors of the number branch. *)
Lemma int_errors_not_type (d : Py.dict) (name t : string) (v : json)
    (errors : list string) :
  Py.dict_lookup "type" d = Some (JStr t) ->
  t = "integer" \/ t = "number" ->
  is_int v = true ->
  validate (JDict d) name v = Ok errors ->
  ~ In ("Property " ++ name ++ " should be a number") errors /\
  ~ In ("Property " ++ name ++ " should be an integer") errors.
Proof.
  intros Htype Ht Hint.
  rewrite validate_dict_not_null by (destruct v; discriminate).
  rewrite (number_dispatch d name v Htype Ht).
  destruct (check_number repr (JStr t) name v d) as [errs|] eqn:Hnum;
    [|discriminate].
  destruct (any_of_part repr d name v) as [anys|] eqn:Hany; [|discriminate].
  simpl. intros [= <-].
  assert (Hno : forall e, In e (errs ++ anys)%list ->
            forall kind, e = "Property " ++ name ++ " should be " ++ kind -> False).
  { intros e He kind ->. apply in_app_or in He. destruct He as [He|He].
    - destruct (check_number_int_errors _ _ _ _ Hint Hnum _ He) as [b [H|H]];
        apply append_inv_head, append_inv_head in H; discriminate H.
    - destruct (any_of_part_errors _ _ _ Hany _ He) as [H|[e' H]].
      + unfold no_match in H.
        apply append_inv_head, append_inv_head in H. discriminate H.
      + discriminate H. }
  split; intros He; exact (Hno _ He _ eq_refl).
Qed.

(** ** Numbers *)

(** C4. Against a fragment of type "integer", every value of type float
    gets the error "Property <path> should be an integer", the whole 3.0
    included, because the test is on the type of the value; a value of
    type int gets no such error. *)
Theorem integer_strictness :
  (forall (d : Py.dict) (name : string),
      wf_fragment (JDict d) = true ->
      Py.dict_lookup "type" d = Some (JStr "integer") ->
      (forall f, exists errors,
          validate (JDict d) name (JFloat f) = Ok errors /\
          In ("Property " ++ name ++ " should be an integer") errors) /\
      (forall v, is_int v = true -> exists errors,
          validate (JDict d) name v = Ok errors /\
          ~ In ("Property " ++ name ++ " should be an integer") errors)) /\
  validate (JDict [("type", JStr "integer")]) "x"
           (JFloat (S754_finite false 6755399441055744 (-51)))
  = Ok ["Property x should be an integer"] /\
  validate (JDict [("type", JStr "integer")]) "x" (JInt 3) = Ok [].
Proof.
  split; [|split; reflexivity].
  intros d name Hwf Htype. split.
  - intros f.
    destruct (@validate_returns (JDict d) name (JFloat f) Hwf) as [errors Hv].
    exists errors. split; [exact Hv|].
    rewrite validate_dict_not_null in Hv by discriminate.
    rewrite (number_dispatch d name (JFloat f) Htype (or_introl eq_refl)) in Hv.
    unfold check_number in Hv. simpl Py.num_value in Hv. cbv iota in Hv.
    destruct (check_bound d "minimum" _ _) as [mins|]; [|discriminate].
    destruct (check_bound d "maximum" _ _) as [maxs|]; [|discriminate].
    destruct (any_of_part repr d name (JFloat f)) as [anys|]; [|discriminate].
    simpl in Hv. injection Hv as <-. now left.
  - intros v Hint.
    destruct (@validate_returns (JDict d) name v Hwf) as [errors Hv].
    exists errors. split; [exact Hv|].
    exact (proj2 (@int_errors_not_type d name _ v errors Htype (or_introl eq_refl) Hint Hv)).
Qed.

(** Integer bounds: the comparison of the model is that of the integers. *)
Lemma num_ltb_int (a b : Z) : Py.num_ltb (Py.Fin a 0) (Py.Fin b 0) = (a <? b).
Proof. unfold Py.num_ltb, Py.scale. simpl. now rewrite !Z.mul_1_r. Qed.

Lemma check_bound_min (d : Py.dict) (key : string) (x : Z)
    (message : json -> string) (bound : option Z) :
  Py.dict_lookup key d = option_map JInt bound ->
  check_bound d key (Py.lt (Py.Fin x 0)) message
  = Ok (bound_errors bound (fun b => x <? b) (fun b => message (JInt b))).
Proof.
  intros Hkey. unfold check_bound. rewrite Hkey.
  destruct bound as [b|]; [|reflexivity].
  cbn [option_map]. unfold Py.lt. cbn [Py.num_value bind].
  now rewrite num_ltb_int.
Qed.

Lemma check_bound_max (d : Py.dict) (key : string) (x : Z)
    (message : json -> string) (bound : option Z) :
  Py.dict_lookup key d = option_map JInt bound ->
  check_bound d key (Py.gt (Py.Fin x 0)) message
  = Ok (bound_errors bound (fun b => b <? x) (fun b => message (JInt b))).
Proof.
  intros Hkey. unfold check_bound. rewrite Hkey.
  destruct bound as [b|]; [|reflexivity].
  cbn [option_map]. unfold Py.gt. cbn [Py.num_value bind].
  now rewrite num_ltb_int.
Qed.

(** C5. A boolean counts as a number: against a fragment of type "integer"
    or "number" it goes through the type dispatch exactly as the integer 0
    or 1 does and gets neither type error.  It is compared with the bounds
    as 0 or 1: with integer bounds, its errors are "too small" when 0 or 1
    is below the minimum, then "too large" when 0 or 1 is above the
    maximum, then those of the union, and nothing else; true against type
    "integer" has no error at all.  The integers 0 and 1 against type
    "boolean" get the error "should be a boolean". *)
Theorem booleans_count_as_numbers :
  (forall (d : Py.dict) (name t : string) (b : bool),
      wf_fragment (JDict d) = true ->
      Py.dict_lookup "type" d = Some (JStr t) ->
      t = "integer" \/ t = "number" ->
      type_dispatch repr d name (JBool b)
      = type_dispatch repr d name (JInt (Z.b2z b)) /\
      exists errors,
        validate (JDict d) name (JBool b) = Ok errors /\
        ~ In ("Property " ++ name ++ " should be a number") errors /\
        ~ In ("Property " ++ name ++ " should be an integer") errors) /\
  (forall (d : Py.dict) (name t : string) (b : bool) (lo hi : option Z)
          (any_errors : list string),
      Py.dict_lookup "type" d = Some (JStr t) ->
      t = "integer" \/ t = "number" ->
      Py.dict_lookup "minimum" d = option_map JInt lo ->
      Py.dict_lookup "maximum" d = option_map JInt hi ->
      any_of_part repr d name (JBool b) = Ok any_errors ->
      validate (JDict d) name (JBool b)
      = Ok ((bound_errors lo (fun bound => Z.b2z b <? bound)
               (fun bound => ("Property " ++ name ++ " is too small (min: "
                              ++ Py.str_of_Z bound ++ ")")%string)
             ++ bound_errors hi (fun bound => bound <? Z.b2z b)
                  (fun bound => ("Property " ++ name ++ " is too large (max: "
                                 ++ Py.str_of_Z bound ++ ")")%string))
            ++ any_errors)%list) /\
  validate (JDict [("type", JStr "integer")]) "x" (JBool true) = Ok [] /\
  validate (JDict [("type", JStr "number"); ("minimum", JInt 1)]) "x" (JBool false)
  = Ok ["Property x is too small (min: 1)"] /\
  validate (JDict [("type", JStr "number"); ("minimum", JInt 1)]) "x" (JBool true)
  = Ok [] /\
  validate (JDict [("type", JStr "integer"); ("maximum", JInt 0)]) "x" (JBool true)
  = Ok ["Property x is too large (max: 0)"] /\
  validate (JDict [("type", JStr "boolean")]) "x" (JInt 0)
  = Ok ["Property x should be a boolean"] /\
  validate (JDict [("type", JStr "boolean")]) "x" (JInt 1)
  = Ok ["Property x should be a boolean"].
Proof.
  split; [|split; [|repeat split; reflexivity]].
  - intros d name t b Hwf Htype Ht. split.
    + now rewrite !(number_dispatch d name _ Htype Ht).
    + destruct (@validate_returns (JDict d) name (JBool b) Hwf) as [errors Hv].
      exists errors. split; [exact Hv|].
      exact (@int_errors_not_type d name t (JBool b) errors Htype Ht eq_refl Hv).
  - intros d name t b lo hi any_errors Htype Ht Hmin Hmax Hany.
    rewrite validate_dict_not_null by discriminate.
    rewrite (number_dispatch d name (JBool b) Htype Ht), Hany.
    unfold check_number. simpl Py.num_value. cbv iota.
    simpl is_int. rewrite andb_false_r.
    rewrite (check_bound_min _ _ _ _ _ Hmin), (check_bound_max _ _ _ _ _ Hmax).
    reflexivity.
Qed.

(** ** Arrays *)


(** ** The top-level entry *)

Lemma mapM_Ok_Forall2 {A B : Type} (f : A -> result B) (l : list A) (bs : list B) :
  mapM f l = Ok bs -> Forall2 (fun a b => f a = Ok b) l bs.
Proof.
  revert bs. induction l as [|a l IH]; simpl; intros bs.
  - intros [= <-]. constructor.
  - destruct (f a) as [b|] eqn:Ha; [|discriminate]. simpl.
    destruct (mapM f l) as [bs'|]; [|discriminate]. simpl.
    intros [= <-]. constructor; auto.
Qed.

Lemma mapM_cons {A B : Type} (f : A -> result B) (a : A) (l : list A) :
  mapM f (a :: l) = (b <- f a ;; bs <- mapM f l ;; Ok (b :: bs)).
Proof. reflexivity. Qed.

Lemma mapM_map {A B C : Type} (g : A -> B) (f : B -> result C) (l : list A) :
  mapM f (map g l) = mapM (fun a => f (g a)) l.
Proof.
  induction l as [|a l IH]; simpl; [reflexivity|]. now rewrite IH.
Qed.

Lemma required_loop (o : Py.dict) (names : list json) :
  forallb is_string names = true ->
  exists missing,
    mapM (fun prop =>
            present <- Py.contains prop (JDict o) ;;
            Ok (if present : bool then []
                else ["Missing required property: " ++ str repr prop])) names
    = Ok missing /\
    List.concat missing =
    map (fun k => "Missing required property: " ++ k)
        (filter (fun k => negb (Py.dict_mem k o))
                (flat_map (fun n => match n with JStr k => [k] | _ => [] end)
                          names)).
Proof.
  induction names as [|n names IH].
  - intros _. now exists [].
  - destruct n as [| | | |k| |]; try discriminate. intros Hnames.
    destruct (IH Hnames) as [missing [Hloop Hmissing]].
    rewrite mapM_cons, Hloop. simpl.
    eexists. split; [reflexivity|]. simpl. rewrite Hmissing.
    now destruct (Py.dict_mem k o).
Qed.

(** C10, amended. For every schema of the supported subset, the
    validation of any value at any path returns, and the top-level entry
    returns on every response that is a JSON object: its result is the
    list of all the findings, one error for each required name that the
    object lacks, then the errors of each declared property that the
    object has, none of them thrown. *)
Theorem throw_free_validation (schema : json) :
  wf_fragment schema = true ->
  (forall name v, returns (validate schema name v)) /\
  (forall o, exists ess,
      Forall2 (fun prop es =>
                 match Py.dict_lookup (fst prop) o with
                 | Some v => validate (snd prop) (fst prop) v = Ok es
                 | None => es = []
                 end) (declared_properties schema) ess /\
      validate_response repr (JDict o) schema
      = Ok (map (fun k => ("Missing required property: " ++ k)%string)
                (filter (fun k => negb (Py.dict_mem k o)) (required_names schema))
            ++ List.concat ess)%list).
Proof.
  intros Hwf. split; [intros; now apply validate_returns|].
  intros o. destruct schema as [| | | | | |d]; try discriminate.
  unfold validate_response, Py.get.
  cbv beta iota. rewrite !bind_Ok. unfold Py.dict_get.
  assert (Hreq : exists names,
             match Py.dict_lookup "required" d with
             | Some v => v
             | None => JList []
             end = JList names /\
             forallb is_string names = true /\
             required_names (JDict d)
             = flat_map (fun n => match n with JStr k => [k] | _ => [] end) names).
  { unfold required_names.
    destruct (Py.dict_lookup "required" d) as [r|] eqn:Hr.
    - pose proof (wf_entry _ _ Hwf Hr) as Hok. unfold entry_ok in Hok.
      destruct r as [| | | | |names|]; try discriminate. now exists names.
    - now exists []. }
  destruct Hreq as [names [Hlist [Hnames Hflat]]]. rewrite Hflat, Hlist.
  change (Py.iter (JList names)) with (Ok names). rewrite bind_Ok.
  destruct (required_loop o names Hnames) as [missing [-> <-]]. rewrite bind_Ok.
  assert (Hprops : exists ps,
             match Py.dict_lookup "properties" d with
             | Some v => v
             | None => JDict []
             end = JDict ps /\
             forallb (fun kv => wf_fragment (snd kv)) ps = true /\
             declared_properties (JDict d) = ps).
  { unfold declared_properties.
    destruct (Py.dict_lookup "properties" d) as [p|] eqn:Hp.
    - pose proof (wf_entry _ _ Hwf Hp) as Hok. unfold entry_ok in Hok.
      destruct p as [| | | | | |ps]; try discriminate. now exists ps.
    - now exists []. }
  destruct Hprops as [ps [Hdict [Hps Hentries]]]. rewrite Hentries, Hdict, bind_Ok.
  change (Py.items (JDict ps)) with (Ok ps). rewrite bind_Ok.
  rewrite forallb_forall in Hps.
  match goal with
  | |- context [mapM ?f ps] =>
      assert (Hloop : returns (mapM f ps))
  end.
  { apply mapM_returns. intros [prop_name prop_spec] Hin. simpl.
    unfold Py.dict_mem. destruct (Py.dict_lookup prop_name o); simpl.
    - apply validate_returns. exact (Hps _ Hin).
    - apply returns_Ok. }
  destruct Hloop as [ess Hess]. exists ess. rewrite Hess. split; [|reflexivity].
  apply mapM_Ok_Forall2 in Hess.
  eapply Forall2_impl; [|exact Hess].
  intros [prop_name prop_spec] es. simpl.
  unfold Py.dict_mem. destruct (Py.dict_lookup prop_name o); simpl.
  - auto.
  - now intros [= <-].
Qed.

End ValidatorTheory.

(** ** The path matcher *)

Module PathTheory.
Import Re ReTheory Path.

Lemma lang_lit (c : ascii) (w : string) :
  lang (Lit c) w <-> w = String c "".
Proof.
  unfold Lit. split.
  - inversion 1 as [|p x Hx| | | | |]; subst.
    apply Ascii.eqb_eq in Hx. now subst.
  - intros ->. constructor. apply Ascii.eqb_refl.
Qed.

Lemma lang_star_segment (w : string) :
  lang (Star (Class not_slash)) w <-> slash_free w = true.
Proof.
  split.
  - intros H. remember (Star (Class not_slash)) as R eqn:HR.
    induction H as [| | | | | |r u v Hu _ Hv IHv]; try discriminate.
    + reflexivity.
    + injection HR as ->. specialize (IHv eq_refl).
      inversion Hu as [|p x Hx| | | | |]; subst. simpl.
      unfold not_slash in Hx. now rewrite Hx.
  - induction w as [|c w IH]; simpl; [constructor|].
    intros H. apply andb_true_iff in H. destruct H as [Hc Hw].
    apply (@lang_star_cons (Class not_slash) (String c "") w); [|auto].
    now constructor.
Qed.

Lemma lang_segment (w : string) :
  lang (Plus (Class not_slash)) w <-> w <> "" /\ slash_free w = true.
Proof.
  unfold Plus. split.
  - inversion 1 as [| |r s u v Hu Hv| | | |]; subst.
    inversion Hu as [|p x Hx| | | | |]; subst. simpl.
    apply lang_star_segment in Hv. unfold not_slash in Hx.
    rewrite Hx, Hv. split; [discriminate | reflexivity].
  - intros [Hne Hfree]. destruct w as [|c w]; [now elim Hne|].
    simpl in Hfree. apply andb_true_iff in Hfree. destruct Hfree as [Hc Hw].
    apply (@lang_cat (Class not_slash) (Star (Class not_slash)) (String c "") w).
    + now constructor.
    + now apply lang_star_segment.
Qed.

(** The pattern of a plain template has the instances of the template as
    its words. *)
Lemma compile_instance (ts : list token) :
  forall p, compile ts = Some p -> forall s, lang p s <-> instance ts s.
Proof.
  induction ts as [|[c|] ts IH]; simpl; intros p Hp s.
  - injection Hp as <-. split; inversion 1; constructor.
  - destruct (special c); [discriminate|].
    destruct (compile ts) as [p'|]; [|discriminate]. injection Hp as <-.
    split.
    + inversion 1 as [| |r t u v Hu Hv| | | |]; subst.
      apply lang_lit in Hu. subst. simpl. constructor. now apply (IH p').
    + inversion 1; subst.
      apply (@lang_cat (Lit c) p' (String c "")).
      * now apply lang_lit.
      * now apply (IH p').
  - destruct (compile ts) as [p'|]; [|discriminate]. injection Hp as <-.
    split.
    + inversion 1 as [| |r t u v Hu Hv| | | |]; subst.
      apply lang_segment in Hu. destruct Hu as [Hne Hfree].
      constructor; auto. now apply (IH p').
    + inversion 1; subst. apply lang_cat.
      * now apply lang_segment.
      * now apply (IH p').
Qed.

Lemma match_anchored_lang (p : regex) (s : string) :
  match_anchored p s = true <->
  lang p s \/ exists s', s = s' ++ String newline "" /\ lang p s'.
Proof.
  unfold match_anchored. rewrite matches_lang. split.
  - inversion 1 as [| |r t u v Hu Hv| | | |]; subst.
    inversion Hv; subst.
    + match goal with H : lang (Lit _) _ |- _ => apply lang_lit in H; subst end.
      right. now exists u.
    + match goal with H : lang Eps _ |- _ => inversion H; subst end.
      left. now rewrite append_nil_r.
  - intros [H|[s' [-> H]]].
    + rewrite <- (append_nil_r s). apply lang_cat; [exact H|].
      apply lang_alt_r. constructor.
    + apply lang_cat; [exact H|]. apply lang_alt_l. now apply lang_lit.
Qed.

(** *** Templates that are not plain *)

(** The pattern of a plain template is the one that is read. *)
Lemma translate_compile (ts : list token) (p : regex) :
  compile ts = Some p -> translate ts = Pattern p.
Proof.
  revert p. induction ts as [|[c|] ts IH]; simpl; intros p Hp.
  - now injection Hp as <-.
  - destruct (special c) eqn:Hc; [discriminate|].
    destruct (compile ts) as [p'|]; [|discriminate]. injection Hp as <-.
    assert (Hdot : Ascii.eqb c "." = false).
    { destruct (Ascii.eqb_spec c "."); [subst; discriminate Hc | reflexivity]. }
    assert (Hopen : Ascii.eqb c "(" = false).
    { destruct (Ascii.eqb_spec c "("); [subst; discriminate Hc | reflexivity]. }
    now rewrite Hdot, Hopen, (IH p' eq_refl).
  - destruct (compile ts) as [p'|]; [|discriminate]. injection Hp as <-.
    now rewrite (IH p' eq_refl).
Qed.



Lemma plain_readable (schema_path : string) :
  plain schema_path = true -> readable schema_path = true.
Proof.
  unfold plain, readable.
  destruct (compile (tokens schema_path)) as [p|] eqn:Hp; [|discriminate].
  now rewrite (translate_compile _ Hp).
Qed.

(** *** The substitution of the placeholders *)


(** A template without an opening brace is the sequence of its
    characters. *)
Lemma scan_literal (s : string) :
  every not_brace s = true ->
  scan s O = map Chr (list_ascii_of_string s).
Proof.
  induction s as [|c s IH]; simpl; [reflexivity|].
  intros H. apply andb_true_iff in H. destruct H as [Hc Hs].
  unfold not_brace in Hc. apply negb_true_iff in Hc. rewrite Hc.
  now rewrite IH.
Qed.







(** *** Normalisation *)

Lemma rstrip_slash_spec (path : string) :
  (exists n, path = rstrip_slash path ++ slashes n) /\
  ends_with_slash (rstrip_slash path) = false.
Proof.
  induction path as [|c path [[n Hn] Hend]]; simpl.
  - split; [now exists O | reflexivity].
  - destruct (rstrip_slash path) as [|x r] eqn:Hr.
    + simpl in Hn. destruct (Ascii.eqb_spec c "/") as [->|Hc].
      * split; [exists (S n); simpl; now rewrite <- Hn | reflexivity].
      * split; [exists n; simpl; now rewrite <- Hn|].
        simpl. now apply Ascii.eqb_neq.
    + split; [exists n; simpl; now rewrite Hn at 1|].
      exact Hend.
Qed.


End PathTheory.

Section PathMatcherTheory.
Import Path.

Variable re_match : string -> string -> result bool.

Local Abbreviation resolve := (get_schema_for_endpoint re_match).
Local Abbreviation match_pattern := (_match_path_pattern re_match).
Local Abbreviation scan_templates := (scan_paths re_match).

(** On a plain template the matcher returns, and it answers whether the
    path is an instance of the template, up to a final newline. *)
Lemma match_pattern_plain (path schema_path : string) :
  plain schema_path = true ->
  exists b, match_pattern path schema_path = Ok b /\
            (b = true <-> template_matches schema_path path).
Proof.
  unfold plain, _match_path_pattern, template_matches.
  destruct (compile (tokens schema_path)) as [p|] eqn:Hp; [|discriminate].
  rewrite (PathTheory.translate_compile _ Hp).
  intros _. exists (Re.match_anchored p path). split; [reflexivity|].
  rewrite PathTheory.match_anchored_lang.
  rewrite (PathTheory.compile_instance _ Hp). split.
  - intros [H|[s' [-> H]]]; [now left|]. right. exists s'.
    split; [reflexivity|]. now apply (PathTheory.compile_instance _ Hp).
  - intros [H|[s' [-> H]]]; [now left|]. right. exists s'.
    split; [reflexivity|]. now apply (PathTheory.compile_instance _ Hp).
Qed.



(** *** Response schemas *)




(** *** The scan of the templates *)






(** *** The exact match *)









End PathMatcherTheory.

(** * The validator on the object store *)

Module StoreFacts.
Import Store.

Lemma length_update {A : Type} (i : nat) (f : A -> A) (l : list A) :
  List.length (update i f l) = List.length l.
Proof.
  revert i. induction l as [|x l IH]; intros [|i]; simpl; auto.
Qed.

Lemma nth_error_update_eq {A : Type} (i : nat) (f : A -> A) (l : list A) :
  nth_error (update i f l) i = option_map f (nth_error l i).
Proof.
  revert i. induction l as [|x l IH]; intros [|i]; simpl; auto.
Qed.

Lemma nth_error_update_neq {A : Type} (i j : nat) (f : A -> A) (l : list A) :
  i <> j -> nth_error (update i f l) j = nth_error l j.
Proof.
  revert i j. induction l as [|x l IH]; intros [|i] [|j] Hij; simpl; auto.
  now elim Hij.
Qed.

Lemma nth_error_app_old {A : Type} (l ext : list A) (i : nat) :
  (i < List.length l)%nat -> nth_error (l ++ ext)%list i = nth_error l i.
Proof. intros H. now apply nth_error_app1. Qed.

Lemma nth_error_app_new {A : Type} (l : list A) (x : A) :
  nth_error (l ++ [x])%list (List.length l) = Some x.
Proof.
  rewrite nth_error_app2 by lia. now rewrite Nat.sub_diag.
Qed.

Lemma nth_error_length {A : Type} (l : list A) (i : nat) (x : A) :
  nth_error l i = Some x -> (i < List.length l)%nat.
Proof. intros H. apply nth_error_Some. congruence. Qed.

(** A store that keeps the objects of another is an extension of it. *)
Lemma extension {A : Type} (l l' : list A) :
  (List.length l <= List.length l')%nat ->
  (forall i, (i < List.length l)%nat -> nth_error l' i = nth_error l i) ->
  exists ext, l' = (l ++ ext)%list.
Proof.
  revert l'. induction l as [|x l IH]; intros l' Hlen Hnth.
  - now exists l'.
  - destruct l' as [|y l']; [simpl in Hlen; lia|].
    pose proof (Hnth O ltac:(simpl; lia)) as H0. simpl in H0.
    injection H0 as ->.
    destruct (IH l') as [ext ->].
    + simpl in Hlen. lia.
    + intros i Hi. apply (Hnth (S i)). simpl. lia.
    + now exists ext.
Qed.

(** *** References *)

Lemma deref_root (st : store) (l : nat) :
  deref st (Ref l []) = nth_error st l.
Proof. unfold deref. simpl. now destruct (nth_error st l). Qed.

Lemma write_root (st : store) (l : nat) (new : json) :
  write st (Ref l []) new = update l (fun _ => new) st.
Proof. reflexivity. Qed.

Lemma follow_app (v : json) (p : list step) (s : step) (x y : json) :
  follow v p = Some x -> sub x s = Some y ->
  follow v (p ++ [s])%list = Some y.
Proof.
  revert v. induction p as [|s' p IH]; intros v; simpl.
  - intros [= ->] ->. reflexivity.
  - destruct (sub v s'); [apply IH | discriminate].
Qed.

Lemma deref_child (st : store) (r : ref) (s : step) (x y : json) :
  deref st r = Some x -> sub x s = Some y -> deref st (child r s) = Some y.
Proof.
  unfold deref, child. simpl.
  destruct (nth_error st (root r)); [|discriminate].
  apply follow_app.
Qed.

Lemma deref_length (st : store) (r : ref) (x : json) :
  deref st r = Some x -> (root r < List.length st)%nat.
Proof.
  unfold deref. destruct (nth_error st (root r)) eqn:H; [|discriminate].
  intros _. exact (nth_error_length _ _ H).
Qed.

Lemma deref_same (st st' : store) (r : ref) :
  nth_error st' (root r) = nth_error st (root r) -> deref st' r = deref st r.
Proof. unfold deref. now intros ->. Qed.

(** *** Stability *)

Lemma stable_refl (e : nat) (st : store) : stable e st st.
Proof. split; auto. Qed.

Lemma stable_trans (e : nat) (st1 st2 st3 : store) :
  stable e st1 st2 -> stable e st2 st3 -> stable e st1 st3.
Proof.
  intros [Hlen1 H1] [Hlen2 H2]. split; [lia|].
  intros i Hi Hlt. rewrite H2 by (auto; lia). now apply H1.
Qed.

Lemma stable_app (e : nat) (st ext : store) : stable e st (st ++ ext)%list.
Proof.
  split; [rewrite length_app; lia|].
  intros i _ Hi. now apply nth_error_app_old.
Qed.

Lemma stable_update (e : nat) (f : json -> json) (st : store) :
  stable e st (update e f st).
Proof.
  split; [rewrite length_update; lia|].
  intros i Hi _. apply nth_error_update_neq. auto.
Qed.

Lemma stable_other (a e : nat) (st st' : store) :
  stable a st st' -> e <> a -> (e < List.length st)%nat ->
  nth_error st' e = nth_error st e.
Proof. intros [_ H] Hne Hlt. now apply H. Qed.

Lemma stable_deref (e : nat) (st st' : store) (r : ref) (x : json) :
  stable e st st' -> root r <> e -> deref st r = Some x -> deref st' r = Some x.
Proof.
  intros Hst Hne Hr. rewrite <- Hr. apply deref_same.
  apply (stable_other Hst Hne). exact (deref_length _ _ Hr).
Qed.

Lemma strings_at_length (st : store) (l : nat) (errs : list string) :
  strings_at st l errs -> (l < List.length st)%nat.
Proof. apply nth_error_length. Qed.

(** *** Running a computation *)

Lemma mbind_ok {A B : Type} (m : M A) (k : A -> M B) (st st' : store) (a : A) :
  m st = (Ok a, st') -> mbind m k st = k a st'.
Proof. unfold mbind. now intros ->. Qed.

Lemma mbind_raise {A B : Type} (m : M A) (k : A -> M B) (st st' : store)
    (x : exn) :
  m st = (Raise x, st') -> mbind m k st = (Raise x, st').
Proof. unfold mbind. now intros ->. Qed.

Arguments mbind_ok {A B m k st st' a} _.
Arguments mbind_raise {A B m k st st' x} _.

Lemma read_ok (st : store) (r : ref) (x : json) :
  deref st r = Some x -> read r st = (Ok x, st).
Proof. unfold read. now intros ->. Qed.

(** [errors.extend(source)] on two lists of strings. *)
Lemma extend_strings (st : store) (e l : nat) (acc errs : list string) :
  strings_at st e acc -> strings_at st l errs ->
  extend (Ref e []) (Ref l []) st
  = (Ok tt, update e (fun _ => JList (map JStr (acc ++ errs)%list)) st).
Proof.
  unfold strings_at, extend. rewrite !deref_root. intros -> ->.
  now rewrite write_root, map_app.
Qed.

Lemma append_string (st : store) (e : nat) (acc : list string) (msg : string) :
  strings_at st e acc ->
  append (Ref e []) (JStr msg) st
  = (Ok tt, update e (fun _ => JList (map JStr (acc ++ [msg])%list)) st).
Proof.
  unfold strings_at, append. rewrite deref_root. intros ->.
  now rewrite write_root, map_app.
Qed.

Lemma strings_at_update (st : store) (e : nat) (acc errs : list string) :
  strings_at st e acc ->
  strings_at (update e (fun _ => JList (map JStr errs)) st) e errs.
Proof.
  unfold strings_at. intros H. now rewrite nth_error_update_eq, H.
Qed.

End StoreFacts.

Section StoreTheory.
Import Store StoreFacts.

Local Open Scope list_scope.

Variable repr : json -> string.

Local Abbreviation validate := (_validate_property repr).
Local Abbreviation call := (validate_at repr).

(** *** Blocks that append to [errors] *)

Lemma appends_eq (base : store) (e : nat) (m : M unit)
    (pure pure' : result (list string)) :
  pure = pure' -> appends base e m pure -> appends base e m pure'.
Proof. now intros ->. Qed.

Lemma appends_ret (base : store) (e : nat) : appends base e (ret tt) (Ok []).
Proof.
  intros st acc _ Hacc. exists (Ok tt), st.
  split; [reflexivity|]. split; [apply stable_refl|].
  split; [reflexivity|]. now rewrite app_nil_r.
Qed.

Lemma appends_raise (base : store) (e : nat) (x : exn) :
  appends base e (raise x) (Raise x).
Proof.
  intros st acc _ _. exists (Raise x), st.
  split; [reflexivity|]. split; [apply stable_refl | reflexivity].
Qed.

Lemma appends_seq (base : store) (e : nat) (m1 m2 : M unit)
    (p1 p2 : result (list string)) :
  appends base e m1 p1 -> appends base e m2 p2 ->
  appends base e (m1 ;;; m2) (x <- p1 ;; y <- p2 ;; Ok (x ++ y)%list).
Proof.
  intros H1 H2 st acc Hst Hacc.
  destruct (H1 st acc Hst Hacc) as [r1 [st1 [Hrun1 [Hst1 Hres1]]]].
  destruct p1 as [x|x1]; simpl.
  - destruct Hres1 as [-> Hacc1].
    destruct (H2 st1 (acc ++ x)%list (stable_trans Hst Hst1) Hacc1)
      as [r2 [st2 [Hrun2 [Hst2 Hres2]]]].
    exists r2, st2. rewrite (mbind_ok Hrun1).
    split; [exact Hrun2|]. split; [exact (stable_trans Hst1 Hst2)|].
    destruct p2 as [y|x2]; simpl; [|exact Hres2].
    destruct Hres2 as [-> Hacc2]. split; [reflexivity|].
    now rewrite app_assoc.
  - subst r1. exists (Raise x1), st1. rewrite (mbind_raise Hrun1). auto.
Qed.

Lemma appends_one (base : store) (e : nat) (msg : string) :
  appends base e (append (Ref e []) (JStr msg)) (Ok [msg]).
Proof.
  intros st acc _ Hacc. eexists. eexists.
  split; [exact (append_string msg Hacc)|].
  split; [apply stable_update|].
  split; [reflexivity | exact (strings_at_update _ Hacc)].
Qed.

Lemma append_all_run (e : nat) (messages : list string) :
  forall st acc,
    strings_at st e acc ->
    exists st',
      append_all (Ref e []) messages st = (Ok tt, st') /\
      stable e st st' /\ strings_at st' e (acc ++ messages).
Proof.
  induction messages as [|msg messages IH]; intros st acc Hacc; simpl.
  - exists st. rewrite app_nil_r. split; [reflexivity|].
    split; [apply stable_refl | exact Hacc].
  - rewrite (mbind_ok (append_string msg Hacc)).
    destruct (IH _ (acc ++ [msg])%list (strings_at_update _ Hacc))
      as [st' [Hrun [Hst Hacc']]].
    exists st'. split; [exact Hrun|].
    split; [exact (stable_trans (stable_update _ _ _) Hst)|].
    now rewrite <- app_assoc in Hacc'.
Qed.

(** The errors of a block of tests that only reads, appended one by one. *)
Lemma appends_all (base : store) (e : nat) (p : result (list string)) :
  appends base e (messages <~ lift p ;; append_all (Ref e []) messages) p.
Proof.
  intros st acc _ Hacc. unfold mbind, lift. destruct p as [messages|x].
  - destruct (append_all_run messages Hacc) as [st' [Hrun [Hst Hacc']]].
    exists (Ok tt), st'. auto.
  - exists (Raise x), st. split; [reflexivity|].
    split; [apply stable_refl | reflexivity].
Qed.

Lemma appends_for_each {A B : Type} (base : store) (e : nat)
    (body : A -> M unit) (f : B -> result (list string))
    (l : list A) (l' : list B) :
  Forall2 (fun a b => appends base e (body a) (f b)) l l' ->
  appends base e (for_each l body) (ess <- mapM f l' ;; Ok (List.concat ess)).
Proof.
  induction 1 as [|a b l l' Hab _ IH]; simpl.
  - apply appends_ret.
  - eapply appends_eq; [|exact (appends_seq Hab IH)].
    destruct (f b) as [es|x]; [|reflexivity]. simpl.
    destruct (mapM f l') as [ess|x]; reflexivity.
Qed.

(** A recursive call whose result is added to [errors]. *)
Lemma appends_call (fuel : nat) (base : store) (e : nat) (name' : string)
    (value' schema' : ref) (s' v' : json) :
  refines repr fuel ->
  deref base value' = Some v' ->
  deref base schema' = Some s' ->
  root value' <> e -> root schema' <> e ->
  (depth s' < fuel)%nat ->
  appends base e
    (r <~ call fuel name' value' schema' ;; extend (Ref e []) r)
    (validate s' name' v').
Proof.
  intros IH Hv Hs Hve Hse Hdepth st acc Hst Hacc.
  destruct (IH name' value' schema' st s' v'
              (stable_deref schema' Hst Hse Hs)
              (stable_deref value' Hst Hve Hv) Hdepth)
    as [r [ext [Hrun Hret]]].
  unfold returned in Hret.
  destruct (validate s' name' v') as [errs|x].
  - destruct Hret as [l [-> [Hl Herrs]]].
    rewrite (mbind_ok Hrun).
    assert (Hacc' : strings_at (st ++ ext) e acc).
    { unfold strings_at. rewrite nth_error_app_old; [exact Hacc|].
      exact (strings_at_length Hacc). }
    rewrite (extend_strings Hacc' Herrs).
    eexists. eexists. split; [reflexivity|].
    split; [exact (stable_trans (stable_app e st ext) (stable_update _ _ _))|].
    split; [reflexivity | exact (strings_at_update _ Hacc')].
  - subst r. rewrite (mbind_raise Hrun).
    exists (Raise x), (st ++ ext)%list.
    split; [reflexivity|]. split; [apply stable_app | reflexivity].
Qed.

Lemma appends_lift {A : Type} (base : store) (e : nat) (p : result A)
    (k : A -> M unit) (pure : A -> result (list string)) :
  (forall a, p = Ok a -> appends base e (k a) (pure a)) ->
  appends base e (a <~ lift p ;; k a) (a <- p ;; pure a).
Proof.
  intros Hk st acc Hst Hacc. unfold mbind, lift. destruct p as [a|x]; simpl.
  - exact (Hk a eq_refl st acc Hst Hacc).
  - exists (Raise x), st. split; [reflexivity|].
    split; [apply stable_refl | reflexivity].
Qed.

(** *** Depth and positions *)

Lemma depth_list_nth (l : list json) (i : nat) (x : json) :
  nth_error l i = Some x -> (depth x < depth (JList l))%nat.
Proof.
  simpl. revert i. induction l as [|y l IH]; intros [|i]; simpl;
    try discriminate.
  - intros [= ->]. lia.
  - intros H. specialize (IH i H). lia.
Qed.

Lemma depth_dict_nth (d : Py.dict) (i : nat) (kv : string * json) :
  nth_error d i = Some kv -> (depth (snd kv) < depth (JDict d))%nat.
Proof.
  simpl. revert i. induction d as [|y d IH]; intros [|i]; simpl;
    try discriminate.
  - intros [= ->]. lia.
  - intros H. specialize (IH i H). lia.
Qed.

Lemma depth_dict_lookup (d : Py.dict) (k : string) (v : json) :
  Py.dict_lookup k d = Some v -> (depth v < depth (JDict d))%nat.
Proof.
  intros H. apply dict_lookup_In in H. apply In_nth_error in H.
  destruct H as [i Hi]. exact (depth_dict_nth _ _ Hi).
Qed.

Lemma enumerate_from {A B : Type} (R : nat * A -> B -> Prop) (g : nat * A -> B)
    (l : list A) :
  forall k,
    (forall i x, nth_error l i = Some x -> R ((k + i)%nat, x) (g ((k + i)%nat, x))) ->
    Forall2 R (combine (seq k (List.length l)) l)
              (map g (combine (seq k (List.length l)) l)).
Proof.
  induction l as [|a l IH]; intros k H; simpl; constructor.
  - specialize (H O a eq_refl). now rewrite Nat.add_0_r in H.
  - apply IH. intros i x Hi. specialize (H (S i) x Hi).
    now rewrite Nat.add_succ_r in H.
Qed.

Lemma enumerate_Forall2 {A B : Type} (R : nat * A -> B -> Prop)
    (g : nat * A -> B) (l : list A) :
  (forall i x, nth_error l i = Some x -> R (i, x) (g (i, x))) ->
  Forall2 R (enumerate l) (map g (enumerate l)).
Proof. intros H. apply enumerate_from. exact H. Qed.

Lemma map_snd_enumerate {A : Type} (l : list A) : map snd (enumerate l) = l.
Proof.
  unfold enumerate. generalize O.
  induction l as [|a l IH]; intros k; simpl; [reflexivity|].
  now rewrite IH.
Qed.

(** *** The blocks of the type dispatch *)

Section Blocks.

Variables (fuel : nat) (base : store) (e : nat).
Variables (name : string) (value schema : ref) (v : json) (d : Py.dict).

Hypothesis IH : refines repr fuel.
Hypothesis Hvalue : deref base value = Some v.
Hypothesis Hschema : deref base schema = Some (JDict d).
Hypothesis Hvalue_e : root value <> e.
Hypothesis Hschema_e : root schema <> e.
Hypothesis Hdepth : (depth (JDict d) <= fuel)%nat.

Lemma array_block :
  appends base e (array_at repr (call fuel) name value schema (Ref e []) v d)
          (check_array repr d name v).
Proof.
  unfold array_at, check_array.
  destruct v as [| | | | |l|] eqn:Hv; try apply appends_one.
  apply appends_seq; [|apply appends_all].
  unfold Py.dict_mem, items_validator.
  destruct (Py.dict_lookup "items" d) as [it|] eqn:Hit; [|apply appends_ret].
  simpl option_map. unfold check_items.
  rewrite <- (map_id (enumerate l)) at 2.
  apply appends_for_each. apply enumerate_Forall2.
  intros i item Hitem. simpl fst.
  eapply appends_call.
  - exact IH.
  - apply deref_child with (x := JList l); [exact Hvalue | exact Hitem].
  - apply deref_child with (x := JDict d); [exact Hschema | exact Hit].
  - exact Hvalue_e.
  - exact Hschema_e.
  - pose proof (depth_dict_lookup _ _ Hit). lia.
Qed.

Lemma object_block :
  appends base e (object_at repr (call fuel) name value schema (Ref e []) v d)
          (check_object repr d name v).
Proof.
  unfold object_at, check_object.
  destruct v as [| | | | | |o] eqn:Hv; try apply appends_one.
  apply appends_seq; [|apply appends_all].
  unfold property_validators.
  destruct (Py.dict_lookup "properties" d) as [properties|] eqn:Hprops;
    [|apply appends_ret].
  simpl option_map.
  destruct properties as [| | | | | |ps];
    try (intros st acc _ _; exists (Raise AttributeError), st;
         split; [reflexivity|]; split; [apply stable_refl | reflexivity]).
  eapply appends_eq;
    [|apply (@appends_lift _ base e (Py.items (JDict ps)) _
               (fun entries =>
                  check_properties
                    (map (fun ix : nat * (string * json) =>
                            (fst (snd ix), validate (snd (snd ix))))
                         (enumerate entries)) name o))].
  - simpl. f_equal. symmetry.
    rewrite <- (map_snd_enumerate ps) at 1. rewrite map_map.
    apply map_ext. now intros [i [pn spec]].
  - intros entries [= <-]. unfold check_properties.
    apply appends_for_each. apply enumerate_Forall2.
    intros i [prop_name prop_spec] Hi. simpl.
    unfold Py.dict_mem.
    destruct (Py.dict_lookup prop_name o) as [v'|] eqn:Hprop;
      [|apply appends_ret].
    eapply appends_call.
    + exact IH.
    + apply deref_child with (x := JDict o); [exact Hvalue | exact Hprop].
    + apply deref_child with (x := JDict ps).
      * apply deref_child with (x := JDict d); [exact Hschema | exact Hprops].
      * simpl. now rewrite Hi.
    + exact Hvalue_e.
    + exact Hschema_e.
    + pose proof (depth_dict_lookup _ _ Hprops).
      pose proof (depth_dict_nth _ _ Hi). simpl snd in *. lia.
Qed.

Lemma dispatch_block :
  appends base e
    (dispatch_at repr (call fuel) name value schema (Ref e []) v d)
    (type_dispatch repr d name v).
Proof.
  unfold dispatch_at, type_dispatch. cbv zeta.
  destruct (negb _); [apply appends_ret|].
  destruct (Py.eq_str _ "string"); [apply appends_all|].
  destruct (_ || _); [apply appends_all|].
  destruct (Py.eq_str _ "boolean"); [apply appends_all|].
  destruct (Py.eq_str _ "array"); [apply array_block|].
  destruct (Py.eq_str _ "object"); [apply object_block | apply appends_ret].
Qed.

End Blocks.

(** *** The union block *)

Lemma alloc_run (sub : json) (st : store) :
  alloc sub st = (Ok (Ref (List.length st) []), st ++ [sub]).
Proof. reflexivity. Qed.

Lemma alloc_all_run (subs : list json) :
  forall st,
    exists rs,
      alloc_all subs st = (Ok rs, st ++ subs) /\
      Forall2 (fun r sj => deref (st ++ subs) r = Some sj /\
                           (List.length st <= root r)%nat) rs subs.
Proof.
  induction subs as [|sub subs IH]; intros st; simpl.
  - exists []. rewrite app_nil_r. split; [reflexivity | constructor].
  - rewrite (mbind_ok (alloc_run sub st)).
    destruct (IH (st ++ [sub])) as [rs [Hrun Hrs]].
    rewrite (mbind_ok Hrun). rewrite <- app_assoc in *. simpl app in *.
    exists (Ref (List.length st) [] :: rs). split; [reflexivity|].
    constructor.
    + split; [|simpl; lia]. rewrite deref_root.
      rewrite nth_error_app2 by lia. now rewrite Nat.sub_diag.
    + eapply Forall2_impl; [|exact Hrs]. intros r sj [Hr Hroot].
      split; [exact Hr|]. rewrite length_app in Hroot. simpl in Hroot. lia.
Qed.

Lemma alternatives_at_run (any_of_ref : ref) (any_of : json) (st : store) :
  deref st any_of_ref = Some any_of ->
  match Py.iter any_of with
  | Ok subs =>
      exists rs ext,
        alternatives_at any_of_ref any_of st = (Ok rs, st ++ ext) /\
        Forall2 (fun r sj => deref (st ++ ext) r = Some sj /\
                             (root r = root any_of_ref \/
                              (List.length st <= root r)%nat)) rs subs
  | Raise x => alternatives_at any_of_ref any_of st = (Raise x, st)
  end.
Proof.
  intros Href.
  assert (Hnew : forall subs,
             Py.iter any_of = Ok subs ->
             exists rs ext,
               (subs' <~ lift (Py.iter any_of) ;; alloc_all subs') st
               = (Ok rs, st ++ ext) /\
               Forall2 (fun r sj => deref (st ++ ext) r = Some sj /\
                                    (root r = root any_of_ref \/
                                     (List.length st <= root r)%nat)) rs subs).
  { intros subs Hiter. unfold mbind, lift. rewrite Hiter.
    destruct (alloc_all_run subs st) as [rs [Hrun Hrs]].
    exists rs, subs. split; [exact Hrun|].
    eapply Forall2_impl; [|exact Hrs]. intros r sj [Hr Hroot]. auto. }
  destruct any_of as [| | | |t|subs|kvs]; simpl Py.iter;
    try reflexivity; try (apply Hnew; reflexivity).
  exists (map (fun ix => child any_of_ref (Idx (fst ix))) (enumerate subs)), [].
  rewrite app_nil_r. split; [reflexivity|].
  apply Forall2_map_l.
  rewrite <- (map_snd_enumerate subs) at 2.
  apply enumerate_Forall2. intros i sub Hi. simpl.
  split; [|now left].
  apply deref_child with (x := JList subs); [exact Href | exact Hi].
Qed.

Lemma iter_depth (any_of : json) (subs : list json) :
  Py.iter any_of = Ok subs ->
  Forall (fun sj => (depth sj <= depth any_of)%nat) subs.
Proof.
  destruct any_of as [| | | |t|l|kvs]; simpl; try discriminate;
    intros [= <-].
  - apply Forall_forall. intros sj Hin. apply in_map_iff in Hin.
    destruct Hin as [c [<- _]]. simpl. lia.
  - apply Forall_forall. intros sj Hin. apply In_nth_error in Hin.
    destruct Hin as [i Hi]. pose proof (depth_list_nth _ _ Hi). simpl in *. lia.
  - apply Forall_forall. intros sj Hin. apply in_map_iff in Hin.
    destruct Hin as [kv [<- _]]. simpl. lia.
Qed.

Lemma Forall2_Forall_r {A B : Type} (P : A -> B -> Prop) (Q : B -> Prop)
    (l : list A) (l' : list B) :
  Forall2 P l l' -> Forall Q l' -> Forall2 (fun a b => P a b /\ Q b) l l'.
Proof.
  induction 1; intros HQ; constructor; inversion HQ; subst; auto.
Qed.

Section Union.

Variables (fuel : nat) (a : nat) (name : string) (value : ref) (v : json).
Variable base : store.

Hypothesis IH : refines repr fuel.
Hypothesis Hvalue : deref base value = Some v.
Hypothesis Hvalue_a : root value <> a.

Lemma any_of_loop_at_run (rs : list ref) (subs : list json) :
  Forall2 (fun r sj => (deref base r = Some sj /\ root r <> a) /\
                       (depth sj < fuel)%nat) rs subs ->
  forall st acc,
    stable a base st -> strings_at st a acc ->
    exists r st',
      any_of_loop_at (call fuel name value) rs (Ref a []) st = (r, st') /\
      stable a st st' /\
      match any_of_loop (map validate subs) name v acc with
      | Ok (any_valid, errs) => r = Ok any_valid /\ strings_at st' a errs
      | Raise x => r = Raise x
      end.
Proof.
  induction 1 as [|r0 sj rs subs [[Hr0 Hroot] Hdepth] _ IHloop];
    intros st acc Hst Hacc.
  - exists (Ok false), st. split; [reflexivity|].
    split; [apply stable_refl|]. simpl. auto.
  - cbn [any_of_loop_at map any_of_loop].
    destruct (@IH name value r0 st sj v
                (stable_deref r0 Hst Hroot Hr0)
                (stable_deref value Hst Hvalue_a Hvalue) Hdepth)
      as [r [ext [Hrun Hret]]].
    unfold returned in Hret.
    destruct (validate sj name v) as [errs|x]; simpl bind.
    + destruct Hret as [l [-> [Hl Herrs]]].
      rewrite (mbind_ok Hrun).
      assert (Hread : read (Ref l []) (st ++ ext)
                      = (Ok (JList (map JStr errs)), st ++ ext)).
      { apply read_ok. rewrite deref_root. exact Herrs. }
      rewrite (mbind_ok Hread).
      assert (Hacc' : strings_at (st ++ ext) a acc).
      { unfold strings_at. rewrite nth_error_app_old; [exact Hacc|].
        exact (strings_at_length Hacc). }
      destruct errs as [|err errs].
      * exists (Ok true), (st ++ ext). split; [reflexivity|].
        split; [apply stable_app | auto].
      * change (negb (Py.truthy (JList (map JStr (err :: errs))))) with false.
        cbv iota.
        rewrite (mbind_ok (extend_strings Hacc' Herrs)).
        match goal with
        | |- context [any_of_loop_at _ _ _ ?st2] =>
            destruct (IHloop st2 (acc ++ err :: errs))
              as [r' [st' [Hrun' [Hst' Hres']]]]
        end.
        { exact (stable_trans Hst
                   (stable_trans (stable_app a st ext) (stable_update _ _ _))). }
        { exact (strings_at_update _ Hacc'). }
        exists r', st'. split; [exact Hrun'|].
        split; [|exact Hres'].
        exact (stable_trans
                 (stable_trans (stable_app a st ext) (stable_update _ _ _))
                 Hst').
    + subst r. rewrite (mbind_raise Hrun).
      exists (Raise x), (st ++ ext).
      split; [reflexivity|]. split; [apply stable_app | reflexivity].
Qed.

End Union.

Lemma stable_later (a e : nat) (st1 st2 st3 : store) :
  (List.length st1 <= a)%nat ->
  stable e st1 st2 -> stable a st2 st3 -> stable e st1 st3.
Proof.
  intros Ha [Hlen12 H12] [Hlen23 H23]. split; [lia|].
  intros i Hi Hlt. rewrite H23 by lia. now apply H12.
Qed.

Section UnionBlock.

Variables (fuel : nat) (base : store) (e : nat).
Variables (name : string) (value schema : ref) (v : json) (d : Py.dict).

Hypothesis IH : refines repr fuel.
Hypothesis Hvalue : deref base value = Some v.
Hypothesis Hschema : deref base schema = Some (JDict d).
Hypothesis Hvalue_e : root value <> e.
Hypothesis Hschema_e : root schema <> e.
Hypothesis Hdepth : (depth (JDict d) <= fuel)%nat.

Lemma any_of_block :
  appends base e (any_of_at repr (call fuel) name value schema (Ref e []) d)
          (any_of_part repr d name v).
Proof.
  unfold any_of_at, any_of_part, alternatives.
  destruct (Py.dict_lookup "anyOf" d) as [any_of|] eqn:Hany;
    [|apply appends_ret].
  simpl option_map. intros st acc Hst Hacc.
  pose proof (strings_at_length Hacc) as He.
  pose proof (proj1 Hst) as Hbase.
  pose proof (deref_length _ _ Hvalue) as Hvalue_lt.
  pose proof (deref_length _ _ Hschema) as Hschema_lt.
  rewrite (mbind_ok (alloc_run (JList []) st)).
  assert (Hst_a : stable e st (st ++ [JList []])) by apply stable_app.
  assert (Hany_ref : deref (st ++ [JList []]) (child schema (Key "anyOf"))
                     = Some any_of).
  { apply deref_child with (x := JDict d); [|exact Hany].
    exact (stable_deref schema (stable_trans Hst Hst_a) Hschema_e Hschema). }
  pose proof (@alternatives_at_run _ _ _ Hany_ref) as Halts.
  destruct (Py.iter any_of) as [subs|x] eqn:Hiter.
  2: { rewrite (mbind_raise Halts). exists (Raise x), (st ++ [JList []]).
       split; [reflexivity|]. split; [exact Hst_a | reflexivity]. }
  destruct Halts as [rs [ext [Hrun Hrs]]]. rewrite (mbind_ok Hrun).
  rewrite bind_Ok, bind_Ok.
  assert (Hst_b : stable e st ((st ++ [JList []]) ++ ext)).
  { exact (stable_trans Hst_a (stable_app e _ ext)). }
  assert (Hsubs : Forall2 (fun r sj =>
              (deref ((st ++ [JList []]) ++ ext) r = Some sj /\
               root r <> List.length st) /\ (depth sj < fuel)%nat) rs subs).
  { apply Forall2_Forall_r.
    - eapply Forall2_impl; [|exact Hrs]. intros r sj [Hr Hroot].
      split; [exact Hr|]. simpl in Hroot. rewrite length_app in Hroot.
      simpl in Hroot. lia.
    - pose proof (iter_depth _ Hiter) as Hd. pose proof (depth_dict_lookup _ _ Hany).
      eapply Forall_impl; [|exact Hd]. intros sj Hsj. simpl in Hsj. lia. }
  assert (Hany_errors : strings_at ((st ++ [JList []]) ++ ext) (List.length st) []).
  { unfold strings_at. rewrite nth_error_app_old.
    - apply nth_error_app_new.
    - rewrite length_app. simpl. lia. }
  assert (Hvalue_a : root value <> List.length st) by lia.
  destruct (@any_of_loop_at_run fuel (List.length st) name value v
              ((st ++ [JList []]) ++ ext) IH
              (stable_deref value (stable_trans Hst Hst_b) Hvalue_e Hvalue)
              Hvalue_a rs subs Hsubs _ [] (stable_refl _ _) Hany_errors)
    as [r [st_c [Hloop [Hst_c Hres]]]].
  unfold check_any_of.
  assert (Hframe : stable e st st_c).
  { exact (stable_later (Nat.le_refl _) Hst_b Hst_c). }
  assert (Hacc_c : strings_at st_c e acc).
  { unfold strings_at.
    rewrite (stable_other Hst_c);
      [|lia | rewrite !length_app; simpl; lia].
    rewrite !nth_error_app_old;
      [exact Hacc | lia | rewrite length_app; simpl; lia]. }
  destruct (any_of_loop (map validate subs) name v []) as [[any_valid errs]|x].
  2: { subst r. rewrite (mbind_raise Hloop). exists (Raise x), st_c.
       split; [reflexivity|]. split; [exact Hframe | reflexivity]. }
  destruct Hres as [-> Herrs]. rewrite (mbind_ok Hloop), bind_Ok.
  cbv beta iota.
  destruct any_valid.
  { exists (Ok tt), st_c. split; [reflexivity|]. split; [exact Hframe|].
    split; [reflexivity|]. now rewrite app_nil_r. }
  rewrite (mbind_ok (append_string (no_match name) Hacc_c)).
  pose proof (strings_at_update (acc ++ [no_match name]) Hacc_c) as Hacc_d.
  pose proof (stable_update e
                (fun _ => JList (map JStr (acc ++ [no_match name]))) st_c)
    as Hst_d.
  set (st_d := update e (fun _ => JList (map JStr (acc ++ [no_match name]))) st_c)
    in *.
  assert (Herrs_d : deref st_d (Ref (List.length st) [])
                    = Some (JList (map JStr errs))).
  { rewrite deref_root. unfold st_d. rewrite nth_error_update_neq by lia.
    exact Herrs. }
  rewrite (mbind_ok (@read_ok _ _ _ Herrs_d)).
  change (Py.iter (JList (map JStr errs))) with (Ok (map JStr errs)).
  rewrite (mbind_ok (st' := st_d) (a := map JStr errs) eq_refl).
  rewrite (mbind_ok (alloc_run _ st_d)).
  match goal with
  | |- context [st_d ++ [?prefixed]] =>
      assert (Hprefixed : strings_at (st_d ++ [prefixed]) (List.length st_d)
                            (map indent errs))
  end.
  { unfold strings_at. rewrite nth_error_app_new. rewrite !map_map.
    reflexivity. }
  match type of Hprefixed with
  | strings_at ?st_e _ _ =>
      assert (Hacc_e : strings_at st_e e (acc ++ [no_match name]))
  end.
  { unfold strings_at. rewrite nth_error_app_old; [exact Hacc_d|].
    exact (strings_at_length Hacc_d). }
  rewrite (extend_strings Hacc_e Hprefixed).
  eexists. eexists. split; [reflexivity|]. split.
  - exact (stable_trans Hframe
             (stable_trans Hst_d
                (stable_trans (stable_app e st_d _) (stable_update _ _ _)))).
  - split; [reflexivity|].
    rewrite <- app_assoc. exact (strings_at_update _ Hacc_e).
Qed.

End UnionBlock.

(** *** The call *)

Lemma seq_ret {A : Type} (m1 m2 : M unit) (x : A) (st : store) :
  (m1 ;;; m2 ;;; ret x) st =
  match (m1 ;;; m2) st with
  | (Ok _, st') => (Ok x, st')
  | (Raise err, st') => (Raise err, st')
  end.
Proof.
  unfold mbind, ret. destruct (m1 st) as [[[]|err] st1]; [|reflexivity].
  destruct (m2 st1) as [[[]|err] st2]; reflexivity.
Qed.

(** What is stable but for an object made after [st] extends [st]. *)
Lemma stable_extension (st st' : store) (x : json) :
  stable (List.length st) (st ++ [x]) st' -> exists ext, st' = st ++ ext.
Proof.
  intros [Hlen Hnth]. apply extension.
  - rewrite length_app in Hlen. simpl in Hlen. lia.
  - intros i Hi. rewrite Hnth.
    + now apply nth_error_app_old.
    + lia.
    + rewrite length_app. simpl. lia.
Qed.

Theorem validate_at_refines (fuel : nat) : refines repr fuel.
Proof.
  induction fuel as [|fuel IH]; intros name value schema st s v Hs Hv Hd;
    [lia|].
  cbn [validate_at].
  rewrite (mbind_ok (@read_ok _ _ _ Hv)), (mbind_ok (@read_ok _ _ _ Hs)).
  rewrite (mbind_ok (alloc_run (JList []) st)).
  rewrite _validate_property_eq.
  assert (Hnull :
             exists r ext,
               (messages <~ lift (null_check name s) ;;
                alloc (JList (map JStr messages))) (st ++ [JList []])
               = (r, st ++ ext) /\
               returned st (st ++ ext) r (null_check name s)).
  { unfold mbind, lift, returned.
    destruct (null_check name s) as [messages|x].
    - exists (Ok (Ref (List.length (st ++ [JList []])) [])),
             ([JList []] ++ [JList (map JStr messages)]).
      rewrite app_assoc. split; [reflexivity|].
      eexists. split; [reflexivity|]. split.
      + rewrite length_app. lia.
      + unfold strings_at. apply nth_error_app_new.
    - exists (Raise x), [JList []]. auto. }
  assert (Hrest :
            exists r ext,
              match s with
              | JDict d =>
                  dispatch_at repr (call fuel) name value schema
                    (Ref (List.length st) []) v d ;;;
                  any_of_at repr (call fuel) name value schema
                    (Ref (List.length st) []) d ;;;
                  ret (Ref (List.length st) [])
              | _ => raise AttributeError
              end (st ++ [JList []]) = (r, st ++ ext) /\
              returned st (st ++ ext) r
                match s with
                | JDict d =>
                    errors <- type_dispatch repr d name v ;;
                    any_errors <- any_of_part repr d name v ;;
                    Ok (errors ++ any_errors)
                | _ => Raise AttributeError
                end).
  { assert (Hraise : exists r ext,
               raise AttributeError (st ++ [JList []]) = (r, st ++ ext) /\
               returned st (st ++ ext) r (Raise AttributeError)).
    { exists (Raise AttributeError), [JList []]. split; reflexivity. }
    destruct s as [| | | | | |d]; try exact Hraise.
    pose proof (deref_length _ _ Hv) as Hv_lt.
    pose proof (deref_length _ _ Hs) as Hs_lt.
    assert (Hv1 : deref (st ++ [JList []]) value = Some v).
    { apply (stable_deref value (stable_app (S (List.length st)) st _));
        [lia | exact Hv]. }
    assert (Hs1 : deref (st ++ [JList []]) schema = Some (JDict d)).
    { apply (stable_deref schema (stable_app (S (List.length st)) st _));
        [lia | exact Hs]. }
    assert (Hve : root value <> List.length st) by lia.
    assert (Hse : root schema <> List.length st) by lia.
    assert (Hdepth : (depth (JDict d) <= fuel)%nat) by lia.
    pose proof (@dispatch_block fuel (st ++ [JList []]) (List.length st)
                  name value schema v d IH Hv1 Hs1 Hve Hse Hdepth) as Hdispatch.
    pose proof (@any_of_block fuel (st ++ [JList []]) (List.length st)
                  name value schema v d IH Hv1 Hs1 Hve Hse Hdepth) as Hany.
    pose proof (appends_seq Hdispatch Hany) as Hblock.
    destruct (Hblock (st ++ [JList []]) []
                (stable_refl _ _) (nth_error_app_new st (JList [])))
      as [r [st' [Hrun [Hst' Hres]]]].
    destruct (@stable_extension _ _ _ Hst') as [ext ->].
    rewrite seq_ret, Hrun. unfold returned.
    destruct (errors <- type_dispatch repr d name v ;;
              any_errors <- any_of_part repr d name v ;;
              Ok (errors ++ any_errors)) as [errs|x].
    - destruct Hres as [-> Herrs]. eexists. exists ext.
      split; [reflexivity|]. exists (List.length st).
      split; [reflexivity|]. split; [lia | exact Herrs].
    - subst r. exists (Raise x), ext. split; reflexivity. }
  destruct v; [exact Hnull | exact Hrest ..].
Qed.

(** *** The top-level entry *)

Section ResponseBlock.

Variables (fuel : nat) (base : store) (e : nat).
Variables (response schema : ref) (resp : json) (d : Py.dict).

Hypothesis Hresponse : deref base response = Some resp.
Hypothesis Hschema : deref base schema = Some (JDict d).
Hypothesis Hresponse_e : root response <> e.
Hypothesis Hschema_e : root schema <> e.
Hypothesis Hdepth : (depth (JDict d) <= fuel)%nat.

Lemma response_properties_block (entries : Py.dict) :
  Py.dict_get d "properties" (JDict []) = JDict entries ->
  appends base e
    (for_each (enumerate entries)
       (fun ientry =>
          let prop_name := fst (snd ientry) in
          present <~ lift (Py.contains (JStr prop_name) resp) ;;
          if present : bool then
            v <~ lift (Py.getitem resp prop_name) ;;
            prop_errors <~
              call fuel prop_name (child response (Key prop_name))
                (child (child schema (Key "properties")) (Entry (fst ientry))) ;;
            extend (Ref e []) prop_errors
          else ret tt))
    (prop_errors <-
       mapM (fun '(prop_name, prop_spec) =>
               present <- Py.contains (JStr prop_name) resp ;;
               if present : bool then
                 v <- Py.getitem resp prop_name ;;
                 validate prop_spec prop_name v
               else Ok []) entries ;;
     Ok (List.concat prop_errors)).
Proof.
  intros Hentries.
  rewrite <- (map_snd_enumerate entries) at 2. rewrite mapM_map.
  apply appends_for_each.
  rewrite <- (map_id (enumerate entries)) at 2.
  apply enumerate_Forall2. intros i [prop_name prop_spec] Hi.
  cbv beta zeta. simpl fst. simpl snd.
  apply appends_lift. intros present _. destruct present; [|apply appends_ret].
  apply appends_lift. intros v Hitem.
  destruct resp as [| | | | | |o]; try discriminate.
  unfold Py.getitem in Hitem.
  destruct (Py.dict_lookup prop_name o) as [v'|] eqn:Hprop; [|discriminate].
  injection Hitem as ->.
  assert (Hprops : Py.dict_lookup "properties" d = Some (JDict entries)).
  { unfold Py.dict_get in Hentries.
    destruct (Py.dict_lookup "properties" d); [now rewrite Hentries|].
    injection Hentries as <-. destruct i; discriminate. }
  eapply appends_call.
  - apply validate_at_refines.
  - apply deref_child with (x := JDict o); [exact Hresponse | exact Hprop].
  - apply deref_child with (x := JDict entries).
    + apply deref_child with (x := JDict d); [exact Hschema | exact Hprops].
    + simpl. now rewrite Hi.
  - exact Hresponse_e.
  - exact Hschema_e.
  - pose proof (depth_dict_lookup _ _ Hprops).
    pose proof (depth_dict_nth _ _ Hi). simpl snd in *. lia.
Qed.

Lemma appends_alloc (x : json) (k : ref -> M unit)
    (pure : result (list string)) :
  (forall r, appends base e (k r) pure) ->
  appends base e (r <~ alloc x ;; k r) pure.
Proof.
  intros Hk st acc Hst Hacc.
  rewrite (mbind_ok (alloc_run x st)).
  destruct (Hk (Ref (List.length st) []) (st ++ [x]) acc)
    as [r [st' [Hrun [Hst' Hres]]]].
  - exact (stable_trans Hst (stable_app e st [x])).
  - unfold strings_at. rewrite nth_error_app_old; [exact Hacc|].
    exact (strings_at_length Hacc).
  - exists r, st'. split; [exact Hrun|]. split; [|exact Hres].
    exact (stable_trans (stable_app e st [x]) Hst').
Qed.

Lemma appends_messages (messages : list string) :
  appends base e (append_all (Ref e []) messages) (Ok messages).
Proof.
  intros st acc _ Hacc.
  destruct (append_all_run messages Hacc) as [st' [Hrun [Hst' Hacc']]].
  exists (Ok tt), st'. auto.
Qed.

Lemma response_checks_block :
  appends base e
    (response_checks repr fuel response schema (Ref e []) resp (JDict d))
    (validate_response repr resp (JDict d)).
Proof.
  unfold response_checks, validate_response.
  apply appends_lift. intros required _.
  apply appends_alloc. intros _.
  apply appends_lift. intros props _.
  apply appends_lift. intros missing _.
  eapply appends_eq;
    [|apply appends_seq;
       [apply appends_messages
       |apply appends_lift; intros properties Hproperties;
        apply appends_alloc; intros _;
        apply appends_lift; intros entries Hentries;
        apply response_properties_block]].
  - unfold Py.get. rewrite !bind_Ok.
    destruct (Py.items (Py.dict_get d "properties" (JDict []))) as [entries|];
      [|reflexivity].
    rewrite !bind_Ok.
    match goal with
    | |- context [mapM ?f entries] => destruct (mapM f entries); reflexivity
    end.
  - injection Hproperties as <-.
    destruct (Py.dict_get d "properties" (JDict [])); try discriminate.
    now injection Hentries as ->.
Qed.

End ResponseBlock.

Theorem validate_response_at_refines (fuel : nat) (response schema : ref)
    (st : store) (s resp : json) :
  deref st schema = Some s ->
  deref st response = Some resp ->
  (depth s <= fuel)%nat ->
  exists r ext,
    validate_response_at repr fuel response schema st = (r, st ++ ext) /\
    returned st (st ++ ext) r (validate_response repr resp s).
Proof.
  intros Hs Hresp Hd. unfold validate_response_at.
  rewrite (mbind_ok (@read_ok _ _ _ Hresp)), (mbind_ok (@read_ok _ _ _ Hs)).
  rewrite (mbind_ok (alloc_run (JList []) st)).
  destruct s as [| | | | | |d];
    try (exists (Raise AttributeError), [JList []]; split; reflexivity).
  pose proof (deref_length _ _ Hresp) as Hresp_lt.
  pose proof (deref_length _ _ Hs) as Hs_lt.
  assert (Hresp1 : deref (st ++ [JList []]) response = Some resp).
  { apply (stable_deref response (stable_app (S (List.length st)) st _));
      [lia | exact Hresp]. }
  assert (Hs1 : deref (st ++ [JList []]) schema = Some (JDict d)).
  { apply (stable_deref schema (stable_app (S (List.length st)) st _));
      [lia | exact Hs]. }
  assert (Hre : root response <> List.length st) by lia.
  assert (Hse : root schema <> List.length st) by lia.
  pose proof (@response_checks_block fuel (st ++ [JList []]) (List.length st)
                response schema resp d Hresp1 Hs1 Hre Hse Hd) as Hblock.
  destruct (Hblock (st ++ [JList []]) []
              (stable_refl _ _) (nth_error_app_new st (JList [])))
    as [r [st' [Hrun [Hst' Hres]]]].
  destruct (@stable_extension _ _ _ Hst') as [ext ->].
  unfold mbind at 1. rewrite Hrun. unfold returned.
  destruct (validate_response repr resp (JDict d)) as [errs|x].
  - destruct Hres as [-> Herrs]. eexists. exists ext.
    split; [reflexivity|]. exists (List.length st).
    split; [reflexivity|]. split; [lia | exact Herrs].
  - subst r. exists (Raise x), ext. split; reflexivity.
Qed.

(** *** Purity *)

Lemma returned_observed (st st' : store) (r : result ref)
    (pure : result (list string)) :
  returned st st' r pure -> observed st' r = expected pure.
Proof.
  unfold returned, observed, expected. destruct pure as [errs|x].
  - intros [l [-> [_ Herrs]]]. rewrite deref_root.
    unfold strings_at in Herrs. now rewrite Herrs.
  - now intros ->.
Qed.

Lemma deref_app (st ext : store) (r : ref) (x : json) :
  deref st r = Some x -> deref (st ++ ext) r = Some x.
Proof.
  intros Hr. pose proof (deref_length _ _ Hr) as Hlt.
  apply (stable_deref r (stable_app (List.length st) st ext)); [lia | exact Hr].
Qed.

(** C9. A validation creates objects and changes none that existed: the
    store after the call is the store before it followed by new objects,
    so the schema document and the input value are what they were.  What
    the caller gets is the result of the validator above, a function of
    the values of the fragment and of the input alone; validating the same
    value a second time against the same fragment, in the store that the
    first validation left, gives the same list, element for element.  This
    holds for [_validate_property] and for [validate_response]. *)
Theorem purity_and_idempotence (fuel : nat) (st : store) :
  (forall name value schema s v,
      deref st schema = Some s ->
      deref st value = Some v ->
      (depth s < fuel)%nat ->
      exists r1 ext1 r2 ext2,
        validate_at repr fuel name value schema st = (r1, st ++ ext1) /\
        validate_at repr fuel name value schema (st ++ ext1)
        = (r2, (st ++ ext1) ++ ext2) /\
        deref ((st ++ ext1) ++ ext2) schema = Some s /\
        deref ((st ++ ext1) ++ ext2) value = Some v /\
        observed (st ++ ext1) r1 = expected (validate s name v) /\
        observed ((st ++ ext1) ++ ext2) r2 = observed (st ++ ext1) r1) /\
  (forall response schema s resp,
      deref st schema = Some s ->
      deref st response = Some resp ->
      (depth s <= fuel)%nat ->
      exists r1 ext1 r2 ext2,
        validate_response_at repr fuel response schema st = (r1, st ++ ext1) /\
        validate_response_at repr fuel response schema (st ++ ext1)
        = (r2, (st ++ ext1) ++ ext2) /\
        deref ((st ++ ext1) ++ ext2) schema = Some s /\
        deref ((st ++ ext1) ++ ext2) response = Some resp /\
        observed (st ++ ext1) r1 = expected (validate_response repr resp s) /\
        observed ((st ++ ext1) ++ ext2) r2 = observed (st ++ ext1) r1).
Proof.
  split.
  - intros name value schema s v Hs Hv Hd.
    destruct (@validate_at_refines fuel name value schema st s v Hs Hv Hd)
      as [r1 [ext1 [Hrun1 Hret1]]].
    destruct (@validate_at_refines fuel name value schema (st ++ ext1) s v
                (@deref_app st ext1 _ _ Hs) (@deref_app st ext1 _ _ Hv) Hd)
      as [r2 [ext2 [Hrun2 Hret2]]].
    exists r1, ext1, r2, ext2.
    split; [exact Hrun1|]. split; [exact Hrun2|].
    split; [now apply deref_app, deref_app|].
    split; [now apply deref_app, deref_app|].
    rewrite (@returned_observed _ _ _ _ Hret1), (@returned_observed _ _ _ _ Hret2).
    auto.
  - intros response schema s resp Hs Hresp Hd.
    destruct (@validate_response_at_refines fuel response schema st s resp
                Hs Hresp Hd)
      as [r1 [ext1 [Hrun1 Hret1]]].
    destruct (@validate_response_at_refines fuel response schema (st ++ ext1)
                s resp (@deref_app st ext1 _ _ Hs)
                (@deref_app st ext1 _ _ Hresp) Hd)
      as [r2 [ext2 [Hrun2 Hret2]]].
    exists r1, ext1, r2, ext2.
    split; [exact Hrun1|]. split; [exact Hrun2|].
    split; [now apply deref_app, deref_app|].
    split; [now apply deref_app, deref_app|].
    rewrite (@returned_observed _ _ _ _ Hret1), (@returned_observed _ _ _ _ Hret2).
    auto.
Qed.

End StoreTheory.

(** * String formats *)

Module ShapeTheory.
Import Re ReTheory.

Lemma lang_eps_inv (w : string) : lang Eps w <-> w = "".
Proof. split; [inversion 1; reflexivity | intros ->; constructor]. Qed.

Lemma lang_cat_inv (r s : regex) (w : string) :
  lang (Cat r s) w <-> exists u v, w = u ++ v /\ lang r u /\ lang s v.
Proof.
  split.
  - inversion 1 as [| |r' s' u v Hu Hv| | | |]; subst. now exists u, v.
  - intros (u & v & -> & Hu & Hv). now constructor.
Qed.

Lemma lang_class_inv (p : ascii -> bool) (w : string) :
  lang (Class p) w <-> exists c, w = String c "" /\ p c = true.
Proof.
  split.
  - inversion 1 as [|q c Hc| | | | |]; subst. now exists c.
  - intros (c & -> & Hc). now constructor.
Qed.

Lemma lang_star_class (p : ascii -> bool) (w : string) :
  lang (Star (Class p)) w <-> every p w = true.
Proof.
  split.
  - intros H. remember (Star (Class p)) as R eqn:HR.
    induction H as [| | | | | |r u v Hu _ Hv IHv]; try discriminate.
    + reflexivity.
    + injection HR as ->. specialize (IHv eq_refl).
      apply lang_class_inv in Hu. destruct Hu as (c & -> & Hc).
      simpl. now rewrite Hc.
  - induction w as [|c w IH]; simpl; [constructor|].
    intros H. apply andb_true_iff in H. destruct H as [Hc Hw].
    apply (@lang_star_cons (Class p) (String c "") w); [|auto].
    now constructor.
Qed.

Lemma lang_plus_class (p : ascii -> bool) (w : string) :
  lang (Plus (Class p)) w <-> w <> "" /\ every p w = true.
Proof.
  unfold Plus. rewrite lang_cat_inv. split.
  - intros (u & v & -> & Hu & Hv).
    apply lang_class_inv in Hu. destruct Hu as (c & -> & Hc).
    apply lang_star_class in Hv. simpl. rewrite Hc, Hv.
    split; [discriminate | reflexivity].
  - intros [Hne Hall]. destruct w as [|c w]; [now elim Hne|].
    simpl in Hall. apply andb_true_iff in Hall. destruct Hall as [Hc Hw].
    exists (String c ""), w. split; [reflexivity|].
    split; [now constructor | now apply lang_star_class].
Qed.

Lemma lang_rep_class (p : ascii -> bool) (n : nat) (w : string) :
  lang (Rep n (Class p)) w <-> group p n w = true.
Proof.
  unfold group. revert w. induction n as [|n IH]; intros w; simpl Rep.
  - rewrite lang_eps_inv. split.
    + now intros ->.
    + destruct w; [reflexivity | discriminate].
  - rewrite lang_cat_inv. split.
    + intros (u & v & -> & Hu & Hv).
      apply lang_class_inv in Hu. destruct Hu as (c & -> & Hc).
      apply IH in Hv. simpl. now rewrite Hc.
    + destruct w as [|c w]; [discriminate|]. simpl.
      intros H. apply andb_true_iff in H. destruct H as [Hlen H].
      apply andb_true_iff in H. destruct H as [Hc Hw].
      exists (String c ""), w. split; [reflexivity|].
      split; [now constructor|]. apply IH. now rewrite Hlen, Hw.
Qed.

Lemma lang_text (t w : string) : lang (Text t) w <-> w = t.
Proof.
  revert w. induction t as [|c t IH]; intros w; simpl Text.
  - apply lang_eps_inv.
  - rewrite lang_cat_inv. split.
    + intros (u & v & -> & Hu & Hv).
      apply PathTheory.lang_lit in Hu. apply IH in Hv. now subst.
    + intros ->. exists (String c ""), t. split; [reflexivity|].
      split; [now apply PathTheory.lang_lit | now apply IH].
Qed.

Lemma lang_opt (r : regex) (w : string) : lang (Opt r) w <-> lang r w \/ w = "".
Proof.
  unfold Opt. split.
  - inversion 1; subst; [now left|]. right. now apply lang_eps_inv.
  - intros [H| ->]; [now apply lang_alt_l | apply lang_alt_r; constructor].
Qed.

Lemma lang_any (w : string) : lang (Star (Class any)) w.
Proof. apply lang_star_class. induction w; simpl; auto. Qed.

Lemma match_prefix_lang (p : regex) (s : string) :
  match_prefix p s = true <-> exists u v, s = u ++ v /\ lang p u.
Proof.
  unfold match_prefix. rewrite matches_lang, lang_cat_inv. split.
  - intros (u & v & -> & Hu & _). now exists u, v.
  - intros (u & v & -> & Hu). exists u, v. split; [reflexivity|].
    split; [exact Hu | apply lang_any].
Qed.

Lemma every_app (p : ascii -> bool) (u v : string) :
  every p (u ++ v) = every p u && every p v.
Proof.
  induction u as [|c u IH]; simpl; [reflexivity|].
  now rewrite IH, andb_assoc.
Qed.

Lemma length_app (u v : string) :
  String.length (u ++ v) = (String.length u + String.length v)%nat.
Proof. induction u as [|c u IH]; simpl; [reflexivity | now rewrite IH]. Qed.

Lemma ends_with_newline_app (w : string) :
  ends_with_newline (w ++ line_end) = true.
Proof.
  induction w as [|c w IH]; [reflexivity|].
  simpl. destruct (w ++ line_end) eqn:Hw; [|exact IH].
  destruct w; discriminate.
Qed.

(** The words of an anchored pattern, up to the final newline. *)
Lemma match_anchored_shape (p : regex) (s : string) :
  match_anchored p s = true <-> exists w, up_to_newline s w /\ lang p w.
Proof.
  rewrite PathTheory.match_anchored_lang. unfold up_to_newline, line_end. split.
  - intros [H|(w & -> & H)]; [exists s | exists w]; auto.
  - intros (w & [->| ->] & H); [now left | right; now exists w].
Qed.

End ShapeTheory.

Section FormatTheory.
Import Re ReTheory ShapeTheory.

(** The outcome of a format check is decided by its pattern. *)
Lemma format_accepts (b : bool) (e : string) :
  (if negb b then [e] else []) = [] <-> b = true.
Proof. destruct b; simpl; split; congruence. Qed.

Ltac split_cat H :=
  repeat match type of H with
  | lang (Cat _ _) _ =>
      let u := fresh "u" in let v := fresh "v" in let Hu := fresh "Hu" in
      apply lang_cat_inv in H; destruct H as (u & v & -> & Hu & H)
  end.

Ltac read_parts :=
  repeat match goal with
  | H : lang (Lit _) _ |- _ => apply PathTheory.lang_lit in H; subst
  | H : lang (Text _) _ |- _ => apply lang_text in H; subst
  | H : lang Eps _ |- _ => apply lang_eps_inv in H; subst
  | H : lang (Rep _ (Class _)) _ |- _ => apply lang_rep_class in H
  | H : lang (Plus (Class _)) _ |- _ => apply lang_plus_class in H
  | H : lang (Star (Class _)) _ |- _ => apply lang_star_class in H
  | H : lang (Opt _) _ |- _ => apply lang_opt in H
  | H : lang (Class _) _ |- _ =>
      let c := fresh "c" in let Hc := fresh "Hc" in
      apply lang_class_inv in H; destruct H as (c & -> & Hc)
  end.

(** X1. A string passes the date-time format exactly when it starts with
    four digits, a dash, two digits, a dash, two digits, the letter T, and
    three groups of two digits separated by colons; what follows is not
    looked at, and the digits are not checked as a date or a time. *)
Theorem date_time_is_a_prefix_check (name value : string) :
  _validate_string_format name value (JStr "date-time") = [] <->
  exists year month day hour minute second rest,
    value = year ++ "-" ++ month ++ "-" ++ day ++ "T"
            ++ hour ++ ":" ++ minute ++ ":" ++ second ++ rest /\
    group digit 4 year = true /\ group digit 2 month = true /\
    group digit 2 day = true /\ group digit 2 hour = true /\
    group digit 2 minute = true /\ group digit 2 second = true.
Proof.
  change (_validate_string_format name value (JStr "date-time"))
    with (if negb (match_prefix Format.date_time value)
          then ["Property " ++ name ++ " should be in ISO date-time format"]
          else []).
  rewrite format_accepts, match_prefix_lang. split.
  - intros (u & rest & -> & H). unfold Format.date_time in H. cbn [Seq] in H.
    split_cat H. read_parts.
    rewrite !append_assoc.
    do 7 eexists. split; [reflexivity|]. repeat split; assumption.
  - intros (year & month & day & hour & minute & second & rest & -> & Hy & Hm
            & Hd & Hh & Hmi & Hs).
    exists (year ++ "-" ++ month ++ "-" ++ day ++ "T"
            ++ hour ++ ":" ++ minute ++ ":" ++ second ++ ""), rest.
    split; [rewrite !append_assoc; reflexivity|].
    unfold Format.date_time. cbn [Seq].
    repeat (apply lang_cat;
            [first [now apply lang_rep_class | now apply PathTheory.lang_lit]|]).
    constructor.
Qed.

(** X2. A string passes the uuid format exactly when it is five groups of
    8, 4, 4, 4 and 12 hexadecimal digits, of either case, separated by
    dashes, possibly followed by one newline. *)
Theorem uuid_shape (name value : string) :
  _validate_string_format name value (JStr "uuid") = [] <->
  exists a b c d e,
    up_to_newline value (a ++ "-" ++ b ++ "-" ++ c ++ "-" ++ d ++ "-" ++ e) /\
    group Format.hex 8 a = true /\ group Format.hex 4 b = true /\
    group Format.hex 4 c = true /\ group Format.hex 4 d = true /\
    group Format.hex 12 e = true.
Proof.
  change (_validate_string_format name value (JStr "uuid"))
    with (if negb (match_anchored Format.uuid value)
          then ["Property " ++ name ++ " should be a valid UUID"]
          else []).
  rewrite format_accepts, match_anchored_shape. split.
  - intros (w & Hup & H). unfold Format.uuid in H. cbn [Seq] in H.
    split_cat H. read_parts. rewrite append_nil_r in Hup.
    do 5 eexists. split; [exact Hup|]. repeat split; assumption.
  - intros (a & b & c & d & e & Hup & Ha & Hb & Hc & Hd & He).
    exists (a ++ "-" ++ b ++ "-" ++ c ++ "-" ++ d ++ "-" ++ e ++ "").
    split; [rewrite append_nil_r; exact Hup|].
    unfold Format.uuid. cbn [Seq].
    repeat (apply lang_cat;
            [first [now apply lang_rep_class | now apply PathTheory.lang_lit]|]).
    constructor.
Qed.

(** X3. A string passes the email format exactly when it is a local part,
    an at sign, a domain, a dot and a top-level name, possibly followed by
    one newline: the local part and the domain are not empty and are made
    of letters, digits and the signs of their class, and the top-level name
    is at least two letters. *)
Theorem email_shape (name value : string) :
  _validate_string_format name value (JStr "email") = [] <->
  exists local domain tld,
    up_to_newline value (local ++ "@" ++ domain ++ "." ++ tld) /\
    local <> "" /\ every local_char local = true /\
    domain <> "" /\ every domain_char domain = true /\
    (2 <= String.length tld)%nat /\ every letter tld = true.
Proof.
  change (_validate_string_format name value (JStr "email"))
    with (if negb (match_anchored Format.email value)
          then ["Property " ++ name ++ " should be a valid email address"]
          else []).
  rewrite format_accepts, match_anchored_shape. split.
  - intros (w & Hup & H). unfold Format.email in H. cbn [Seq] in H.
    split_cat H. read_parts. rewrite append_nil_r in Hup.
    destruct Hu as [Hlocal Hlocal']. destruct Hu1 as [Hdomain Hdomain'].
    unfold group in Hu3. apply andb_true_iff in Hu3.
    destruct Hu3 as [Hlen Htwo]. apply Nat.eqb_eq in Hlen.
    exists u, u1, (u3 ++ u4). split; [exact Hup|].
    repeat split; try assumption.
    + rewrite length_app, Hlen. lia.
    + now rewrite every_app, Htwo, Hu4.
  - intros (local & domain & tld & Hup & Hl & Hl' & Hd & Hd' & Hlen & Htld).
    destruct tld as [|c1 [|c2 tld]]; simpl in Hlen; try lia.
    simpl in Htld. apply andb_true_iff in Htld. destruct Htld as [Hc1 Htld].
    apply andb_true_iff in Htld. destruct Htld as [Hc2 Htld].
    exists (local ++ "@" ++ domain ++ "." ++ String c1 (String c2 "") ++ tld ++ "").
    split; [rewrite append_nil_r; exact Hup|].
    unfold Format.email. cbn [Seq].
    apply lang_cat; [now apply lang_plus_class|].
    apply lang_cat; [now apply PathTheory.lang_lit|].
    apply lang_cat; [now apply lang_plus_class|].
    apply lang_cat; [now apply PathTheory.lang_lit|].
    apply lang_cat; [apply lang_rep_class; unfold group; simpl;
                     now rewrite Hc1, Hc2|].
    apply lang_cat; [now apply lang_star_class | constructor].
Qed.

(** X4. The uri and url formats are one check.  A string passes it exactly
    when it is http or https, the separator of the scheme, one character
    that is neither white space nor one of the signs slash, dollar, dot,
    question mark and hash, one character other than a newline, and then
    characters that are not white space, possibly followed by one newline. *)
Theorem url_shape (name value : string) :
  _validate_string_format name value (JStr "uri")
  = _validate_string_format name value (JStr "url") /\
  (_validate_string_format name value (JStr "url") = [] <->
   exists scheme first second rest,
     up_to_newline value (scheme ++ "://" ++ String first (String second rest)) /\
     (scheme = "http" \/ scheme = "https") /\
     host_start first = true /\ second <> newline /\
     every not_space rest = true).
Proof.
  split; [reflexivity|].
  change (_validate_string_format name value (JStr "url"))
    with (if negb (match_anchored Format.url value)
          then ["Property " ++ name ++ " should be a valid URL"]
          else []).
  rewrite format_accepts, match_anchored_shape. split.
  - intros (w & Hup & H). unfold Format.url in H. cbn [Seq] in H.
    apply lang_cat_inv in H. destruct H as (http & w1 & -> & Hhttp & H).
    apply lang_cat_inv in H. destruct H as (s & w2 & -> & Hs & H).
    apply lang_cat_inv in H. destruct H as (sep & w3 & -> & Hsep & H).
    apply lang_cat_inv in H. destruct H as (x & w4 & -> & Hx & H).
    apply lang_cat_inv in H. destruct H as (y & w5 & -> & Hy & H).
    apply lang_cat_inv in H. destruct H as (rest & w6 & -> & Hrest & H).
    apply lang_text in Hhttp, Hsep. apply lang_eps_inv in H. subst.
    apply lang_class_inv in Hx, Hy.
    destruct Hx as (first & -> & Hfirst). destruct Hy as (second & -> & Hsecond).
    apply lang_star_class in Hrest. rewrite append_nil_r in Hup.
    apply negb_true_iff, Ascii.eqb_neq in Hsecond.
    apply lang_opt in Hs. destruct Hs as [Hs| ->].
    + apply PathTheory.lang_lit in Hs. subst.
      exists "https", first, second, rest. repeat split; auto.
    + exists "http", first, second, rest. repeat split; auto.
  - intros (scheme & first & second & rest & Hup & Hscheme & Hfirst & Hsecond
            & Hrest).
    exists (scheme ++ "://" ++ String first (String second rest)).
    split; [exact Hup|].
    assert (Htail : lang (Seq [Text "://"; Class host_start;
                               Class (fun c => negb (Ascii.eqb c newline));
                               Star (Class not_space)])
                         ("://" ++ String first "" ++ String second "" ++ rest ++ "")).
    { cbn [Seq].
      apply lang_cat; [now apply lang_text|].
      apply lang_cat; [now constructor|].
      apply lang_cat;
        [constructor; now apply negb_true_iff, Ascii.eqb_neq|].
      apply lang_cat; [now apply lang_star_class | constructor]. }
    rewrite append_nil_r in Htail.
    unfold Format.url. cbn [Seq].
    destruct Hscheme as [-> | ->].
    + apply (@lang_cat (Text "http") _ "http"); [now apply lang_text|].
      apply (@lang_cat (Opt (Lit "s")) _ ""); [apply lang_opt; now right|].
      exact Htail.
    + apply (@lang_cat (Text "http") _ "http"); [now apply lang_text|].
      apply (@lang_cat (Opt (Lit "s")) _ "s");
        [apply lang_opt; left; now apply PathTheory.lang_lit|].
      exact Htail.
Qed.

(** X5. For every format, a string that passes and does not end with a
    newline still passes with one newline put after it: the end of a
    pattern also holds just before a final newline. *)
Theorem final_newline_is_accepted (name value : string) (format_type : json) :
  ends_with_newline value = false ->
  _validate_string_format name value format_type = [] ->
  _validate_string_format name (value ++ line_end) format_type = [].
Proof.
  intros Hend. unfold _validate_string_format.
  assert (Hanchored : forall p,
            match_anchored p value = true ->
            match_anchored p (value ++ line_end) = true).
  { intros p H. apply match_anchored_shape in H. apply match_anchored_shape.
    destruct H as (w & [->| ->] & H).
    - exists w. split; [now right | exact H].
    - now rewrite ends_with_newline_app in Hend. }
  destruct (Py.eq_str format_type "date-time").
  { rewrite !format_accepts, !match_prefix_lang.
    intros (u & v & -> & H). exists u, (v ++ line_end).
    split; [apply append_assoc | exact H]. }
  destruct (Py.eq_str format_type "email");
    [rewrite !format_accepts; apply Hanchored|].
  destruct (Py.eq_str format_type "uuid");
    [rewrite !format_accepts; apply Hanchored|].
  destruct (_ || _); [rewrite !format_accepts; apply Hanchored|].
  reflexivity.
Qed.

End FormatTheory.

(** * Loops, fragments and their keys *)

(** Induction on the nesting of a fragment: the sub-fragments under
    [items], [properties] and [anyOf] are nested less deeply. *)
Lemma fragment_induction (P : json -> Prop) :
  (forall schema,
      (forall sub, (depth sub < depth schema)%nat -> P sub) -> P schema) ->
  forall schema, P schema.
Proof.
  intros step schema.
  assert (H : forall n s, (depth s < n)%nat -> P s).
  { induction n as [|n IH]; intros s Hs; [lia|].
    apply step. intros sub Hsub. apply IH. lia. }
  exact (H (S (depth schema)) schema (Nat.lt_succ_diag_r _)).
Qed.

Lemma bind_Ok_inv {A B : Type} (m : result A) (k : A -> result B) (b : B) :
  bind m k = Ok b -> exists a, m = Ok a /\ k a = Ok b.
Proof. destruct m as [a|]; simpl; [eauto | discriminate]. Qed.

Lemma Forall_concat_in {A : Type} (P : A -> Prop) (ls : list (list A)) :
  Forall (Forall P) ls -> Forall P (List.concat ls).
Proof.
  induction 1 as [|l ls Hl _ IH]; simpl; [constructor|].
  apply Forall_app. now split.
Qed.

(** What holds of every result of the body of a loop holds of the results
    of the loop. *)
Lemma mapM_Forall {A B : Type} (Q : B -> Prop) (f : A -> result B)
    (l : list A) (bs : list B) :
  (forall a b, In a l -> f a = Ok b -> Q b) ->
  mapM f l = Ok bs -> Forall Q bs.
Proof.
  revert bs. induction l as [|a l IH]; simpl; intros bs HQ H.
  - injection H as <-. constructor.
  - apply bind_Ok_inv in H. destruct H as (b & Hb & H).
    apply bind_Ok_inv in H. destruct H as (bs' & Hbs & H).
    injection H as <-. constructor; [eapply HQ; eauto|].
    apply IH; [|exact Hbs]. intros a' b' Hin. apply HQ. now right.
Qed.

Lemma mapM_ext_in {A B : Type} (f g : A -> result B) (l : list A) :
  (forall a, In a l -> f a = g a) -> mapM f l = mapM g l.
Proof.
  induction l as [|a l IH]; intros H; simpl; [reflexivity|].
  rewrite (H a (or_introl eq_refl)), IH; [reflexivity|].
  intros a' Hin. apply H. now right.
Qed.

Lemma existsb_map {A B : Type} (f : B -> bool) (g : A -> B) (l : list A) :
  existsb f (map g l) = existsb (fun a => f (g a)) l.
Proof. induction l as [|a l IH]; simpl; [reflexivity | now rewrite IH]. Qed.

Lemma dict_mem_In (d : Py.dict) (k : string) (v : json) :
  In (k, v) d -> Py.dict_mem k d = true.
Proof.
  unfold Py.dict_mem. induction d as [|[k' v'] d IH]; simpl; [intros []|].
  intros [[= -> ->]|Hin].
  - now rewrite String.eqb_refl.
  - destruct (String.eqb k' k); [reflexivity | now apply IH].
Qed.

(** The two keys of an object fragment of the supported subset. *)
Lemma wf_properties (d : Py.dict) :
  wf_fragment (JDict d) = true ->
  Py.dict_lookup "properties" d
  = match Py.dict_lookup "properties" d with
    | Some _ => Some (JDict (declared_properties (JDict d)))
    | None => None
    end.
Proof.
  intros Hwf. unfold declared_properties.
  destruct (Py.dict_lookup "properties" d) as [ps|] eqn:Hps; [|reflexivity].
  pose proof (wf_entry _ _ Hwf Hps) as Hok. unfold entry_ok in Hok.
  destruct ps; try discriminate. reflexivity.
Qed.

Lemma wf_required (d : Py.dict) :
  wf_fragment (JDict d) = true ->
  Py.dict_lookup "required" d
  = match Py.dict_lookup "required" d with
    | Some _ => Some (JList (map JStr (required_names (JDict d))))
    | None => None
    end.
Proof.
  intros Hwf. unfold required_names.
  destruct (Py.dict_lookup "required" d) as [names|] eqn:Hnames; [|reflexivity].
  pose proof (wf_entry _ _ Hwf Hnames) as Hok. unfold entry_ok in Hok.
  destruct names as [| | | | |names|]; try discriminate.
  simpl in Hok. do 2 f_equal. clear Hnames.
  induction names as [|n names IH]; [reflexivity|].
  simpl in Hok. apply andb_true_iff in Hok. destruct Hok as [Hn Hok].
  destruct n; try discriminate. simpl. f_equal. now apply IH.
Qed.

Lemma mapM_pure {A B : Type} (f : A -> result B) (g : A -> B) (l : list A) :
  (forall a, In a l -> f a = Ok (g a)) -> mapM f l = Ok (map g l).
Proof.
  induction l as [|a l IH]; intros H; simpl; [reflexivity|].
  rewrite (H a (or_introl eq_refl)), IH; [reflexivity|].
  intros a' Hin. apply H. now right.
Qed.

Lemma concat_singletons {A B : Type} (g : A -> B) (l : list A) :
  List.concat (map (fun a => [g a]) l) = map g l.
Proof. induction l as [|a l IH]; simpl; [reflexivity | now rewrite IH]. Qed.

Lemma concat_empties {A B : Type} (l : list A) :
  List.concat (map (fun _ : A => @nil B) l) = [].
Proof. induction l as [|a l IH]; simpl; [reflexivity | exact IH]. Qed.

Lemma wf_get_required (d : Py.dict) :
  wf_fragment (JDict d) = true ->
  Py.dict_get d "required" (JList [])
  = JList (map JStr (required_names (JDict d))).
Proof.
  intros Hwf. unfold Py.dict_get. rewrite (wf_required d Hwf).
  unfold required_names. now destruct (Py.dict_lookup "required" d).
Qed.

Lemma wf_get_properties (d : Py.dict) :
  wf_fragment (JDict d) = true ->
  Py.dict_get d "properties" (JDict [])
  = JDict (declared_properties (JDict d)).
Proof.
  intros Hwf. unfold Py.dict_get. rewrite (wf_properties d Hwf).
  unfold declared_properties. now destruct (Py.dict_lookup "properties" d).
Qed.

(** * The branches of the type dispatch *)

Section DispatchTheory.

Variable repr : json -> string.

Local Abbreviation validate := (_validate_property repr).

(** X6. When the value is not null and fails the type test of the declared
    type, the single error of that test is the whole result of a fragment
    without anyOf: no format, length, range, items, properties or required
    check runs, whatever these keys hold.  A value that is not a number
    gets "should be a number" against the type integer as well. *)
Theorem type_mismatch_is_the_only_error (d : Py.dict) (name : string)
    (v : json) (t : string) :
  Py.dict_lookup "type" d = Some (JStr t) ->
  In t type_names ->
  Py.dict_mem "anyOf" d = false ->
  v <> JNull ->
  has_type t v = false ->
  validate (JDict d) name v
  = Ok ["Property " ++ name ++ " should be " ++ type_words t].
Proof.
  intros Htype Ht Hany Hv Hmis.
  rewrite (validate_dict_not_null repr d name Hv).
  rewrite (any_of_part_no_anyOf repr d name v Hany).
  unfold type_dispatch, Py.dict_get. rewrite Htype.
  unfold type_names in Ht. simpl in Ht.
  repeat (destruct Ht as [<-|Ht]);
    try (now destruct Ht);
    destruct v; try discriminate Hmis; try (now elim Hv); reflexivity.
Qed.

(** X7. The result of a validation depends on the fragment through the
    thirteen keys that the validator looks up, and through nothing else:
    two fragments that agree on these keys give the same result for every
    value, so a key such as oneOf, allOf, enum, pattern or
    additionalProperties changes nothing.  The top-level entry reads the
    keys required and properties only: the type, the nullable mark and the
    anyOf list of the schema it is given are not applied to the response. *)
Theorem only_keywords_are_read (d d' : Py.dict) :
  ((forall k, In k keywords -> Py.dict_lookup k d = Py.dict_lookup k d') ->
   forall name v, validate (JDict d) name v = validate (JDict d') name v) /\
  ((forall k, In k ["required"; "properties"] ->
              Py.dict_lookup k d = Py.dict_lookup k d') ->
   forall response,
     validate_response repr response (JDict d)
     = validate_response repr response (JDict d')).
Proof.
  split.
  - intros H name v.
    assert (Hall : Forall (fun k => Py.dict_lookup k d = Py.dict_lookup k d')
                          keywords) by (apply Forall_forall; exact H).
    unfold keywords in Hall.
    repeat match goal with
    | Hall : Forall _ (_ :: _) |- _ =>
        let E := fresh "E" in let Hrest := fresh "Hrest" in
        apply Forall_cons_iff in Hall; destruct Hall as [E Hrest]
    end.
    rewrite !_validate_property_eq.
    destruct v.
    1: unfold null_check, Py.contains, Py.getitem, Py.dict_mem.
    2-7: unfold type_dispatch, any_of_part, alternatives, check_string,
           check_number, check_array, check_object, items_validator,
           property_validators, check_required, check_items_length,
           check_bound, Py.dict_get.
    all: rewrite ?E, ?E0, ?E1, ?E2, ?E3, ?E4, ?E5, ?E6, ?E7, ?E8, ?E9, ?E10,
           ?E11; reflexivity.
  - intros H response. unfold validate_response, Py.get, Py.dict_get.
    rewrite (H "required") by (simpl; tauto).
    rewrite (H "properties") by (simpl; tauto). reflexivity.
Qed.

(** ** Bounds *)

Lemma bound_errors_within (lo hi : option Z) (x : Z) (low high : Z -> string) :
  (bound_errors lo (fun b => x <? b) low
   ++ bound_errors hi (fun b => b <? x) high)%list = []
  <-> within lo hi x.
Proof.
  unfold within, bound_errors. split.
  - intros H. apply app_eq_nil in H. destruct H as [Hlo Hhi]. split.
    + intros b ->. destruct (Z.ltb_spec x b); [discriminate | lia].
    + intros b ->. destruct (Z.ltb_spec b x); [discriminate | lia].
  - intros [Hlo Hhi].
    destruct lo as [l|]; [specialize (Hlo l eq_refl)|];
      destruct hi as [h|]; try specialize (Hhi h eq_refl); simpl;
      repeat match goal with
             | |- context [?a <? ?b] => destruct (Z.ltb_spec a b); [lia|]
             end; reflexivity.
Qed.

Lemma Ok_inj {A : Type} (a b : A) : Ok a = Ok b <-> a = b.
Proof. split; [now intros [= ->] | now intros ->]. Qed.

(** X8. Against a fragment of type string, a string gets the errors of
    its format, if the fragment has one, and then those of the integer
    bounds minLength and maxLength that are present: "too short" when its
    length is below the first and "too long" when it is above the second.
    It is accepted exactly when the format check passes and its length
    lies between the bounds, the bounds included. *)
Theorem string_length_bounds (d : Py.dict) (name s : string) (lo hi : option Z) :
  Py.dict_lookup "type" d = Some (JStr "string") ->
  Py.dict_mem "anyOf" d = false ->
  Py.dict_lookup "minLength" d = option_map JInt lo ->
  Py.dict_lookup "maxLength" d = option_map JInt hi ->
  let len := Z.of_nat (String.length s) in
  let format_errors :=
    match Py.dict_lookup "format" d with
    | Some format_type => _validate_string_format name s format_type
    | None => []
    end in
  validate (JDict d) name (JStr s)
  = Ok (format_errors
        ++ bound_errors lo (fun b => len <? b)
             (fun b => ("Property " ++ name ++ " is too short (min: "
                        ++ Py.str_of_Z b ++ ")")%string)
        ++ bound_errors hi (fun b => b <? len)
             (fun b => ("Property " ++ name ++ " is too long (max: "
                        ++ Py.str_of_Z b ++ ")")%string))%list /\
  (validate (JDict d) name (JStr s) = Ok [] <->
   format_errors = [] /\ within lo hi len).
Proof.
  intros Htype Hany Hmin Hmax len format_errors.
  assert (Heq : validate (JDict d) name (JStr s)
                = Ok (format_errors
                      ++ bound_errors lo (fun b => len <? b)
                           (fun b => ("Property " ++ name ++ " is too short (min: "
                                      ++ Py.str_of_Z b ++ ")")%string)
                      ++ bound_errors hi (fun b => b <? len)
                           (fun b => ("Property " ++ name ++ " is too long (max: "
                                      ++ Py.str_of_Z b ++ ")")%string))%list).
  { rewrite validate_dict_not_null by discriminate.
    rewrite (any_of_part_no_anyOf repr d name (JStr s) Hany).
    unfold type_dispatch, Py.dict_get. rewrite Htype.
    unfold check_string, len_str. fold len. fold format_errors.
    rewrite (check_bound_min _ _ _ _ _ Hmin), (check_bound_max _ _ _ _ _ Hmax).
    simpl. now rewrite app_nil_r. }
  split; [exact Heq|]. rewrite Heq, Ok_inj. split.
  - intros H. apply app_eq_nil in H. destruct H as [Hformat H].
    split; [exact Hformat | exact (proj1 (bound_errors_within lo hi len _ _) H)].
  - intros [Hformat H]. rewrite Hformat.
    exact (proj2 (bound_errors_within lo hi len _ _) H).
Qed.

(** X9. Against a fragment of type number or integer, an integer is
    checked against the integer bounds minimum and maximum that are
    present: it gets "too small" below the first and "too large" above the
    second, and it is accepted exactly when it lies between them, the
    bounds included. *)
Theorem number_range_bounds (d : Py.dict) (name t : string) (n : Z)
    (lo hi : option Z) :
  Py.dict_lookup "type" d = Some (JStr t) ->
  t = "integer" \/ t = "number" ->
  Py.dict_mem "anyOf" d = false ->
  Py.dict_lookup "minimum" d = option_map JInt lo ->
  Py.dict_lookup "maximum" d = option_map JInt hi ->
  validate (JDict d) name (JInt n)
  = Ok (bound_errors lo (fun b => n <? b)
          (fun b => ("Property " ++ name ++ " is too small (min: "
                    ++ Py.str_of_Z b ++ ")")%string)
        ++ bound_errors hi (fun b => b <? n)
             (fun b => ("Property " ++ name ++ " is too large (max: "
                       ++ Py.str_of_Z b ++ ")")%string))%list /\
  (validate (JDict d) name (JInt n) = Ok [] <-> within lo hi n).
Proof.
  intros Htype Ht Hany Hmin Hmax.
  assert (Heq : validate (JDict d) name (JInt n)
                = Ok (bound_errors lo (fun b => n <? b)
                        (fun b => ("Property " ++ name ++ " is too small (min: "
                                  ++ Py.str_of_Z b ++ ")")%string)
                      ++ bound_errors hi (fun b => b <? n)
                           (fun b => ("Property " ++ name ++ " is too large (max: "
                                     ++ Py.str_of_Z b ++ ")")%string))%list).
  { rewrite validate_dict_not_null by discriminate.
    rewrite (any_of_part_no_anyOf repr d name (JInt n) Hany).
    rewrite (number_dispatch repr d name (JInt n) Htype Ht).
    unfold check_number. simpl Py.num_value. cbv iota.
    simpl is_int. rewrite andb_false_r.
    rewrite (check_bound_min _ _ _ _ _ Hmin), (check_bound_max _ _ _ _ _ Hmax).
    simpl. now rewrite app_nil_r. }
  split; [exact Heq|]. rewrite Heq, Ok_inj. apply bound_errors_within.
Qed.

(** X10. Against a fragment of type array with no items, a list is checked
    against the integer bounds minItems and maxItems that are present: it
    gets "too few items" below the first and "too many items" above the
    second, and it is accepted exactly when its length lies between them,
    the bounds included; its elements are not looked at. *)
Theorem array_length_bounds (d : Py.dict) (name : string) (l : list json)
    (lo hi : option Z) :
  Py.dict_lookup "type" d = Some (JStr "array") ->
  Py.dict_mem "items" d = false ->
  Py.dict_mem "anyOf" d = false ->
  Py.dict_lookup "minItems" d = option_map JInt lo ->
  Py.dict_lookup "maxItems" d = option_map JInt hi ->
  let len := Z.of_nat (List.length l) in
  validate (JDict d) name (JList l)
  = Ok (bound_errors lo (fun b => len <? b)
          (fun b => ("Property " ++ name ++ " has too few items (min: "
                    ++ Py.str_of_Z b ++ ")")%string)
        ++ bound_errors hi (fun b => b <? len)
             (fun b => ("Property " ++ name ++ " has too many items (max: "
                       ++ Py.str_of_Z b ++ ")")%string))%list /\
  (validate (JDict d) name (JList l) = Ok [] <-> within lo hi len).
Proof.
  intros Htype Hitems Hany Hmin Hmax len.
  assert (Heq : validate (JDict d) name (JList l)
                = Ok (bound_errors lo (fun b => len <? b)
                        (fun b => ("Property " ++ name ++ " has too few items (min: "
                                  ++ Py.str_of_Z b ++ ")")%string)
                      ++ bound_errors hi (fun b => b <? len)
                           (fun b => ("Property " ++ name
                                     ++ " has too many items (max: "
                                     ++ Py.str_of_Z b ++ ")")%string))%list).
  { rewrite validate_dict_not_null by discriminate.
    rewrite (any_of_part_no_anyOf repr d name (JList l) Hany).
    unfold type_dispatch, Py.dict_get. rewrite Htype.
    unfold check_array, items_validator, check_items_length, len_list.
    fold len. unfold Py.dict_mem in Hitems.
    destruct (Py.dict_lookup "items" d); [discriminate|].
    rewrite (check_bound_min _ _ _ _ _ Hmin), (check_bound_max _ _ _ _ _ Hmax).
    simpl. now rewrite app_nil_r. }
  split; [exact Heq|]. rewrite Heq, Ok_inj. apply bound_errors_within.
Qed.

(** X11. A float that is not a number passes every range check: against a
    fragment of the supported subset of type number it is accepted whatever
    minimum and maximum are, and against the type integer its only error is
    that it is not an integer. *)
Theorem nan_passes_range_checks (d : Py.dict) (name : string) :
  wf_fragment (JDict d) = true ->
  Py.dict_mem "anyOf" d = false ->
  (Py.dict_lookup "type" d = Some (JStr "number") ->
   validate (JDict d) name (JFloat S754_nan) = Ok []) /\
  (Py.dict_lookup "type" d = Some (JStr "integer") ->
   validate (JDict d) name (JFloat S754_nan)
   = Ok ["Property " ++ name ++ " should be an integer"]).
Proof.
  intros Hwf Hany.
  assert (Hbound : forall key violates message,
            is_bound key = true ->
            (forall b y, Py.num_value b = Some y ->
                         violates b = Ok false) ->
            check_bound d key violates message = Ok []).
  { intros key violates message Hkey Hviol. unfold check_bound.
    destruct (Py.dict_lookup key d) as [b|] eqn:Hb; [|reflexivity].
    pose proof (wf_entry _ _ Hwf Hb) as Hok. unfold entry_ok in Hok.
    unfold is_bound in Hkey. simpl in Hkey.
    assert (Hnum : is_number b = true).
    { repeat match type of Hkey with
             | (?k =? ?s)%string || _ = true =>
                 destruct (String.eqb_spec k s) as [->|_];
                 [exact Hok | simpl in Hkey]
             end. discriminate. }
    destruct b; try discriminate Hnum;
      erewrite Hviol by reflexivity; reflexivity. }
  assert (Hmin : forall message,
            check_bound d "minimum" (Py.lt Py.NaN) message = Ok []).
  { intros message. apply Hbound; [reflexivity|].
    intros b y Hy. unfold Py.lt. now rewrite Hy. }
  assert (Hmax : forall message,
            check_bound d "maximum" (Py.gt Py.NaN) message = Ok []).
  { intros message. apply Hbound; [reflexivity|].
    intros b y Hy. unfold Py.gt. rewrite Hy. now destruct y as [|[]|]. }
  split; intros Htype.
  all: rewrite validate_dict_not_null by discriminate.
  all: rewrite (any_of_part_no_anyOf repr d name _ Hany).
  all: unfold type_dispatch, Py.dict_get; rewrite Htype.
  all: unfold check_number; simpl Py.num_value; cbv iota.
  all: rewrite Hmin, Hmax; reflexivity.
Qed.

End DispatchTheory.

(** * Invariants of the validator *)

Section PathsInErrors.

Variable repr : json -> string.

Local Abbreviation validate := (_validate_property repr).

Lemma mentions_longer (name suffix e : string) :
  mentions (name ++ suffix) e -> mentions name e.
Proof.
  intros (before & after & ->). exists before, (suffix ++ after).
  now rewrite ReTheory.append_assoc.
Qed.

Lemma mentions_indent (name e : string) :
  mentions name e -> mentions name (indent e).
Proof.
  intros (before & after & ->). exists ("  - " ++ before), after.
  unfold indent. now rewrite ReTheory.append_assoc.
Qed.

Ltac mention :=
  first [ exists "Property "; eexists; reflexivity
        | exists "Missing required property "; eexists; reflexivity ].

Lemma null_check_mentions (name : string) (schema : json) (errors : list string) :
  null_check name schema = Ok errors -> Forall (mentions name) errors.
Proof.
  unfold null_check. intros H.
  apply bind_Ok_inv in H. destruct H as (has & _ & H).
  apply bind_Ok_inv in H. destruct H as (nullable & _ & H).
  destruct nullable; injection H as <-; repeat constructor. mention.
Qed.

Lemma format_mentions (name value : string) (format_type : json) :
  Forall (mentions name) (_validate_string_format name value format_type).
Proof.
  unfold _validate_string_format.
  repeat match goal with
         | |- context [if ?b then _ else _] => destruct b
         end; repeat constructor; mention.
Qed.

Lemma check_bound_mentions (name : string) (d : Py.dict) (key : string)
    (violates : json -> result bool) (message : json -> string)
    (errors : list string) :
  (forall b, mentions name (message b)) ->
  check_bound d key violates message = Ok errors ->
  Forall (mentions name) errors.
Proof.
  intros Hmessage. unfold check_bound.
  destruct (Py.dict_lookup key d) as [b|].
  - destruct (violates b) as [[|]|]; simpl; intros [= <-];
      repeat constructor. apply Hmessage.
  - intros [= <-]. constructor.
Qed.

Lemma check_string_mentions (name : string) (v : json) (d : Py.dict)
    (errors : list string) :
  check_string repr name v d = Ok errors -> Forall (mentions name) errors.
Proof.
  unfold check_string. destruct v;
    try (intros [= <-]; repeat constructor; mention).
  intros H.
  apply bind_Ok_inv in H. destruct H as (mins & Hmin & H).
  apply bind_Ok_inv in H. destruct H as (maxs & Hmax & H).
  injection H as <-.
  apply (@check_bound_mentions name) in Hmin; [|intros b; mention].
  apply (@check_bound_mentions name) in Hmax; [|intros b; mention].
  repeat (apply Forall_app; split); try assumption.
  destruct (Py.dict_lookup "format" d); [apply format_mentions | constructor].
Qed.

Lemma check_number_mentions (t : json) (name : string) (v : json)
    (d : Py.dict) (errors : list string) :
  check_number repr t name v d = Ok errors -> Forall (mentions name) errors.
Proof.
  unfold check_number. destruct (Py.num_value v);
    [|intros [= <-]; repeat constructor; mention].
  intros H.
  apply bind_Ok_inv in H. destruct H as (mins & Hmin & H).
  apply bind_Ok_inv in H. destruct H as (maxs & Hmax & H).
  injection H as <-.
  apply (@check_bound_mentions name) in Hmin; [|intros b; mention].
  apply (@check_bound_mentions name) in Hmax; [|intros b; mention].
  repeat (apply Forall_app; split); try assumption.
  destruct (_ && _); repeat constructor. mention.
Qed.

Lemma check_items_length_mentions (name : string) (l : list json)
    (d : Py.dict) (errors : list string) :
  check_items_length repr name l d = Ok errors ->
  Forall (mentions name) errors.
Proof.
  unfold check_items_length. intros H.
  apply bind_Ok_inv in H. destruct H as (mins & Hmin & H).
  apply bind_Ok_inv in H. destruct H as (maxs & Hmax & H).
  injection H as <-.
  apply (@check_bound_mentions name) in Hmin; [|intros b; mention].
  apply (@check_bound_mentions name) in Hmax; [|intros b; mention].
  apply Forall_app. now split.
Qed.

Lemma check_required_mentions (name : string) (o d : Py.dict)
    (errors : list string) :
  check_required repr name o d = Ok errors -> Forall (mentions name) errors.
Proof.
  unfold check_required.
  destruct (Py.dict_lookup "required" d) as [required|];
    [|intros [= <-]; constructor].
  intros H.
  apply bind_Ok_inv in H. destruct H as (props & _ & H).
  apply bind_Ok_inv in H. destruct H as (missing & Hloop & H).
  injection H as <-. apply Forall_concat_in.
  eapply mapM_Forall; [|exact Hloop].
  intros p es _ Hp.
  apply bind_Ok_inv in Hp. destruct Hp as (present & _ & Hp).
  destruct present; injection Hp as <-; repeat constructor. mention.
Qed.

Lemma check_items_mentions (validate_item : validator) (name : string)
    (l : list json) (errors : list string) :
  (forall n x es, validate_item n x = Ok es -> Forall (mentions n) es) ->
  check_items validate_item name l = Ok errors ->
  Forall (mentions name) errors.
Proof.
  intros Hitem. unfold check_items. intros H.
  apply bind_Ok_inv in H. destruct H as (ess & Hloop & H).
  injection H as <-. apply Forall_concat_in.
  eapply mapM_Forall; [|exact Hloop].
  intros [i item] es _ Hes. apply Hitem in Hes.
  eapply Forall_impl; [|exact Hes]. intros e. apply mentions_longer.
Qed.

Lemma check_properties_mentions (props : list (string * validator))
    (name : string) (o : Py.dict) (errors : list string) :
  (forall p, In p props ->
     forall n x es, snd p n x = Ok es -> Forall (mentions n) es) ->
  check_properties props name o = Ok errors ->
  Forall (mentions name) errors.
Proof.
  intros Hprops. unfold check_properties. intros H.
  apply bind_Ok_inv in H. destruct H as (ess & Hloop & H).
  injection H as <-. apply Forall_concat_in.
  eapply mapM_Forall; [|exact Hloop].
  intros [prop_name validate_prop] es Hin Hes.
  destruct (Py.dict_lookup prop_name o) as [x|];
    [|injection Hes as <-; constructor].
  apply (Hprops _ Hin) in Hes.
  eapply Forall_impl; [|exact Hes]. intros e. apply mentions_longer.
Qed.

Lemma any_of_loop_mentions (alts : list validator) (name : string) (v : json) :
  (forall sub, In sub alts ->
     forall es, sub name v = Ok es -> Forall (mentions name) es) ->
  forall acc any_valid any_errors,
    Forall (mentions name) acc ->
    any_of_loop alts name v acc = Ok (any_valid, any_errors) ->
    Forall (mentions name) any_errors.
Proof.
  induction alts as [|sub alts IH]; intros Halts acc any_valid any_errors Hacc;
    simpl.
  - now intros [= _ <-].
  - intros H. apply bind_Ok_inv in H. destruct H as (es & Hes & H).
    pose proof (Halts sub (or_introl eq_refl) es Hes) as Hsub.
    destruct es as [|e es]; [now injection H as _ <-|].
    eapply IH; [|apply Forall_app; split; [exact Hacc | exact Hsub]|exact H].
    intros sub' Hin. apply Halts. now right.
Qed.

Lemma check_any_of_mentions (alts : list validator) (name : string) (v : json)
    (errors : list string) :
  (forall sub, In sub alts ->
     forall es, sub name v = Ok es -> Forall (mentions name) es) ->
  check_any_of alts name v = Ok errors ->
  Forall (mentions name) errors.
Proof.
  intros Halts. unfold check_any_of. intros H.
  apply bind_Ok_inv in H. destruct H as ([any_valid any_errors] & Hloop & H).
  apply (@any_of_loop_mentions _ _ _ Halts _ _ _ (Forall_nil _)) in Hloop.
  destruct any_valid; injection H as <-; constructor.
  - unfold no_match. mention.
  - apply Forall_forall. intros e He. apply in_map_iff in He.
    destruct He as (e' & <- & He'). apply mentions_indent.
    rewrite Forall_forall in Hloop. now apply Hloop.
Qed.

(** The errors of a validation contain the path. *)
Lemma validate_mentions (schema : json) (name : string) (v : json)
    (errors : list string) :
  validate schema name v = Ok errors -> Forall (mentions name) errors.
Proof.
  revert name v errors.
  induction schema as [schema IH] using fragment_induction.
  intros name v errors. rewrite _validate_property_eq.
  destruct (json_is_null v) as [->|Hv]; [apply null_check_mentions|].
  assert (Hgoal : match schema with
                  | JDict d =>
                      errors <- type_dispatch repr d name v ;;
                      any_errors <- any_of_part repr d name v ;;
                      Ok (errors ++ any_errors)%list
                  | _ => Raise AttributeError
                  end = Ok errors -> Forall (mentions name) errors).
  2: { destruct v; [now elim Hv | exact Hgoal ..]. }
  destruct schema as [| | | | | |d]; try discriminate.
  intros H.
  apply bind_Ok_inv in H. destruct H as (errs & Hdispatch & H).
  apply bind_Ok_inv in H. destruct H as (anys & Hany & H).
  injection H as <-. apply Forall_app. split.
  - (* the type dispatch *)
    unfold type_dispatch in Hdispatch.
    destruct (negb _); [injection Hdispatch as <-; constructor|].
    destruct (Py.eq_str _ "string");
      [exact (check_string_mentions _ _ _ Hdispatch)|].
    destruct (_ || _); [exact (check_number_mentions _ _ _ _ Hdispatch)|].
    destruct (Py.eq_str _ "boolean").
    { destruct v; injection Hdispatch as <-; repeat constructor; mention. }
    destruct (Py.eq_str _ "array").
    { unfold check_array in Hdispatch.
      destruct v; try (injection Hdispatch as <-; repeat constructor; mention).
      apply bind_Ok_inv in Hdispatch. destruct Hdispatch as (its & Hits & H).
      apply bind_Ok_inv in H. destruct H as (lens & Hlens & H).
      injection H as <-. apply Forall_app. split;
        [|exact (check_items_length_mentions _ _ _ Hlens)].
      unfold items_validator in Hits.
      destruct (Py.dict_lookup "items" d) as [it|] eqn:Hit;
        [|injection Hits as <-; constructor].
      simpl in Hits. eapply check_items_mentions; [|exact Hits].
      intros n x es. apply IH. exact (depth_dict_lookup _ _ Hit). }
    destruct (Py.eq_str _ "object"); [|injection Hdispatch as <-; constructor].
    unfold check_object in Hdispatch.
    destruct v; try (injection Hdispatch as <-; repeat constructor; mention).
    apply bind_Ok_inv in Hdispatch. destruct Hdispatch as (prs & Hprs & H).
    apply bind_Ok_inv in H. destruct H as (reqs & Hreqs & H).
    injection H as <-. apply Forall_app. split;
      [|exact (check_required_mentions _ _ _ Hreqs)].
    unfold property_validators in Hprs.
    destruct (Py.dict_lookup "properties" d) as [properties|] eqn:Hps;
      [|injection Hprs as <-; constructor].
    simpl in Hprs.
    apply bind_Ok_inv in Hprs. destruct Hprs as (props & Hprops & Hprs).
    apply bind_Ok_inv in Hprops. destruct Hprops as (entries & Hentries & Hprops).
    injection Hprops as <-.
    eapply check_properties_mentions; [|exact Hprs].
    intros p Hin. apply in_map_iff in Hin.
    destruct Hin as ([prop_name prop_spec] & <- & Hin). simpl.
    intros n x es. apply IH.
    destruct properties; try discriminate. injection Hentries as ->.
    apply In_nth_error in Hin. destruct Hin as (i & Hi).
    pose proof (depth_dict_nth _ _ Hi) as Hspec.
    pose proof (depth_dict_lookup _ _ Hps) as Hprops. simpl in Hspec |- *.
    simpl in Hprops. lia.
  - (* the union *)
    unfold any_of_part, alternatives in Hany.
    destruct (Py.dict_lookup "anyOf" d) as [any_of|] eqn:Hanyof;
      [|injection Hany as <-; constructor].
    simpl in Hany.
    apply bind_Ok_inv in Hany. destruct Hany as (alts & Halts & Hany).
    apply bind_Ok_inv in Halts. destruct Halts as (subs & Hsubs & Halts).
    injection Halts as <-.
    eapply check_any_of_mentions; [|exact Hany].
    intros sub Hin. apply in_map_iff in Hin. destruct Hin as (s & <- & Hin).
    intros es. apply IH.
    pose proof (iter_depth _ Hsubs) as Hdepth.
    rewrite Forall_forall in Hdepth. specialize (Hdepth s Hin).
    pose proof (depth_dict_lookup _ _ Hanyof). lia.
Qed.


(** X12. Every error of a validation contains the path it was asked to
    validate under: the errors of the elements of an array and of the
    properties of an object contain the longer paths made from it, and the
    errors of the alternatives of a union keep it behind their prefix.
    Every error of the top-level entry, for a schema of the supported
    subset, contains the name of a property that the schema requires or
    declares. *)
Theorem every_error_names_its_path :
  (forall schema name v errors,
      validate schema name v = Ok errors -> Forall (mentions name) errors) /\
  (forall response schema errors,
      wf_fragment schema = true ->
      validate_response repr response schema = Ok errors ->
      Forall (fun e => exists k, named_by schema k /\ mentions k e) errors).
Proof.
  split; [exact validate_mentions|].
  intros response schema errors Hwf.
  destruct schema as [| | | | | |d]; try discriminate.
  unfold validate_response, Py.get. rewrite !bind_Ok.
  rewrite (wf_get_required d Hwf), (wf_get_properties d Hwf).
  change (Py.iter (JList ?l)) with (Ok l). rewrite !bind_Ok.
  intros H.
  apply bind_Ok_inv in H. destruct H as (missing & Hmissing & H).
  rewrite bind_Ok in H. change (Py.items (JDict ?l)) with (Ok l) in H.
  rewrite bind_Ok in H.
  apply bind_Ok_inv in H. destruct H as (prop_errors & Hprops & H).
  injection H as <-. apply Forall_app. split; apply Forall_concat_in.
  - eapply mapM_Forall; [|exact Hmissing].
    intros p es Hp Hes. apply in_map_iff in Hp. destruct Hp as (k & <- & Hk).
    apply bind_Ok_inv in Hes. destruct Hes as (present & _ & Hes).
    destruct present; injection Hes as <-; repeat constructor.
    exists k. split; [now left|].
    exists "Missing required property: ", "". simpl.
    now rewrite ReTheory.append_nil_r.
  - eapply mapM_Forall; [|exact Hprops].
    intros [prop_name prop_spec] es Hin Hes.
    apply bind_Ok_inv in Hes. destruct Hes as (present & _ & Hes).
    destruct present; [|injection Hes as <-; constructor].
    apply bind_Ok_inv in Hes. destruct Hes as (x & _ & Hes).
    apply validate_mentions in Hes.
    eapply Forall_impl; [|exact Hes]. intros e He.
    exists prop_name. split; [|exact He].
    right. exact (dict_mem_In _ _ _ Hin).
Qed.

End PathsInErrors.

(** * The verdict and the path *)

Section Verdicts.

Variable repr : json -> string.

Local Abbreviation validate := (_validate_property repr).

Lemma alike_Ok (es es' : list string) :
  List.length es = List.length es' -> alike (Ok es) (Ok es').
Proof. exact (fun H => H). Qed.

Lemma alike_bind (m m' : result (list string))
    (k k' : list string -> result (list string)) :
  alike m m' ->
  (forall es es', List.length es = List.length es' -> alike (k es) (k' es')) ->
  alike (bind m k) (bind m' k').
Proof.
  destruct m as [es|e], m' as [es'|e']; simpl; intros H Hk;
    try contradiction; [now apply Hk | exact H].
Qed.

Lemma alike_bind_same {A : Type} (m : result A)
    (k k' : A -> result (list string)) :
  (forall a, alike (k a) (k' a)) -> alike (bind m k) (bind m k').
Proof. destruct m as [a|e]; simpl; intros Hk; [apply Hk | reflexivity]. Qed.

Lemma alike_refl (r : result (list string)) : alike r r.
Proof. destruct r; reflexivity. Qed.

(** A loop whose bodies are alike gives results that are alike. *)
Lemma alike_loop {A : Type} (f f' : A -> result (list string)) (l : list A) :
  (forall a, In a l -> alike (f a) (f' a)) ->
  alike (ess <- mapM f l ;; Ok (List.concat ess))
        (ess <- mapM f' l ;; Ok (List.concat ess)).
Proof.
  induction l as [|a l IH]; intros H; [reflexivity|].
  specialize (IH (fun a' Hin => H a' (or_intror Hin))).
  specialize (H a (or_introl eq_refl)).
  rewrite !mapM_cons.
  destruct (f a) as [es|e], (f' a) as [es'|e']; simpl in H |- *;
    try contradiction; [|exact H].
  destruct (mapM f l) as [ess|e], (mapM f' l) as [ess'|e']; simpl in IH |- *;
    try contradiction; [|exact IH].
  rewrite !length_app. now rewrite H, IH.
Qed.

Lemma null_check_alike (name name' : string) (schema : json) :
  alike (null_check name schema) (null_check name' schema).
Proof.
  unfold null_check. apply alike_bind_same. intros has.
  apply alike_bind_same. intros [|]; reflexivity.
Qed.

Lemma format_alike (name name' value : string) (format_type : json) :
  List.length (_validate_string_format name value format_type)
  = List.length (_validate_string_format name' value format_type).
Proof.
  unfold _validate_string_format.
  repeat match goal with
         | |- context [if ?b then _ else _] => destruct b
         end; reflexivity.
Qed.

Lemma check_bound_alike (d : Py.dict) (key : string)
    (violates : json -> result bool) (message message' : json -> string) :
  alike (check_bound d key violates message)
        (check_bound d key violates message').
Proof.
  unfold check_bound. destruct (Py.dict_lookup key d) as [b|]; [|reflexivity].
  destruct (violates b) as [[|]|]; reflexivity.
Qed.

Lemma check_string_alike (name name' : string) (v : json) (d : Py.dict) :
  alike (check_string repr name v d) (check_string repr name' v d).
Proof.
  unfold check_string. destruct v; try reflexivity.
  apply alike_bind; [apply check_bound_alike|]. intros mins mins' Hmins.
  apply alike_bind; [apply check_bound_alike|]. intros maxs maxs' Hmaxs.
  apply alike_Ok. rewrite !length_app, Hmins, Hmaxs. f_equal.
  destruct (Py.dict_lookup "format" d); [apply format_alike | reflexivity].
Qed.

Lemma check_number_alike (t : json) (name name' : string) (v : json)
    (d : Py.dict) :
  alike (check_number repr t name v d) (check_number repr t name' v d).
Proof.
  unfold check_number. destruct (Py.num_value v); [|reflexivity].
  apply alike_bind; [apply check_bound_alike|]. intros mins mins' Hmins.
  apply alike_bind; [apply check_bound_alike|]. intros maxs maxs' Hmaxs.
  apply alike_Ok. rewrite !length_app, Hmins, Hmaxs. f_equal.
  now destruct (_ && _).
Qed.

Lemma check_items_length_alike (name name' : string) (l : list json)
    (d : Py.dict) :
  alike (check_items_length repr name l d) (check_items_length repr name' l d).
Proof.
  unfold check_items_length.
  apply alike_bind; [apply check_bound_alike|]. intros mins mins' Hmins.
  apply alike_bind; [apply check_bound_alike|]. intros maxs maxs' Hmaxs.
  apply alike_Ok. now rewrite !length_app, Hmins, Hmaxs.
Qed.

Lemma check_required_alike (name name' : string) (o d : Py.dict) :
  alike (check_required repr name o d) (check_required repr name' o d).
Proof.
  unfold check_required.
  destruct (Py.dict_lookup "required" d) as [required|]; [|reflexivity].
  apply alike_bind_same. intros props. apply alike_loop.
  intros p _. apply alike_bind_same. intros [|]; reflexivity.
Qed.

Lemma any_of_loop_alike (alts : list validator) (name name' : string)
    (v : json) :
  (forall sub, In sub alts -> alike (sub name v) (sub name' v)) ->
  forall acc acc',
    List.length acc = List.length acc' ->
    match any_of_loop alts name v acc, any_of_loop alts name' v acc' with
    | Ok (any_valid, any_errors), Ok (any_valid', any_errors') =>
        any_valid = any_valid' /\
        List.length any_errors = List.length any_errors'
    | Raise e, Raise e' => e = e'
    | _, _ => False
    end.
Proof.
  induction alts as [|sub alts IH]; intros Halts acc acc' Hacc; simpl.
  - now split.
  - pose proof (Halts sub (or_introl eq_refl)) as Hsub.
    destruct (sub name v) as [es|e], (sub name' v) as [es'|e'];
      simpl in Hsub |- *; try contradiction; [|exact Hsub].
    destruct es as [|x es], es' as [|x' es']; try discriminate Hsub.
    + now split.
    + apply IH; [intros s Hin; apply Halts; now right|].
      rewrite !length_app. now rewrite Hacc, Hsub.
Qed.

Lemma check_any_of_alike (alts : list validator) (name name' : string)
    (v : json) :
  (forall sub, In sub alts -> alike (sub name v) (sub name' v)) ->
  alike (check_any_of alts name v) (check_any_of alts name' v).
Proof.
  intros Halts. unfold check_any_of.
  pose proof (@any_of_loop_alike alts name name' v Halts [] [] eq_refl) as Hloop.
  destruct (any_of_loop alts name v []) as [[b es]|e],
           (any_of_loop alts name' v []) as [[b' es']|e'];
    simpl in Hloop |- *; try contradiction; [|exact Hloop].
  destruct Hloop as [<- Hes]. destruct b; [reflexivity|].
  simpl. now rewrite !length_map, Hes.
Qed.

(** X22. The verdict does not depend on the path: validating one value
    against one fragment under two paths raises the same exception or
    gives as many errors, so the value is accepted under the one exactly
    when it is under the other. *)
Theorem verdict_does_not_depend_on_the_path (schema : json)
    (name name' : string) (v : json) :
  alike (validate schema name v) (validate schema name' v) /\
  (validate schema name v = Ok [] <-> validate schema name' v = Ok []).
Proof.
  assert (Halike : forall schema name name' v,
            alike (validate schema name v) (validate schema name' v)).
  { clear. intros schema.
    induction schema as [schema IH] using fragment_induction.
    intros name name' v. rewrite !_validate_property_eq.
    destruct (json_is_null v) as [->|Hv]; [apply null_check_alike|].
    assert (Hgoal :
              alike match schema with
                    | JDict d =>
                        errors <- type_dispatch repr d name v ;;
                        any_errors <- any_of_part repr d name v ;;
                        Ok (errors ++ any_errors)%list
                    | _ => Raise AttributeError
                    end
                    match schema with
                    | JDict d =>
                        errors <- type_dispatch repr d name' v ;;
                        any_errors <- any_of_part repr d name' v ;;
                        Ok (errors ++ any_errors)%list
                    | _ => Raise AttributeError
                    end).
    2: { destruct v; [now elim Hv | exact Hgoal ..]. }
    destruct schema as [| | | | | |d]; try reflexivity.
    apply alike_bind.
    - (* the type dispatch *)
      unfold type_dispatch.
      destruct (negb _); [reflexivity|].
      destruct (Py.eq_str _ "string"); [apply check_string_alike|].
      destruct (_ || _); [apply check_number_alike|].
      destruct (Py.eq_str _ "boolean"); [destruct v; reflexivity|].
      destruct (Py.eq_str _ "array").
      { unfold check_array. destruct v; try reflexivity.
        apply alike_bind.
        - unfold items_validator.
          destruct (Py.dict_lookup "items" d) as [it|] eqn:Hit;
            [|reflexivity].
          simpl. unfold check_items. apply alike_loop.
          intros [i item] _. apply IH. exact (depth_dict_lookup _ _ Hit).
        - intros its its' Hits.
          apply alike_bind; [apply check_items_length_alike|].
          intros lens lens' Hlens. apply alike_Ok.
          now rewrite !length_app, Hits, Hlens. }
      destruct (Py.eq_str _ "object"); [|reflexivity].
      unfold check_object. destruct v as [| | | | | |o]; try reflexivity.
      apply alike_bind.
      + unfold property_validators.
        destruct (Py.dict_lookup "properties" d) as [properties|] eqn:Hps;
          [|reflexivity].
        pose proof (depth_dict_lookup _ _ Hps) as Hdepth.
        destruct properties as [| | | | | |ps]; try reflexivity.
        simpl. unfold check_properties. rewrite !mapM_map.
        apply alike_loop. intros [prop_name prop_spec] Hin.
        destruct (Py.dict_lookup prop_name o); [|reflexivity].
        apply IH. apply In_nth_error in Hin. destruct Hin as (i & Hi).
        pose proof (depth_dict_nth _ _ Hi) as Hspec.
        simpl in Hspec, Hdepth |- *. lia.
      + intros prs prs' Hprs.
        apply alike_bind; [apply check_required_alike|].
        intros reqs reqs' Hreqs. apply alike_Ok.
        now rewrite !length_app, Hprs, Hreqs.
    - (* the union *)
      intros errs errs' Herrs. apply alike_bind.
      + unfold any_of_part, alternatives.
        destruct (Py.dict_lookup "anyOf" d) as [any_of|] eqn:Hanyof;
          [|reflexivity].
        simpl. destruct (Py.iter any_of) as [subs|] eqn:Hsubs;
          [|reflexivity].
        simpl. apply check_any_of_alike.
        intros sub Hin. apply in_map_iff in Hin.
        destruct Hin as (s & <- & Hin). apply IH.
        pose proof (iter_depth _ Hsubs) as Hdepth.
        rewrite Forall_forall in Hdepth. specialize (Hdepth s Hin).
        pose proof (depth_dict_lookup _ _ Hanyof). lia.
      + intros anys anys' Hanys. apply alike_Ok.
        now rewrite !length_app, Herrs, Hanys. }
  split; [apply Halike|].
  specialize (Halike schema name name' v).
  destruct (validate schema name v) as [[|e es]|],
           (validate schema name' v) as [[|e' es']|];
    simpl in Halike; try contradiction; try discriminate Halike;
    split; intros H; try discriminate H; reflexivity.
Qed.

End Verdicts.

(** * Objects and unions *)

Section ObjectTheory.

Variable repr : json -> string.

Local Abbreviation validate := (_validate_property repr).

(** The loop over the required names of an object. *)
Lemma check_required_names (d o : Py.dict) (name : string) :
  wf_fragment (JDict d) = true ->
  check_required repr name o d
  = Ok (map (fun k => "Missing required property " ++ name ++ "." ++ k)
            (filter (fun k => negb (Py.dict_mem k o))
                    (required_names (JDict d)))).
Proof.
  intros Hwf. unfold check_required. rewrite (wf_required d Hwf).
  destruct (Py.dict_lookup "required" d) as [required|] eqn:Hreq.
  - cbv beta iota. change (Py.iter (JList ?l)) with (Ok l). rewrite bind_Ok.
    rewrite mapM_map.
    induction (required_names (JDict d)) as [|k names IH]; [reflexivity|].
    rewrite mapM_cons.
    change (Py.contains (JStr k) (JDict o)) with (Ok (Py.dict_mem k o)).
    rewrite bind_Ok.
    destruct (mapM _ names) as [missing|]; [|discriminate]. simpl.
    injection IH as IH. rewrite IH. now destruct (Py.dict_mem k o).
  - unfold required_names. now rewrite Hreq.
Qed.

(** The loop over the declared properties of an object. *)
Lemma check_object_properties (d o : Py.dict) (name : string)
    (ess : list (list string)) :
  wf_fragment (JDict d) = true ->
  Forall2 (fun prop es =>
             match Py.dict_lookup (fst prop) o with
             | Some v => validate (snd prop) (name ++ "." ++ fst prop) v = Ok es
             | None => es = []
             end) (declared_properties (JDict d)) ess ->
  match property_validators repr d with
  | Some props => props <- props ;; check_properties props name o
  | None => Ok []
  end = Ok (List.concat ess).
Proof.
  intros Hwf Hess. unfold property_validators.
  rewrite (wf_properties d Hwf).
  destruct (Py.dict_lookup "properties" d) as [ps|] eqn:Hps.
  - simpl option_map. cbv beta iota.
    change (Py.items (JDict ?l)) with (Ok l). rewrite !bind_Ok.
    unfold check_properties. rewrite mapM_map.
    erewrite mapM_Forall2; [reflexivity|].
    eapply Forall2_impl; [|exact Hess].
    intros [prop_name prop_spec] es. simpl.
    destruct (Py.dict_lookup prop_name o); [auto | now intros ->].
  - unfold declared_properties in Hess. rewrite Hps in Hess.
    inversion Hess. reflexivity.
Qed.

(** X13. Against a fragment of type object of the supported subset, every
    declared property that the object has is validated under the path
    <path>.<name>, in declared order, and a declared property that the
    object lacks is passed over; one error "Missing required property
    <path>.<name>" follows for each required name that the object lacks,
    in the order of the list, and then the errors of the union. *)
Theorem object_property_accumulation (d o : Py.dict) (name : string)
    (ess : list (list string)) (any_errors : list string) :
  wf_fragment (JDict d) = true ->
  Py.dict_lookup "type" d = Some (JStr "object") ->
  Forall2 (fun prop es =>
             match Py.dict_lookup (fst prop) o with
             | Some v => validate (snd prop) (name ++ "." ++ fst prop) v = Ok es
             | None => es = []
             end) (declared_properties (JDict d)) ess ->
  any_of_part repr d name (JDict o) = Ok any_errors ->
  validate (JDict d) name (JDict o)
  = Ok ((List.concat ess
         ++ map (fun k => ("Missing required property " ++ name ++ "." ++ k)%string)
                (filter (fun k => negb (Py.dict_mem k o))
                        (required_names (JDict d))))
        ++ any_errors)%list.
Proof.
  intros Hwf Htype Hess Hany.
  rewrite validate_dict_not_null by discriminate.
  unfold type_dispatch, Py.dict_get. rewrite Htype.
  change (check_object repr d name (JDict o))
    with (prop_errors <-
            match property_validators repr d with
            | Some props => props <- props ;; check_properties props name o
            | None => Ok []
            end ;;
          required_errors <- check_required repr name o d ;;
          Ok (prop_errors ++ required_errors)%list).
  rewrite (@check_object_properties d o name ess Hwf Hess).
  rewrite (@check_required_names d o name Hwf), Hany. reflexivity.
Qed.

(** X14. Against a fragment of type object of the supported subset without
    anyOf, the result depends on the object through its declared and its
    required properties only: two objects that agree on these give the
    same result, so properties that the fragment does not name are never
    an error. *)
Theorem undeclared_properties_are_ignored (d o o' : Py.dict) (name : string) :
  wf_fragment (JDict d) = true ->
  Py.dict_lookup "type" d = Some (JStr "object") ->
  Py.dict_mem "anyOf" d = false ->
  (forall k,
      Py.dict_mem k (declared_properties (JDict d)) = true \/
      In k (required_names (JDict d)) ->
      Py.dict_lookup k o = Py.dict_lookup k o') ->
  validate (JDict d) name (JDict o) = validate (JDict d) name (JDict o').
Proof.
  intros Hwf Htype Hany Hagree.
  rewrite !validate_dict_not_null by discriminate.
  rewrite !(any_of_part_no_anyOf repr d name _ Hany).
  unfold type_dispatch, Py.dict_get. rewrite Htype.
  change (check_object repr d name (JDict ?x))
    with (prop_errors <-
            match property_validators repr d with
            | Some props => props <- props ;; check_properties props name x
            | None => Ok []
            end ;;
          required_errors <- check_required repr name x d ;;
          Ok (prop_errors ++ required_errors)%list).
  rewrite (@check_required_names d o name Hwf), (@check_required_names d o' name Hwf).
  assert (Hfilter : filter (fun k => negb (Py.dict_mem k o))
                           (required_names (JDict d))
                    = filter (fun k => negb (Py.dict_mem k o'))
                             (required_names (JDict d))).
  { apply filter_ext_in. intros k Hk. unfold Py.dict_mem.
    now rewrite (Hagree k (or_intror Hk)). }
  rewrite Hfilter.
  assert (Hprops : match property_validators repr d with
                   | Some props => props <- props ;; check_properties props name o
                   | None => Ok []
                   end
                   = match property_validators repr d with
                     | Some props => props <- props ;; check_properties props name o'
                     | None => Ok []
                     end).
  { unfold property_validators. rewrite (wf_properties d Hwf).
    destruct (Py.dict_lookup "properties" d) as [ps|]; [|reflexivity].
    simpl option_map. cbv beta iota.
    change (Py.items (JDict ?l)) with (Ok l). rewrite !bind_Ok.
    unfold check_properties. rewrite !mapM_map. f_equal.
    apply mapM_ext_in. intros [prop_name prop_spec] Hin.
    now rewrite (Hagree prop_name (or_introl (dict_mem_In _ _ _ Hin))). }
  now rewrite Hprops.
Qed.

(** The loop of a union whose alternatives all return says whether one of
    them accepts the value. *)
Lemma any_of_loop_verdict (alts : list validator) (name : string) (v : json) :
  Forall (fun sub : validator => returns (sub name v)) alts ->
  forall acc, exists any_errors,
    any_of_loop alts name v acc
    = Ok (existsb (fun sub : validator =>
                     match sub name v with Ok [] => true | _ => false end) alts,
          any_errors).
Proof.
  induction 1 as [|sub alts [es Hsub] _ IH]; intros acc; simpl.
  - now exists acc.
  - rewrite Hsub. simpl. destruct es as [|e es]; [now exists acc|].
    apply IH.
Qed.

(** X15. Against a fragment of the supported subset that carries an anyOf
    list, a value that is not null is accepted exactly when the checks of
    the declared type accept it and some alternative accepts it, whatever
    the order of the alternatives. *)
Theorem union_accepts_when_an_alternative_does (d : Py.dict) (name : string)
    (v : json) (subs : list json) :
  wf_fragment (JDict d) = true ->
  Py.dict_lookup "anyOf" d = Some (JList subs) ->
  v <> JNull ->
  (validate (JDict d) name v = Ok [] <->
   type_dispatch repr d name v = Ok [] /\
   exists sub, In sub subs /\ validate sub name v = Ok []).
Proof.
  intros Hwf Hany Hv.
  rewrite (validate_dict_not_null repr d name Hv).
  assert (Hsubs : Forall (fun sub : validator => returns (sub name v))
                         (map validate subs)).
  { pose proof (wf_entry _ _ Hwf Hany) as Hok. unfold entry_ok in Hok.
    simpl in Hok. rewrite forallb_forall in Hok.
    apply Forall_forall. intros sub Hin. apply in_map_iff in Hin.
    destruct Hin as (s & <- & Hin). apply validate_returns. now apply Hok. }
  destruct (any_of_loop_verdict Hsubs []) as [any_errors Hloop].
  unfold any_of_part, alternatives. rewrite Hany. simpl option_map.
  cbv beta iota. change (Py.iter (JList subs)) with (Ok subs).
  rewrite !bind_Ok. unfold check_any_of. rewrite Hloop. rewrite bind_Ok.
  cbv beta iota.
  rewrite existsb_map.
  destruct (existsb _ subs) eqn:Hex.
  - apply existsb_exists in Hex. destruct Hex as (sub & Hin & Hsub).
    assert (Haccepts : validate sub name v = Ok []).
    { destruct (validate sub name v) as [[|]|]; try discriminate. reflexivity. }
    destruct (type_dispatch repr d name v) as [errors|]; simpl.
    + rewrite app_nil_r. split.
      * intros [= ->]. split; [reflexivity | now exists sub].
      * now intros [[= ->] _].
    + split; [discriminate | now intros [? _]].
  - split.
    + destruct (type_dispatch repr d name v) as [errors|]; simpl;
        [|discriminate].
      intros [= H]. apply app_eq_nil in H. destruct H as [_ H]. discriminate H.
    + intros [_ (sub & Hin & Hsub)].
      assert (Hno : existsb (fun x => match validate x name v with
                                      | Ok [] => true
                                      | _ => false
                                      end) subs = true).
      { apply existsb_exists. exists sub. split; [exact Hin|].
        now rewrite Hsub. }
      congruence.
Qed.

(** X16. On a response that is null, a boolean or a number, the top-level
    entry raises TypeError as soon as the schema, taken in the supported
    subset, requires or declares a property, at the first membership test;
    it returns no error when the schema does neither. *)
Theorem scalar_response_raises (schema response : json) :
  wf_fragment schema = true ->
  scalar response = true ->
  validate_response repr response schema
  = match required_names schema, declared_properties schema with
    | [], [] => Ok []
    | _, _ => Raise TypeError
    end.
Proof.
  intros Hwf Hscalar. destruct schema as [| | | | | |d]; try discriminate.
  unfold validate_response, Py.get. rewrite !bind_Ok.
  rewrite (wf_get_required d Hwf), (wf_get_properties d Hwf).
  change (Py.iter (JList ?l)) with (Ok l).
  change (Py.items (JDict ?l)) with (Ok l). rewrite !bind_Ok.
  destruct (required_names (JDict d)) as [|k names];
    [destruct (declared_properties (JDict d)) as [|[k v] ps]|];
    destruct response; try discriminate Hscalar; reflexivity.
Qed.

(** X23. When the response contains none of the properties that the
    schema, taken in the supported subset, requires or declares, as the
    membership test sees it, the top-level entry reports each required
    property as missing, in the order of the list, and validates nothing.
    This holds of an object, and also of a list and of a string, which are
    not rejected for their type. *)
Theorem response_without_the_named_properties (schema response : json) :
  wf_fragment schema = true ->
  (forall k, named_by schema k -> Py.contains (JStr k) response = Ok false) ->
  validate_response repr response schema
  = Ok (map (fun k => "Missing required property: " ++ k)
            (required_names schema)).
Proof.
  intros Hwf Hnone. destruct schema as [| | | | | |d]; try discriminate.
  unfold validate_response, Py.get. rewrite !bind_Ok.
  rewrite (wf_get_required d Hwf), (wf_get_properties d Hwf).
  change (Py.iter (JList ?l)) with (Ok l).
  change (Py.items (JDict ?l)) with (Ok l). rewrite !bind_Ok.
  rewrite mapM_map.
  rewrite (mapM_pure _ (fun k => ["Missing required property: " ++ k])).
  2: { intros k Hk. rewrite (Hnone k (or_introl Hk)). reflexivity. }
  rewrite !bind_Ok. change (Py.items (JDict ?l)) with (Ok l). rewrite bind_Ok.
  rewrite (mapM_pure _ (fun _ => [])).
  2: { intros [prop_name prop_spec] Hin.
       rewrite (Hnone prop_name (or_intror (dict_mem_In _ _ _ Hin))).
       reflexivity. }
  rewrite bind_Ok, concat_singletons, concat_empties. now rewrite app_nil_r.
Qed.

End ObjectTheory.

(** * Templates and lookups *)

Module LookupTheory.
Import Path ReTheory.

Lemma count_slashes_app (u v : string) :
  count_slashes (u ++ v) = (count_slashes u + count_slashes v)%nat.
Proof.
  induction u as [|c u IH]; simpl; [reflexivity|]. rewrite IH. lia.
Qed.

Lemma count_slashes_segment (seg : string) :
  slash_free seg = true -> count_slashes seg = O.
Proof.
  induction seg as [|c seg IH]; simpl; [reflexivity|].
  intros H. apply andb_true_iff in H. destruct H as [Hc Hseg].
  apply negb_true_iff in Hc. rewrite Hc. now apply IH.
Qed.

Lemma instance_slashes (ts : list token) (s : string) :
  instance ts s -> count_slashes s = template_slashes ts.
Proof.
  induction 1 as [|c ts s _ IH|seg ts s _ Hfree _ IH]; simpl.
  - reflexivity.
  - now rewrite IH.
  - now rewrite count_slashes_app, (count_slashes_segment _ Hfree), IH.
Qed.

Lemma instance_literal (s p : string) :
  instance (map Chr (list_ascii_of_string s)) p <-> p = s.
Proof.
  revert p. induction s as [|c s IH]; intros p; simpl.
  - split; [now inversion 1 | intros ->; constructor].
  - split.
    + inversion 1; subst. f_equal. now apply IH.
    + intros ->. constructor. now apply IH.
Qed.

(** *** Normal forms of the arguments *)

Lemma rstrip_slash_fixed (s : string) :
  ends_with_slash s = false -> rstrip_slash s = s.
Proof.
  induction s as [|c s IH]; simpl; [reflexivity|].
  destruct s as [|c' s].
  - simpl. now intros ->.
  - intros H. rewrite (IH H). reflexivity.
Qed.

Lemma rstrip_slash_slashes (s : string) (n : nat) :
  rstrip_slash (s ++ slashes n) = rstrip_slash s.
Proof.
  induction s as [|c s IH]; simpl.
  - induction n as [|n IHn]; simpl; [reflexivity|]. now rewrite IHn.
  - now rewrite IH.
Qed.

Lemma rstrip_slash_idem (s : string) :
  rstrip_slash (rstrip_slash s) = rstrip_slash s.
Proof.
  apply rstrip_slash_fixed. apply (proj2 (PathTheory.rstrip_slash_spec s)).
Qed.

Lemma normalize_slashes (path : string) (n : nat) :
  normalize (path ++ slashes n) = normalize path.
Proof. unfold normalize. now rewrite rstrip_slash_slashes. Qed.

Lemma normalize_leading_slash (path : string) :
  starts_with_slash path = false ->
  normalize (String "/" path) = normalize path.
Proof.
  unfold normalize. intros Hstart. simpl rstrip_slash.
  destruct (rstrip_slash path) as [|c r] eqn:Hr; simpl; [reflexivity|].
  destruct path as [|x path]; [discriminate|].
  simpl in Hstart, Hr.
  assert (Hc : Ascii.eqb c "/" = false).
  { destruct (rstrip_slash path).
    - destruct (Ascii.eqb x "/") eqn:Hx; [discriminate|].
      injection Hr as <- _. exact Hx.
    - injection Hr as <- _. exact Hstart. }
  now rewrite Hc.
Qed.

Lemma normalize_idem (path : string) : normalize (normalize path) = normalize path.
Proof.
  unfold normalize at 2.
  destruct (starts_with_slash (rstrip_slash path)) eqn:Hstart.
  - unfold normalize. now rewrite rstrip_slash_idem, Hstart.
  - change ("/" ++ rstrip_slash path) with (String "/" (rstrip_slash path)).
    rewrite (normalize_leading_slash _ Hstart).
    unfold normalize. now rewrite rstrip_slash_idem, Hstart.
Qed.

Lemma lower_char_idem (c : ascii) : lower_char (lower_char c) = lower_char c.
Proof. destruct c as [[] [] [] [] [] [] [] []]; reflexivity. Qed.

Lemma lower_idem (s : string) : lower (lower s) = lower s.
Proof.
  induction s as [|c s IH]; simpl; [reflexivity|].
  now rewrite lower_char_idem, IH.
Qed.

End LookupTheory.

Section LookupFacts.
Import Path LookupTheory.

Variable re_match : string -> string -> result bool.

Local Abbreviation resolve := (get_schema_for_endpoint re_match).
Local Abbreviation match_pattern := (_match_path_pattern re_match).

(** X17. A placeholder stands for one segment: when a plain template
    matches a path, the path has as many slashes as the template has
    outside its placeholders, so a template never matches a path with more
    or fewer segments. *)
Theorem placeholder_fills_one_segment (path schema_path : string) :
  plain schema_path = true ->
  match_pattern path schema_path = Ok true ->
  count_slashes path = template_slashes (tokens schema_path).
Proof.
  intros Hplain Hmatch.
  destruct (@match_pattern_plain re_match path schema_path Hplain)
    as (b & Hb & Hiff).
  rewrite Hmatch in Hb. injection Hb as <-.
  destruct (proj1 Hiff eq_refl) as [H|(path' & -> & H)].
  - now apply instance_slashes.
  - rewrite count_slashes_app. simpl. rewrite Nat.add_0_r.
    now apply instance_slashes.
Qed.

(** X18. A plain template without an opening brace matches the path that
    is the template itself, the same path followed by one newline, and no
    other. *)
Theorem literal_template_matches_itself (path schema_path : string) :
  plain schema_path = true ->
  every not_brace schema_path = true ->
  match_pattern path schema_path
  = Ok (String.eqb path schema_path || String.eqb path (schema_path ++ line_end)).
Proof.
  intros Hplain Hliteral.
  destruct (@match_pattern_plain re_match path schema_path Hplain)
    as (b & Hb & Hiff).
  rewrite Hb. f_equal. unfold template_matches, tokens in Hiff.
  rewrite (PathTheory.scan_literal _ Hliteral) in Hiff.
  apply eq_true_iff_eq. rewrite Hiff, orb_true_iff, !String.eqb_eq.
  rewrite instance_literal. split.
  - intros [H|(path' & -> & H)]; [now left|].
    apply instance_literal in H. subst. now right.
  - intros [H|H]; [now left|]. right. exists schema_path.
    split; [exact H | now apply instance_literal].
Qed.

Lemma scan_paths_lower (entries : Py.dict) (method path : string) :
  scan_paths re_match entries (lower method) path
  = scan_paths re_match entries method path.
Proof.
  induction entries as [|[schema_path path_spec] entries IH]; simpl;
    [reflexivity|].
  now rewrite lower_idem, IH.
Qed.

Lemma resolve_lower (self_schema : json) (method path : string) :
  resolve self_schema (lower method) path = resolve self_schema method path.
Proof.
  unfold get_schema_for_endpoint, exact_match.
  rewrite lower_idem.
  destruct (negb (Py.truthy self_schema)); [reflexivity|].
  destruct (_ <- Py.get self_schema "paths" (JDict []) ;; _) as [[op|]|];
    simpl; try reflexivity.
  destruct (Py.get self_schema "paths" (JDict [])) as [paths|]; simpl;
    [|reflexivity].
  destruct (Py.items paths) as [entries|]; simpl; [|reflexivity].
  apply scan_paths_lower.
Qed.

Lemma resolve_normalize (self_schema : json) (method path path' : string) :
  normalize path = normalize path' ->
  resolve self_schema method path = resolve self_schema method path'.
Proof. unfold get_schema_for_endpoint. now intros ->. Qed.

(** X19. A lookup sees its arguments up to their normal form: the method
    up to the case of its letters, and the path up to the slashes that end
    it and to a missing leading slash; looking up the normalised path
    gives the same result again. *)
Theorem lookup_normalises_its_arguments (self_schema : json)
    (method path : string) :
  resolve self_schema (lower method) path = resolve self_schema method path /\
  (forall n, resolve self_schema method (path ++ slashes n)
             = resolve self_schema method path) /\
  (starts_with_slash path = false ->
   resolve self_schema method ("/" ++ path) = resolve self_schema method path) /\
  resolve self_schema method (normalize path) = resolve self_schema method path.
Proof.
  split; [apply resolve_lower|]. split; [|split].
  - intros n. apply resolve_normalize, normalize_slashes.
  - intros Hstart. apply resolve_normalize.
    now apply normalize_leading_slash.
  - apply resolve_normalize, normalize_idem.
Qed.

End LookupFacts.

(** * URL builders *)

Module UrlTheory.
Import Path.

Lemma lstrip_slash_slashes (n : nat) (s : string) :
  lstrip_slash (slashes n ++ s) = lstrip_slash s.
Proof. induction n as [|n IH]; simpl; [reflexivity | exact IH]. Qed.

Lemma lstrip_slash_spec (s : string) :
  exists m, s = slashes m ++ lstrip_slash s.
Proof.
  induction s as [|c s [m Hm]]; [now exists O|]. simpl.
  destruct (Ascii.eqb_spec c "/") as [->|_].
  - exists (S m). simpl. now rewrite <- Hm.
  - now exists O.
Qed.

Lemma lstrip_slash_start (s : string) :
  starts_with_slash (lstrip_slash s) = false.
Proof.
  induction s as [|c s IH]; simpl; [reflexivity|].
  destruct (Ascii.eqb c "/") eqn:Hc; [exact IH | exact Hc].
Qed.

Lemma lstrip_slash_empty (s : string) :
  String.eqb (lstrip_slash s) "" = every (fun c => Ascii.eqb c "/") s.
Proof.
  induction s as [|c s IH]; simpl; [reflexivity|].
  destruct (Ascii.eqb c "/"); [exact IH | reflexivity].
Qed.

End UrlTheory.

(** X20. The URL of a request joins the base and the endpoint with one
    slash: it is the base without the slashes that end it, one slash, and
    the endpoint without the slashes that start it, so the slashes that
    end the base and those that start the endpoint do not count, and
    neither side of the joint has a slash next to it. *)
Theorem build_url_joins_with_one_slash (base_url endpoint : string) :
  (forall n m,
      _build_url (base_url ++ Path.slashes n) (Path.slashes m ++ endpoint)
      = _build_url base_url endpoint) /\
  exists base rest n m,
    base_url = base ++ Path.slashes n /\
    endpoint = Path.slashes m ++ rest /\
    _build_url base_url endpoint = base ++ "/" ++ rest /\
    Path.ends_with_slash base = false /\
    Path.starts_with_slash rest = false.
Proof.
  split.
  - intros n m. unfold _build_url.
    now rewrite LookupTheory.rstrip_slash_slashes, UrlTheory.lstrip_slash_slashes.
  - destruct (PathTheory.rstrip_slash_spec base_url) as [[n Hn] Hend].
    destruct (UrlTheory.lstrip_slash_spec endpoint) as [m Hm].
    exists (Path.rstrip_slash base_url), (lstrip_slash endpoint), n, m.
    split; [exact Hn|]. split; [exact Hm|]. split; [reflexivity|].
    split; [exact Hend | apply UrlTheory.lstrip_slash_start].
Qed.

(** X21. The URL that the settings build for an endpoint is the one that
    the client builds, except for an endpoint made of slashes only, the
    empty one included: its URL is the base without the slashes that end
    it, and without a slash put after it. *)
Theorem get_api_url_agrees_with_build_url (API_BASE_URL endpoint : string) :
  get_api_url API_BASE_URL endpoint
  = if every (fun c => Ascii.eqb c "/") endpoint
    then Path.rstrip_slash API_BASE_URL
    else _build_url API_BASE_URL endpoint.
Proof.
  unfold get_api_url, _build_url. cbv zeta.
  rewrite UrlTheory.lstrip_slash_empty.
  now destruct (every _ endpoint).
Qed.

(** * Closed instances *)

(** C1: true is accepted by the integer alternative, and a null value
    never reaches the union. *)
Lemma anyOf_union_counterexample :
  _validate_property example_repr string_or_integer "x" (JBool true) = Ok [] /\
  _validate_property example_repr string_or_integer "x" JNull
  = Ok ["Property x cannot be null"].
Proof. split; reflexivity. Qed.

Lemma anyOf_union_witness :
  _validate_property example_repr string_or_integer "x" (JList [])
  = Ok ["Property x does not match any allowed schemas";
        "  - Property x should be a string";
        "  - Property x should be a number"].
Proof.
  refine (proj2 (proj1 (anyOf_union example_repr)
                   [("anyOf", JList [typed "string"; typed "integer"])]
                   "x" (JList []) [typed "string"; typed "integer"] []
                   _ eq_refl eq_refl)
                [["Property x should be a string"];
                 ["Property x should be a number"]] _).
  - discriminate.
  - repeat constructor; discriminate.
Defined.

(** C2: a null value against the empty fragment. *)
Lemma permissive_default_counterexample :
  Py.dict_mem "type" [] = false /\
  Py.dict_mem "anyOf" [] = false /\
  _validate_property example_repr (JDict []) "x" JNull
  = Ok ["Property x cannot be null"].
Proof. repeat split; reflexivity. Qed.

Lemma permissive_default_witness :
  _validate_property example_repr
    (JDict [("description", JStr "anything"); ("nullable", JBool true)])
    "x" JNull = Ok [] /\
  _validate_property example_repr (JDict [("description", JStr "anything")])
    "x" (JInt 7) = Ok [].
Proof.
  split.
  - apply (@permissive_default example_repr); [reflexivity | reflexivity|].
    right. reflexivity.
  - apply (@permissive_default example_repr); [reflexivity | reflexivity|].
    left. discriminate.
Defined.

Lemma integer_strictness_witness :
  exists errors,
    _validate_property example_repr
      (JDict [("type", JStr "integer"); ("minimum", JInt 1)]) "x"
      (JFloat (S754_finite false 6755399441055744 (-51))) = Ok errors /\
    In "Property x should be an integer" errors.
Proof.
  exact (proj1 (proj1 (integer_strictness example_repr)
                  [("type", JStr "integer"); ("minimum", JInt 1)] "x"
                  eq_refl eq_refl)
               (S754_finite false 6755399441055744 (-51))).
Defined.

Lemma booleans_count_as_numbers_witness :
  _validate_property example_repr
    (JDict [("type", JStr "number"); ("minimum", JInt 1); ("maximum", JInt 5)])
    "x" (JBool false)
  = Ok ["Property x is too small (min: 1)"].
Proof.
  exact (proj1 (proj2 (booleans_count_as_numbers example_repr))
               [("type", JStr "number"); ("minimum", JInt 1); ("maximum", JInt 5)]
               "x" "number" false (Some 1) (Some 5) []
               eq_refl (or_intror eq_refl) eq_refl eq_refl eq_refl).
Defined.


(** C10: a response that is not an object. *)
Lemma throw_free_validation_counterexample :
  wf_fragment (JDict [("required", JList [JStr "id"])]) = true /\
  validate_response example_repr JNull (JDict [("required", JList [JStr "id"])])
  = Raise TypeError /\
  wf_fragment (JDict [("properties", JDict [("id", typed "integer")])]) = true /\
  validate_response example_repr (JList [JStr "id"])
    (JDict [("properties", JDict [("id", typed "integer")])])
  = Raise TypeError.
Proof. repeat split; reflexivity. Qed.

Lemma throw_free_validation_witness :
  exists ess,
    Forall2 (fun prop es =>
               match Py.dict_lookup (fst prop) [("id", JStr "7")] with
               | Some v => _validate_property example_repr (snd prop) (fst prop) v
                           = Ok es
               | None => es = []
               end)
            [("id", typed "integer"); ("name", typed "string")] ess /\
    validate_response example_repr (JDict [("id", JStr "7")])
      (JDict [("required", JList [JStr "id"; JStr "name"]);
              ("properties", JDict [("id", typed "integer");
                                    ("name", typed "string")])])
    = Ok (["Missing required property: name"] ++ List.concat ess)%list.
Proof.
  exact (proj2 (@throw_free_validation example_repr
                  (JDict [("required", JList [JStr "id"; JStr "name"]);
                          ("properties", JDict [("id", typed "integer");
                                                ("name", typed "string")])])
                  eq_refl)
               [("id", JStr "7")]).
Defined.





(** C9 on the store of the example: the array schema at 0, the value at 1. *)
Lemma purity_and_idempotence_witness :
  exists r1 ext1 r2 ext2,
    validate_at example_repr 3 "x" (Store.Ref 1 []) (Store.Ref 0 []) example_store
    = (r1, (example_store ++ ext1)%list) /\
    validate_at example_repr 3 "x" (Store.Ref 1 []) (Store.Ref 0 [])
                (example_store ++ ext1)%list
    = (r2, ((example_store ++ ext1) ++ ext2)%list) /\
    Store.deref ((example_store ++ ext1) ++ ext2)%list (Store.Ref 0 [])
    = Some integers /\
    Store.deref ((example_store ++ ext1) ++ ext2)%list (Store.Ref 1 [])
    = Some (JList [JStr "a"; JInt 1; JStr "b"]) /\
    observed (example_store ++ ext1)%list r1
    = Some (Ok (JList [JStr "Property x[0] should be a number";
                       JStr "Property x[2] should be a number"])) /\
    observed ((example_store ++ ext1) ++ ext2)%list r2
    = observed (example_store ++ ext1)%list r1.
Proof.
  exact (proj1 (purity_and_idempotence example_repr 3 example_store)
               "x" (Store.Ref 1 []) (Store.Ref 0 []) integers
               (JList [JStr "a"; JInt 1; JStr "b"]) eq_refl eq_refl (le_n 3)).
Defined.

(** ** String formats *)

Lemma date_time_is_a_prefix_check_witness :
  _validate_string_format "x" "9999-99-99T99:99:99 and more" (JStr "date-time")
  = [].
Proof.
  apply (proj2 (date_time_is_a_prefix_check "x" "9999-99-99T99:99:99 and more")).
  exists "9999", "99", "99", "99", "99", "99", " and more".
  repeat split.
Defined.

Lemma uuid_shape_witness :
  _validate_string_format "x" "0123abCD-4567-89ef-EF01-0123456789ab"
    (JStr "uuid") = [].
Proof.
  apply (proj2 (uuid_shape "x" "0123abCD-4567-89ef-EF01-0123456789ab")).
  exists "0123abCD", "4567", "89ef", "EF01", "0123456789ab".
  split; [now left | repeat split].
Defined.

Lemma email_shape_witness :
  exists local domain tld,
    up_to_newline "first.last@mail.example.org"
                  (local ++ "@" ++ domain ++ "." ++ tld) /\
    (2 <= String.length tld)%nat.
Proof.
  destruct (proj1 (email_shape "x" "first.last@mail.example.org") eq_refl)
    as (local & domain & tld & Hshape & _ & _ & _ & _ & Htld & _).
  now exists local, domain, tld.
Defined.

Lemma url_shape_witness :
  _validate_string_format "x" "https://a b" (JStr "url") = [].
Proof.
  apply (proj2 (proj2 (url_shape "x" "https://a b"))).
  exists "https", "a"%char, " "%char, "b".
  split; [now left|]. split; [now right|].
  split; [reflexivity|]. split; [discriminate | reflexivity].
Defined.

Lemma final_newline_is_accepted_witness :
  _validate_string_format "x" ("a@b.co" ++ line_end) (JStr "email") = [].
Proof.
  exact (@final_newline_is_accepted "x" "a@b.co" (JStr "email") eq_refl eq_refl).
Defined.

(** ** The type dispatch *)

Lemma type_mismatch_is_the_only_error_witness :
  _validate_property example_repr
    (JDict [("type", JStr "integer"); ("minimum", JStr "one")]) "x" (JStr "7")
  = Ok ["Property x should be a number"].
Proof.
  apply (@type_mismatch_is_the_only_error example_repr
           [("type", JStr "integer"); ("minimum", JStr "one")] "x" (JStr "7")
           "integer");
    [reflexivity | simpl; tauto | reflexivity | discriminate | reflexivity].
Defined.

Lemma only_keywords_are_read_witness :
  _validate_property example_repr
    (JDict [("type", JStr "string"); ("pattern", JStr "^a");
            ("oneOf", JList [typed "integer"])]) "x" (JStr "b")
  = _validate_property example_repr (typed "string") "x" (JStr "b").
Proof.
  apply (proj1 (@only_keywords_are_read example_repr
                  [("type", JStr "string"); ("pattern", JStr "^a");
                   ("oneOf", JList [typed "integer"])]
                  [("type", JStr "string")])).
  intros k Hk. simpl in Hk.
  repeat (destruct Hk as [<-|Hk]; [reflexivity|]). destruct Hk.
Defined.

Lemma string_length_bounds_witness :
  _validate_property example_repr
    (JDict [("type", JStr "string"); ("minLength", JInt 2); ("maxLength", JInt 4)])
    "x" (JStr "abcde")
  = Ok ["Property x is too long (max: 4)"].
Proof.
  exact (proj1 (@string_length_bounds example_repr
                  [("type", JStr "string"); ("minLength", JInt 2);
                   ("maxLength", JInt 4)]
                  "x" "abcde" (Some 2) (Some 4)
                  eq_refl eq_refl eq_refl eq_refl)).
Defined.

Lemma number_range_bounds_witness :
  _validate_property example_repr
    (JDict [("type", JStr "integer"); ("minimum", JInt 1)]) "x" (JInt 1)
  = Ok [].
Proof.
  apply (proj2 (@number_range_bounds example_repr
                  [("type", JStr "integer"); ("minimum", JInt 1)]
                  "x" "integer" 1 (Some 1) None
                  eq_refl (or_introl eq_refl) eq_refl eq_refl eq_refl)).
  split; [intros b [= <-]; lia | discriminate].
Defined.

Lemma array_length_bounds_witness :
  _validate_property example_repr
    (JDict [("type", JStr "array"); ("maxItems", JInt 1)]) "x"
    (JList [JNull; JStr "b"])
  = Ok ["Property x has too many items (max: 1)"].
Proof.
  exact (proj1 (@array_length_bounds example_repr
                  [("type", JStr "array"); ("maxItems", JInt 1)]
                  "x" [JNull; JStr "b"] None (Some 1)
                  eq_refl eq_refl eq_refl eq_refl eq_refl)).
Defined.

Lemma nan_passes_range_checks_witness :
  _validate_property example_repr
    (JDict [("type", JStr "number"); ("minimum", JInt 0); ("maximum", JInt 10)])
    "x" (JFloat S754_nan)
  = Ok [].
Proof.
  exact (proj1 (@nan_passes_range_checks example_repr
                  [("type", JStr "number"); ("minimum", JInt 0);
                   ("maximum", JInt 10)] "x" eq_refl eq_refl) eq_refl).
Defined.

(** ** Invariants, objects and unions *)

Lemma every_error_names_its_path_witness :
  Forall (mentions "x")
         ["Property x[0] should be a number"; "Property x[2] should be a number"].
Proof.
  exact (proj1 (every_error_names_its_path example_repr) integers "x"
               (JList [JStr "a"; JInt 1; JStr "b"]) _ eq_refl).
Defined.

Lemma object_property_accumulation_witness :
  _validate_property example_repr
    (JDict [("type", JStr "object");
            ("properties", JDict [("id", typed "integer"); ("name", typed "string")]);
            ("required", JList [JStr "id"; JStr "email"])])
    "x" (JDict [("id", JStr "7")])
  = Ok ["Property x.id should be a number"; "Missing required property x.email"].
Proof.
  apply (@object_property_accumulation example_repr
           [("type", JStr "object");
            ("properties", JDict [("id", typed "integer"); ("name", typed "string")]);
            ("required", JList [JStr "id"; JStr "email"])]
           [("id", JStr "7")] "x"
           [["Property x.id should be a number"]; []] []);
    [reflexivity | reflexivity | | reflexivity].
  repeat constructor.
Defined.

Lemma undeclared_properties_are_ignored_witness :
  _validate_property example_repr
    (JDict [("type", JStr "object");
            ("properties", JDict [("id", typed "integer")]);
            ("required", JList [JStr "id"])])
    "x" (JDict [("id", JInt 7); ("note", JNull)])
  = _validate_property example_repr
      (JDict [("type", JStr "object");
              ("properties", JDict [("id", typed "integer")]);
              ("required", JList [JStr "id"])])
      "x" (JDict [("id", JInt 7)]).
Proof.
  apply (@undeclared_properties_are_ignored example_repr);
    [reflexivity | reflexivity | reflexivity|].
  intros k Hk.
  destruct (String.eqb_spec "id" k) as [<-|Hne]; [reflexivity|].
  exfalso. destruct Hk as [Hk|[Hk|[]]]; [|exact (Hne Hk)].
  change (Py.dict_mem k [("id", typed "integer")] = true) in Hk.
  unfold Py.dict_mem, Py.dict_lookup in Hk.
  apply String.eqb_neq in Hne. rewrite Hne in Hk. discriminate Hk.
Defined.

Lemma union_accepts_when_an_alternative_does_witness :
  _validate_property example_repr string_or_integer "x" (JInt 1) = Ok [].
Proof.
  apply (proj2 (@union_accepts_when_an_alternative_does example_repr
                  [("anyOf", JList [typed "string"; typed "integer"])]
                  "x" (JInt 1) [typed "string"; typed "integer"]
                  eq_refl eq_refl ltac:(discriminate))).
  split; [reflexivity|]. exists (typed "integer").
  split; [right; now left | reflexivity].
Defined.

Lemma scalar_response_raises_witness :
  validate_response example_repr JNull (JDict [("required", JList [JStr "id"])])
  = Raise TypeError.
Proof.
  exact (@scalar_response_raises example_repr
           (JDict [("required", JList [JStr "id"])]) JNull eq_refl eq_refl).
Defined.

Lemma response_without_the_named_properties_witness :
  validate_response example_repr (JList [JInt 1; JStr "name"])
    (JDict [("required", JList [JStr "id"]);
            ("properties", JDict [("id", typed "integer")])])
  = Ok ["Missing required property: id"].
Proof.
  apply (@response_without_the_named_properties example_repr
           (JDict [("required", JList [JStr "id"]);
                   ("properties", JDict [("id", typed "integer")])])
           (JList [JInt 1; JStr "name"]) eq_refl).
  intros k Hk.
  assert (Hid : k = "id").
  { destruct Hk as [[Hk|[]]|Hk]; [now symmetry|].
    change (Py.dict_mem k [("id", typed "integer")] = true) in Hk.
    unfold Py.dict_mem, Py.dict_lookup in Hk.
    destruct (String.eqb_spec "id" k); [now symmetry | discriminate Hk]. }
  subst k. reflexivity.
Defined.

(** ** Templates *)

Lemma placeholder_fills_one_segment_witness :
  count_slashes "/api/agents/42"
  = template_slashes (Path.tokens "/api/agents/{id}").
Proof.
  exact (@placeholder_fills_one_segment example_re_match
           "/api/agents/42" "/api/agents/{id}" eq_refl eq_refl).
Defined.

Lemma literal_template_matches_itself_witness :
  _match_path_pattern example_re_match "/api/health/live" "/api/health"
  = Ok false.
Proof.
  exact (@literal_template_matches_itself example_re_match
           "/api/health/live" "/api/health" eq_refl eq_refl).
Defined.

Lemma lookup_normalises_its_arguments_witness :
  get_schema_for_endpoint example_re_match agents_document "get" "api/agents/42"
  = get_schema_for_endpoint example_re_match agents_document "GET" "/api/agents/42///".
Proof.
  destruct (lookup_normalises_its_arguments example_re_match agents_document
              "GET" "/api/agents/42") as (Hcase & Hend & _ & _).
  destruct (lookup_normalises_its_arguments example_re_match agents_document
              "get" "api/agents/42") as (_ & _ & Hstart & _).
  rewrite <- (Hstart eq_refl). change (Path.lower "GET") with "get" in Hcase.
  change ("/" ++ "api/agents/42") with "/api/agents/42".
  rewrite Hcase. symmetry. exact (Hend 3%nat).
Defined.
